(** * Elevator simulation: a shallow embedding of the round engine and its
    arrival / moving algorithms (ES_entities.py, ES_algorithms.py,
    ES_simulation.py), with the properties of the written specification
    stated and settled over it.

    Python integers are unbounded, so floors, capacities and wait times are
    [Z].  A [Person] is a mutable object shared between several lists
    (waiting lists, passenger lists, [total_people], [reached_dest]); the
    lists therefore hold object identities ([pid]) and the attributes live
    in an object store ([heap]).  A [dict] keeps its keys in insertion order
    and the code iterates over it, so it is an association list.  Python
    exceptions are the [Raise] branch of [result].

    The classes are decorated with python_ta's [check_contracts], which
    asserts the documented preconditions and representation invariants that
    are Python expressions; the model is of the undecorated code, and the
    statements below take those preconditions as hypotheses where they
    matter.  The visualizer runs headless ([visualize = False]), where each
    of its methods returns at once. *)

From Stdlib Require Import String ZArith List Lia Bool Sorted Permutation.
Import ListNotations.
Open Scope Z_scope.

(* ------------------------------------------------------------------ *)
(** ** Exceptions and the error monad *)

Inductive exn : Set :=
| KeyError
| ValueError
| IndexError
| ZeroDivisionError.

Inductive result (A : Type) : Type :=
| Ok (a : A)
| Raise (e : exn).

Arguments Ok {A} a.
Arguments Raise {A} e.

Definition bind {A B : Type} (m : result A) (k : A -> result B) : result B :=
  match m with
  | Ok a => k a
  | Raise e => Raise e
  end.

Notation "x <- m ;; k" := (bind m (fun x => k))
  (at level 61, m at next level, right associativity).
Notation "' pat <- m ;; k" := (bind m (fun x => match x with pat => k end))
  (at level 61, pat pattern, m at next level, right associativity).

(** [for x in l: body], threading the mutated state [s]; an exception in the
    body leaves the loop. *)
Fixpoint for_each {A S : Type} (l : list A) (body : A -> S -> result S) (s : S)
  : result S :=
  match l with
  | [] => Ok s
  | x :: l' => s' <- body x s ;; for_each l' body s'
  end.

(* ------------------------------------------------------------------ *)
(** ** Python lists *)

Module PyList.

(** [l.index(x)]: position of the first element equal to [x]. *)
Fixpoint index (x : Z) (l : list Z) : result nat :=
  match l with
  | [] => Raise ValueError
  | y :: l' => if x =? y then Ok O else i <- index x l' ;; Ok (S i)
  end.

(** [l[i]] for a non-negative [i]. *)
Definition getitem {A : Type} (l : list A) (i : nat) : result A :=
  match nth_error l i with
  | Some a => Ok a
  | None => Raise IndexError
  end.

(** [l.remove(x)] on a list of objects compared by identity: drops the
    first occurrence. *)
Fixpoint remove (x : nat) (l : list nat) : result (list nat) :=
  match l with
  | [] => Raise ValueError
  | y :: l' => if Nat.eqb x y then Ok l' else r <- remove x l' ;; Ok (y :: r)
  end.

(** [max(l)] and [min(l)] on integers. *)
Definition max (l : list Z) : result Z :=
  match l with
  | [] => Raise ValueError
  | x :: l' => Ok (fold_left Z.max l' x)
  end.

Definition min (l : list Z) : result Z :=
  match l with
  | [] => Raise ValueError
  | x :: l' => Ok (fold_left Z.min l' x)
  end.

Definition sum (l : list Z) : Z := fold_left Z.add l 0.

(** [x in l] on integers. *)
Definition contains (x : Z) (l : list Z) : bool := existsb (Z.eqb x) l.

Definition len {A : Type} (l : list A) : Z := Z.of_nat (length l).

End PyList.

(* ------------------------------------------------------------------ *)
(** ** Python dicts with integer keys (insertion ordered) *)

Module Dict.

Definition t (V : Type) : Type := list (Z * V).

Definition empty {V : Type} : t V := [].

Definition keys {V : Type} (d : t V) : list Z := map fst d.

(** [d.get(k)] *)
Fixpoint find {V : Type} (d : t V) (k : Z) : option V :=
  match d with
  | [] => None
  | (k', v) :: d' => if k =? k' then Some v else find d' k
  end.

(** [k in d] *)
Definition mem {V : Type} (d : t V) (k : Z) : bool :=
  match find d k with Some _ => true | None => false end.

(** [d[k]] *)
Definition get {V : Type} (d : t V) (k : Z) : result V :=
  match find d k with
  | Some v => Ok v
  | None => Raise KeyError
  end.

(** [d[k] = v]: an existing key keeps its position, a new key goes last. *)
Fixpoint set {V : Type} (d : t V) (k : Z) (v : V) : t V :=
  match d with
  | [] => [(k, v)]
  | (k', v') :: d' => if k =? k' then (k', v) :: d' else (k', v') :: set d' k v
  end.

(** The representation of a real dict never repeats a key. *)
Definition wf {V : Type} (d : t V) : Prop := NoDup (keys d).

End Dict.

(* ------------------------------------------------------------------ *)
(** ** Entities (ES_entities.py) *)

Record Person : Set := mkPerson {
  start : Z;
  target : Z;
  wait_time : Z
}.

(** Object identity of a [Person] ([pid], a position in the store) and the
    store of all persons created so far; a new object takes the next free
    position. *)
Abbreviation pid := nat (only parsing).
Definition heap : Set := list Person.

Definition deref (h : heap) (p : pid) : Person := nth p h (mkPerson 0 0 0).

(** [Person.get_anger_level] *)
Definition get_anger_level (self : Person) : Z :=
  let x := wait_time self in
  if PyList.contains x [0; 1; 2] then 0
  else if PyList.contains x [3; 4] then 1
  else if PyList.contains x [5; 6] then 2
  else if PyList.contains x [7; 8] then 3
  else 4.

(** [Person(start, target)]: the waiting time starts at 0.  This is the
    body of the constructor; the decorator's assertions ([start >= 1],
    [target >= 1], [start != target]) are hypotheses of the statements
    about code that constructs people from outside data. *)
Definition new_Person (h : heap) (s tg : Z) : heap * pid :=
  (h ++ [mkPerson s tg 0], length h).

(** [p.wait_time += 1] *)
Fixpoint tick (h : heap) (p : pid) : heap :=
  match h, p with
  | [], _ => []
  | x :: h', O => mkPerson (start x) (target x) (wait_time x + 1) :: h'
  | x :: h', S p' => x :: tick h' p'
  end.

Record Elevator : Set := mkElevator {
  capacity : Z;
  current_floor : Z;
  target_floor : Z;
  passengers : list pid
}.

(** [Elevator(capacity)]: current and target floor 1, no passengers.  The
    decorator asserts [capacity > 0]. *)
Definition new_Elevator (c : Z) : Elevator := mkElevator c 1 1 [].

Definition set_target_floor (e : Elevator) (t : Z) : Elevator :=
  mkElevator (capacity e) (current_floor e) t (passengers e).

Definition set_current_floor (e : Elevator) (c : Z) : Elevator :=
  mkElevator (capacity e) c (target_floor e) (passengers e).

Definition set_passengers (e : Elevator) (ps : list pid) : Elevator :=
  mkElevator (capacity e) (current_floor e) (target_floor e) ps.

(* ------------------------------------------------------------------ *)
(** ** Arrival generators (ES_algorithms.py) *)

(** The concrete generators; [FileArrivals] carries its [arrival_data]. *)
Inductive ArrivalGenerator : Type :=
| SingleArrivals (max_floor : Z)
| FileArrivals (max_floor : Z) (arrival_data : Dict.t (list pid)).

(** Python's [a % b]: the sign of the result follows the divisor, as
    [Z.modulo]; a zero divisor raises. *)
Definition py_mod (a b : Z) : result Z :=
  if b =? 0 then Raise ZeroDivisionError else Ok (a mod b).

(** The grouping loop shared by both generators:
<<
    if p.start not in dic: dic[p.start] = [p]
    else: dic[p.start].append(p)
>> *)
Definition group_person (h : heap) (dic : Dict.t (list pid)) (p : pid)
  : Dict.t (list pid) :=
  let k := start (deref h p) in
  match Dict.find dic k with
  | None => Dict.set dic k [p]
  | Some l => Dict.set dic k (l ++ [p])
  end.

(** [SingleArrivals.generate] *)
Definition SingleArrivals_generate (max_floor : Z) (h : heap) (round_num : Z)
  : result (heap * Dict.t (list pid)) :=
  let dic := Dict.empty in
  m <- py_mod round_num (max_floor - 1) ;;
  let tgt_flr := m + 2 in
  let '(h', p) := new_Person h 1 tgt_flr in
  Ok (h', group_person h' dic p).

(** [FileArrivals.generate]; returns the updated [arrival_data] too, since
    an unknown round is entered with an empty list. *)
Definition FileArrivals_generate (arrival_data : Dict.t (list pid)) (h : heap)
    (round_num : Z) : result (Dict.t (list pid) * Dict.t (list pid)) :=
  let arrival_data :=
    if negb (Dict.mem arrival_data round_num)
    then Dict.set arrival_data round_num []
    else arrival_data in
  people <- Dict.get arrival_data round_num ;;
  let dic := fold_left (group_person h) people Dict.empty in
  Ok (arrival_data, dic).

(** [FileArrivals.__init__] past the csv reader: each record is the round
    number followed by the (start, target) pairs of the line.  The
    assertions on the way ([max_floor >= 2], and those of [Person] for
    every pair) are hypotheses of the statements about it. *)
Definition FileArrivals_row (st : heap * Dict.t (list pid))
    (line : Z * list (Z * Z)) : heap * Dict.t (list pid) :=
  let '(h, data) := st in
  let '(r, pairs) := line in
  fold_left
    (fun (st : heap * Dict.t (list pid)) (sp : Z * Z) =>
       let '(h, data) := st in
       let '(h', p) := new_Person h (fst sp) (snd sp) in
       match Dict.find data r with
       | Some l => (h', Dict.set data r (l ++ [p]))
       | None => (h', data)
       end)
    pairs (h, Dict.set data r []).

Definition new_FileArrivals (max_floor : Z) (lines : list (Z * list (Z * Z)))
    (h : heap) : heap * ArrivalGenerator :=
  let '(h', data) := fold_left FileArrivals_row lines (h, Dict.empty) in
  (h', FileArrivals max_floor data).

(** Dispatch of [generate]: the new store, the generator after the call and
    the arrivals by floor. *)
Definition generate (g : ArrivalGenerator) (h : heap) (round_num : Z)
  : result (heap * ArrivalGenerator * Dict.t (list pid)) :=
  match g with
  | SingleArrivals mf =>
      '(h', dic) <- SingleArrivals_generate mf h round_num ;;
      Ok (h', g, dic)
  | FileArrivals mf data =>
      '(data', dic) <- FileArrivals_generate data h round_num ;;
      Ok (h, FileArrivals mf data', dic)
  end.

(* ------------------------------------------------------------------ *)
(** ** Moving algorithms (ES_algorithms.py) *)

Inductive MovingAlgorithm : Set :=
| EndToEndLoop
| FurthestFloor.

(** [EndToEndLoop.update_target_floors], one elevator of the loop. *)
Definition EndToEndLoop_elevator (max_floor : Z) (e : Elevator) : Elevator :=
  if current_floor e =? 1 then set_target_floor e max_floor
  else if current_floor e =? max_floor then set_target_floor e 1
  else e.

(** The selection both branches of [FurthestFloor] run on their distance
    list; [floors] is the list the collected indices are looked up in
    ([e.passengers[i].target] in the first branch, [f[i]] in the second):
<<
    max_dist = max(dist)
    note = []
    for d in dist:
        if max_dist == d:
            note.append(dist.index(d))
    list_floor = []
    for index_max_dist in note:
        list_floor.append(floors[index_max_dist])
    ... = min(list_floor)
>> *)
Definition furthest_select (dist floors : list Z) : result Z :=
  max_dist <- PyList.max dist ;;
  note <- for_each dist
            (fun d note =>
               if max_dist =? d
               then i <- PyList.index d dist ;; Ok (note ++ [i])
               else Ok note) [] ;;
  list_floor <- for_each note
                  (fun index_max_dist list_floor =>
                     fl <- PyList.getitem floors index_max_dist ;;
                     Ok (list_floor ++ [fl])) [] ;;
  PyList.min list_floor.

(** The floors with somebody waiting, in the iteration order of the dict. *)
Definition waiting_floors (waiting : Dict.t (list pid)) : result (list Z) :=
  for_each (Dict.keys waiting)
    (fun floor f =>
       l <- Dict.get waiting floor ;;
       if negb (PyList.len l =? 0) then Ok (f ++ [floor]) else Ok f) [].

(** [FurthestFloor.update_target_floors], one elevator of the loop. *)
Definition FurthestFloor_elevator (h : heap) (waiting : Dict.t (list pid))
    (e : Elevator) : result Elevator :=
  if negb (PyList.len (passengers e) =? 0) then
    let dist :=
      map (fun p => Z.abs (current_floor e - target (deref h p))) (passengers e) in
    t <- furthest_select dist (map (fun p => target (deref h p)) (passengers e)) ;;
    Ok (set_target_floor e t)
  else if target_floor e =? current_floor e then
    f <- waiting_floors waiting ;;
    if PyList.len f =? 0 then Ok (set_target_floor e (current_floor e))
    else
      let dist := map (fun item => Z.abs (item - current_floor e)) f in
      t <- furthest_select dist f ;;
      Ok (set_target_floor e t)
  else Ok e.

(** [for e in elevators: ...] where the body mutates [e] in place. *)
Fixpoint for_elevators {S : Type} (es : list Elevator)
    (body : Elevator -> S -> result (Elevator * S)) (s : S)
  : result (list Elevator * S) :=
  match es with
  | [] => Ok ([], s)
  | e :: es' =>
      '(e', s') <- body e s ;;
      '(es'', s'') <- for_elevators es' body s' ;;
      Ok (e' :: es'', s'')
  end.

(** [update_target_floors(elevators, waiting, max_floor)]: the elevators
    after the call; the algorithms assign to nothing else. *)
Definition update_target_floors (alg : MovingAlgorithm) (h : heap)
    (elevators : list Elevator) (waiting : Dict.t (list pid)) (max_floor : Z)
  : result (list Elevator) :=
  match alg with
  | EndToEndLoop => Ok (map (EndToEndLoop_elevator max_floor) elevators)
  | FurthestFloor =>
      '(es, _) <- for_elevators elevators
                    (fun e (_ : unit) =>
                       e' <- FurthestFloor_elevator h waiting e ;; Ok (e', tt)) tt ;;
      Ok es
  end.

(* ------------------------------------------------------------------ *)
(** ** The simulation (ES_simulation.py) *)

Record Simulation : Type := mkSimulation {
  arrival_generator : ArrivalGenerator;
  elevators : list Elevator;
  moving_algorithm : MovingAlgorithm;
  num_floors : Z;
  waiting : Dict.t (list pid);
  total_people : list pid;
  reached_dest : list pid
}.

(** The configuration dictionary of [Simulation.__init__] (the visualizer
    runs headless and is left out). *)
Record Config : Type := mkConfig {
  cfg_num_floors : Z;
  cfg_num_elevators : Z;
  cfg_elevator_capacity : Z;
  cfg_arrival_generator : ArrivalGenerator;
  cfg_moving_algorithm : MovingAlgorithm
}.

(** [range(n)] *)
Definition range (n : Z) : list Z := map Z.of_nat (seq 0 (Z.to_nat n)).

(** [Simulation.__init__], the body.  Its documented preconditions
    ([num_floors >= 2], [elevator_capacity >= 1], [num_elevators >= 1]) are
    asserted by the decorator before the body runs; statements about what
    the constructor builds take them as hypotheses. *)
Definition new_Simulation (config : Config) : Simulation :=
  let temp_lst :=
    fold_left (fun (l : list Elevator) (_ : Z) =>
                 l ++ [new_Elevator (cfg_elevator_capacity config)])
              (range (cfg_num_elevators config)) [] in
  let temp_dic :=
    fold_left (fun (d : Dict.t (list pid)) (i : Z) =>
                 let floor := i + 1 in Dict.set d floor [])
              (range (cfg_num_floors config)) Dict.empty in
  mkSimulation (cfg_arrival_generator config) temp_lst
               (cfg_moving_algorithm config) (cfg_num_floors config)
               temp_dic [] [].

(** The Python state a stage works on: the object store and the
    simulation's attributes. *)
Definition World : Type := heap * Simulation.

Definition with_elevators (s : Simulation) (es : list Elevator) : Simulation :=
  mkSimulation (arrival_generator s) es (moving_algorithm s) (num_floors s)
               (waiting s) (total_people s) (reached_dest s).

(** *** Stage 1: [handle_disembarking] *)

Definition disembark_elevator (h : heap) (e : Elevator) (reached : list pid)
  : result (Elevator * list pid) :=
  let '(reached', temp) :=
    fold_left
      (fun (acc : list pid * list pid) (p : pid) =>
         if current_floor e =? target (deref h p)
         then (fst acc ++ [p], snd acc ++ [p])
         else acc)
      (passengers e) (reached, []) in
  ps <- for_each temp (fun p1 ps => PyList.remove p1 ps) (passengers e) ;;
  Ok (set_passengers e ps, reached').

Definition handle_disembarking (w : World) : result World :=
  let '(h, s) := w in
  '(es, reached) <- for_elevators (elevators s) (disembark_elevator h)
                      (reached_dest s) ;;
  Ok (h, mkSimulation (arrival_generator s) es (moving_algorithm s)
           (num_floors s) (waiting s) (total_people s) reached).

(** *** Stage 2: [generate_arrivals] *)

Definition generate_arrivals (round_num : Z) (w : World) : result World :=
  let '(h, s) := w in
  '(h', my_generator, my_arrivals) <- generate (arrival_generator s) h round_num ;;
  '(wt, tp) <- for_each (Dict.keys my_arrivals)
                 (fun key (acc : Dict.t (list pid) * list pid) =>
                    new <- Dict.get my_arrivals key ;;
                    l <- Dict.get (fst acc) key ;;
                    Ok (Dict.set (fst acc) key (l ++ new), snd acc ++ new))
                 (waiting s, total_people s) ;;
  Ok (h', mkSimulation my_generator (elevators s) (moving_algorithm s)
            (num_floors s) wt tp (reached_dest s)).

(** *** Stage 3: [handle_boarding] *)

(** The direction test of line 137. *)
Definition direction_ok (key p_target e_target_floor : Z) : bool :=
  ((key >? p_target) && (e_target_floor <=? key))
  || ((key <? p_target) && (e_target_floor >=? key)).

(** The body of [for p in self.waiting[key]]. *)
Definition board_person (h : heap) (key : Z) (p : pid)
    (st : Elevator * Dict.t (list pid)) : Elevator * Dict.t (list pid) :=
  let '(e, boarded) := st in
  if direction_ok key (target (deref h p)) (target_floor e) then
    if PyList.len (passengers e) <? capacity e then
      (set_passengers e (passengers e ++ [p]),
       match Dict.find boarded key with
       | None => Dict.set boarded key [p]
       | Some l => Dict.set boarded key (l ++ [p])
       end)
    else st
  else st.

(** The scan of one elevator over the waiting table. *)
Definition board_scan (h : heap) (waiting : Dict.t (list pid)) (e : Elevator)
  : result (Elevator * Dict.t (list pid)) :=
  for_each (Dict.keys waiting)
    (fun key st =>
       if current_floor (fst st) =? key then
         l <- Dict.get waiting key ;;
         Ok (fold_left (fun st p => board_person h key p st) l st)
       else Ok st)
    (e, Dict.empty).

(** The removal loop that follows the scan. *)
Definition remove_boarded (boarded waiting : Dict.t (list pid))
  : result (Dict.t (list pid)) :=
  for_each (Dict.keys boarded)
    (fun f wt =>
       people <- Dict.get boarded f ;;
       for_each people
         (fun person wt =>
            l <- Dict.get wt f ;;
            l' <- PyList.remove person l ;;
            Ok (Dict.set wt f l'))
         wt)
    waiting.

Definition board_elevator (h : heap) (e : Elevator) (waiting : Dict.t (list pid))
  : result (Elevator * Dict.t (list pid)) :=
  '(e', boarded) <- board_scan h waiting e ;;
  wt <- remove_boarded boarded waiting ;;
  Ok (e', wt).

Definition handle_boarding (w : World) : result World :=
  let '(h, s) := w in
  '(es, wt) <- for_elevators (elevators s) (board_elevator h) (waiting s) ;;
  Ok (h, mkSimulation (arrival_generator s) es (moving_algorithm s)
           (num_floors s) wt (total_people s) (reached_dest s)).

(** *** Stage 4: [move_elevators] *)

(** Line 152: the call of the moving algorithm on the simulation's own
    elevators, waiting table and floor count. *)
Definition retarget (w : World) : result World :=
  let '(h, s) := w in
  es <- update_target_floors (moving_algorithm s) h (elevators s) (waiting s)
          (num_floors s) ;;
  Ok (h, with_elevators s es).

Definition move_elevator (e : Elevator) : Elevator :=
  if current_floor e >? target_floor e then
    set_current_floor e (current_floor e - 1)
  else if current_floor e <? target_floor e then
    set_current_floor e (current_floor e + 1)
  else e.

Definition move_elevators (w : World) : result World :=
  '(h, s) <- retarget w ;;
  Ok (h, with_elevators s (map move_elevator (elevators s))).

(** *** Stage 5: [update_wait_times] *)

Definition update_wait_times (w : World) : result World :=
  let '(h, s) := w in
  let h1 :=
    fold_left (fun h e => fold_left tick (passengers e) h) (elevators s) h in
  h2 <- for_each (Dict.keys (waiting s))
          (fun key h =>
             l <- Dict.get (waiting s) key ;;
             Ok (fold_left tick l h))
          h1 ;;
  Ok (h2, s).

(** *** Rounds *)

Inductive stage : Set :=
| Disembark
| Arrivals (round_num : Z)
| Board
| Move
| Tick.

Definition exec_stage (st : stage) (w : World) : result World :=
  match st with
  | Disembark => handle_disembarking w
  | Arrivals i => generate_arrivals i w
  | Board => handle_boarding w
  | Move => move_elevators w
  | Tick => update_wait_times w
  end.

(** The body of the loop of [run] for round [i]. *)
Definition round_stages (i : Z) : list stage :=
  [Disembark; Arrivals i; Board; Move; Tick].

Definition round (i : Z) (w : World) : result World :=
  for_each (round_stages i) exec_stage w.

(** *** Statistics *)

(** [int(a / b)] on integers.  Python's [/] gives the binary64 number
    nearest to the exact quotient (ties to the even significand), and
    [int] drops its fractional part.  The magnitude is rounded on its own:
    the quotient [n / d] lies in [2^e, 2^(e+1)), its significand has 53
    bits, so it is rounded to a multiple of [2^k] with [k = e - 52], and
    below the normal range ([e < -1022]) to a multiple of [2^-1074].  A
    quotient that rounds to 2^1024 or more makes Python raise
    [OverflowError]; a mean of waiting times is that large only after as
    many rounds, and the model returns the rounded quotient there too. *)
Definition pow2 (k : Z) : Z := 2 ^ Z.max 0 k.

(** The [e] with [2^e <= n / d < 2^(e+1)], for positive [n] and [d]. *)
Definition binary_exponent (n d : Z) : Z :=
  let e := Z.log2 n - Z.log2 d in
  if d * pow2 e <=? n * pow2 (- e) then e else e - 1.

(** The integer nearest to [n / d], the even one at a tie. *)
Definition round_half_even (n d : Z) : Z :=
  let q := n / d in
  let r := n mod d in
  if 2 * r <? d then q
  else if d <? 2 * r then q + 1
  else if Z.even q then q else q + 1.

(** The integer part of the binary64 number nearest to [n / d]. *)
Definition binary64_trunc (n d : Z) : Z :=
  let k := Z.max (binary_exponent n d) (-1022) - 52 in
  let m := round_half_even (n * pow2 (- k)) (d * pow2 k) in
  m * pow2 k / pow2 (- k).

Definition int_truediv (a b : Z) : result Z :=
  if b =? 0 then Raise ZeroDivisionError
  else Ok (Z.sgn a * Z.sgn b * binary64_trunc (Z.abs a) (Z.abs b)).

Definition _calculate_stats (w : World) (num_rounds : Z)
  : result (list (string * Z)) :=
  let '(h, s) := w in
  '(max_time, avg_time) <-
    (if PyList.len (reached_dest s) =? 0 then Ok (-1, -1)
     else
       let wait_times :=
         fold_left (fun wt p => wt ++ [wait_time (deref h p)])
                   (reached_dest s) [] in
       max_time <- PyList.max wait_times ;;
       let sum_ := PyList.sum wait_times in
       avg_time <- int_truediv sum_ (PyList.len wait_times) ;;
       Ok (max_time, avg_time)) ;;
  Ok [("num_rounds"%string, num_rounds);
      ("total_people"%string, PyList.len (total_people s));
      ("people_completed"%string, PyList.len (reached_dest s));
      ("max_time"%string, max_time);
      ("avg_time"%string, avg_time)].

(** [Simulation.run], the body.  The documented preconditions are
    [num_rounds >= 1], which the decorator asserts, and a single call per
    instance, which nothing checks. *)
Definition run (w : World) (num_rounds : Z)
  : result (World * list (string * Z)) :=
  w' <- for_each (range num_rounds) round w ;;
  stats <- _calculate_stats w' num_rounds ;;
  Ok (w', stats).

(* ------------------------------------------------------------------ *)
(** ** Vocabulary of the specification *)

(** Somebody waits at floor [fl]. *)
Definition has_waiting (waiting : Dict.t (list pid)) (fl : Z) : Prop :=
  exists l, Dict.find waiting fl = Some l /\ l <> [].

Definition nonempty_at (waiting : Dict.t (list pid)) (fl : Z) : bool :=
  match Dict.find waiting fl with
  | Some l => negb (PyList.len l =? 0)
  | None => false
  end.

(** [t] is the lowest of the floors with somebody waiting that are farthest
    from [cur]. *)
Definition lowest_farthest (waiting : Dict.t (list pid)) (cur t : Z) : Prop :=
  has_waiting waiting t
  /\ forall g, has_waiting waiting g ->
       Z.abs (g - cur) <= Z.abs (t - cur)
       /\ (Z.abs (g - cur) = Z.abs (t - cur) -> t <= g).

(** The elevators an algorithm returns differ from the ones it was given in
    their target floors only. *)
Definition retargeted (e e' : Elevator) : Prop :=
  exists t, e' = set_target_floor e t.

(** What the written algorithm asks of [FurthestFloor] on an elevator
    without passengers. *)
Definition empty_elevator_rule (waiting : Dict.t (list pid)) (e e' : Elevator)
  : Prop :=
  retargeted e e'
  /\ (target_floor e <> current_floor e -> target_floor e' = target_floor e)
  /\ (target_floor e = current_floor e ->
      ((forall fl, ~ has_waiting waiting fl) -> target_floor e' = current_floor e)
      /\ ((exists fl, has_waiting waiting fl) ->
          lowest_farthest waiting (current_floor e) (target_floor e'))).

(** The targets of the people a call of [generate] returned for [floor]. *)
Definition arrival_targets
    (r : result (heap * ArrivalGenerator * Dict.t (list pid))) (floor : Z)
  : list Z :=
  match r with
  | Ok (h, _, dic) =>
      match Dict.find dic floor with
      | Some l => map (fun p => target (deref h p)) l
      | None => []
      end
  | Raise _ => []
  end.

(** The people of [people] that start at floor [k], in the order of
    [people]. *)
Definition group_of (h : heap) (people : list pid) (k : Z) : list pid :=
  filter (fun p => start (deref h p) =? k) people.

(** The list stored under [k], empty when [k] is no key. *)
Definition find_list (d : Dict.t (list pid)) (k : Z) : list pid :=
  match Dict.find d k with
  | Some l => l
  | None => []
  end.

(** The Board stage in the words of the specification, for one elevator at
    [floor] with target floor [e_target] and capacity [cap]: the waiting
    people [ws] are taken in list order; [n] is the number of passengers at
    the moment the head of [ws] is considered; a person boards when the
    direction test holds and the elevator has room, and stays waiting
    otherwise.  The result is the people who boarded and the people who
    remain, both in list order. *)
Fixpoint board_spec (h : heap) (floor e_target cap n : Z) (ws : list pid)
  : list pid * list pid :=
  match ws with
  | [] => ([], [])
  | p :: ws' =>
      if direction_ok floor (target (deref h p)) e_target && (n <? cap)
      then (p :: fst (board_spec h floor e_target cap (n + 1) ws'),
            snd (board_spec h floor e_target cap (n + 1) ws'))
      else (fst (board_spec h floor e_target cap n ws'),
            p :: snd (board_spec h floor e_target cap n ws'))
  end.

(** One elevator's turn in the Board stage on the waiting table [wt]: it
    scans the list of its own floor and leaves there the people who did not
    board; an elevator on a floor the table has no list for boards
    nobody. *)
Definition board_turn (h : heap) (e : Elevator) (wt : Dict.t (list pid))
  : Elevator * Dict.t (list pid) :=
  match Dict.find wt (current_floor e) with
  | None => (e, wt)
  | Some ws =>
      let br := board_spec h (current_floor e) (target_floor e) (capacity e)
                           (PyList.len (passengers e)) ws in
      (set_passengers e (passengers e ++ fst br),
       Dict.set wt (current_floor e) (snd br))
  end.

(** The Board stage over the elevators in list order: each one takes its
    turn on the table as the elevators before it left it. *)
Fixpoint board_turns (h : heap) (es : list Elevator) (wt : Dict.t (list pid))
  : list Elevator * Dict.t (list pid) :=
  match es with
  | [] => ([], wt)
  | e :: es' =>
      let et := board_turn h e wt in
      let rest := board_turns h es' (snd et) in
      (fst et :: fst rest, snd rest)
  end.

(** The states the simulation passes through from [w0]: [w0] itself and
    every state a stage returns from one of them.  The stages of [run] are
    among these steps, whatever the round. *)
Inductive reachable (w0 : World) : World -> Prop :=
| reach_init : reachable w0 w0
| reach_stage (st : stage) (w w' : World) :
    reachable w0 w -> exec_stage st w = Ok w' -> reachable w0 w'.

Definition within_capacity (e : Elevator) : Prop :=
  PyList.len (passengers e) <= capacity e.

(** The stages [run] executes for [num_rounds] rounds, in order. *)
Definition run_stages (num_rounds : Z) : list stage :=
  flat_map round_stages (range num_rounds).

(** [stats[key]] of a statistics mapping, when the key is there. *)
Fixpoint stat (stats : list (string * Z)) (key : string) : option Z :=
  match stats with
  | [] => None
  | (k, v) :: stats' => if String.eqb key k then Some v else stat stats' key
  end.

(** The floors the constructor enters into the waiting table, in order. *)
Definition floors (num_floors : Z) : list Z :=
  map (fun i => i + 1) (range num_floors).

(** Passenger [p] of elevator [e] is at its target floor. *)
Definition arrived (h : heap) (e : Elevator) (p : pid) : bool :=
  current_floor e =? target (deref h p).

(** What a stage adds to [total_people] and to [reached_dest]: the
    Arrivals stage appends the people its generator returned, floor by
    floor, to [total_people]; the Disembark stage appends the passengers
    that are at their target floor, elevator by elevator, to
    [reached_dest]; nothing else touches either list. *)
Definition people_step (st : stage) (w w' : World) : Prop :=
  match st with
  | Arrivals i =>
      (exists h1 g1 arr,
         generate (arrival_generator (snd w)) (fst w) i = Ok (h1, g1, arr)
         /\ total_people (snd w')
            = total_people (snd w) ++ flat_map (find_list arr) (Dict.keys arr))
      /\ reached_dest (snd w') = reached_dest (snd w)
  | Disembark =>
      total_people (snd w') = total_people (snd w)
      /\ reached_dest (snd w')
         = reached_dest (snd w)
           ++ flat_map (fun e => filter (arrived (fst w) e) (passengers e))
                       (elevators (snd w))
  | _ =>
      total_people (snd w') = total_people (snd w)
      /\ reached_dest (snd w') = reached_dest (snd w)
  end.

(** How a stage may change an elevator's floors: only [Move] does, by
    taking a target [t] and stepping once towards it. *)
Definition floor_step (st : stage) (e e' : Elevator) : Prop :=
  capacity e' = capacity e
  /\ match st with
     | Move =>
         exists t, target_floor e' = t
                   /\ current_floor e'
                      = current_floor e + Z.sgn (t - current_floor e)
                   /\ passengers e' = passengers e
     | _ => current_floor e' = current_floor e /\ target_floor e' = target_floor e
     end.

(** The people [update_wait_times] visits, in the order it visits them: the
    passengers of every elevator, then the waiting list of every floor. *)
Definition riders_and_waiters (s : Simulation) : list pid :=
  flat_map passengers (elevators s)
  ++ flat_map (find_list (waiting s)) (Dict.keys (waiting s)).

(** [h'] is a later state of the object store [h]: nobody has disappeared,
    no start or target floor has changed and no waiting time has gone
    down. *)
Definition heap_le (h h' : heap) : Prop :=
  (length h <= length h')%nat
  /\ forall p, (p < length h)%nat ->
       start (deref h' p) = start (deref h p)
       /\ target (deref h' p) = target (deref h p)
       /\ wait_time (deref h p) <= wait_time (deref h' p).

(** Everybody the simulation holds: the people waiting on some floor, the
    passengers of the elevators and the people who completed. *)
Definition people_in_system (s : Simulation) : list pid :=
  flat_map snd (waiting s) ++ flat_map passengers (elevators s) ++ reached_dest s.

(** One Move stage under [EndToEndLoop], for one elevator: the algorithm's
    assignment followed by the step of [move_elevators]. *)
Definition shuttle_step (max_floor : Z) (e : Elevator) : Elevator :=
  move_elevator (EndToEndLoop_elevator max_floor e).

(** The number of Move stages in a sequence of stages. *)
Fixpoint moves_in (sts : list stage) : nat :=
  match sts with
  | [] => O
  | Move :: sts' => S (moves_in sts')
  | _ :: sts' => moves_in sts'
  end.

Definition same_floors (e e' : Elevator) : Prop :=
  current_floor e = current_floor e' /\ target_floor e = target_floor e'.

(** The people a record of the arrivals file describes, as
    [FileArrivals.__init__] creates them. *)
Definition people_of (pairs : list (Z * Z)) : list Person :=
  map (fun sp => mkPerson (fst sp) (snd sp) 0) pairs.

(** The pairs of the last record of the file whose round number is [r],
    when there is one; [acc] is what earlier records gave. *)
Definition last_record (acc : option (list (Z * Z))) (r : Z)
    (lines : list (Z * list (Z * Z))) : option (list (Z * Z)) :=
  fold_left (fun acc line => if fst line =? r then Some (snd line) else acc)
            lines acc.

(** The schedule agrees with the records read so far, and holds only
    people of the store. *)
Definition schedule_of (h : heap) (data : Dict.t (list pid))
    (spec : Z -> option (list (Z * Z))) : Prop :=
  forall r,
    option_map (map (deref h)) (Dict.find data r) = option_map people_of (spec r)
    /\ forall ids, Dict.find data r = Some ids ->
                   Forall (fun p => (p < length h)%nat) ids.

(** The people of [l] exist in the store [h]. *)
Definition valid_ids (h : heap) (l : list pid) : Prop :=
  Forall (fun p => (p < length h)%nat) l.

(** An elevator of a building with [nf] floors: its passengers exist and
    its current and target floor are floors of the building. *)
Definition elevator_ok (nf : Z) (h : heap) (e : Elevator) : Prop :=
  valid_ids h (passengers e)
  /\ 1 <= current_floor e <= nf
  /\ 1 <= target_floor e <= nf.

(** A generator that only sends people to floors of the building:
    [SingleArrivals] with [max_floor] between 2 and the floor count, or
    [FileArrivals] scheduling people of the store. *)
Definition generator_ok (nf : Z) (h : heap) (g : ArrivalGenerator) : Prop :=
  match g with
  | SingleArrivals mf => 2 <= mf <= nf
  | FileArrivals _ data =>
      forall r ids, Dict.find data r = Some ids -> valid_ids h ids
  end.

(** A state of a building with [nf] floors in which every person wants to
    go to a floor of the building. *)
Definition in_building (nf : Z) (w : World) : Prop :=
  Forall (fun x => 1 <= target x <= nf) (fst w)
  /\ generator_ok nf (fst w) (arrival_generator (snd w))
  /\ Forall (elevator_ok nf (fst w)) (elevators (snd w))
  /\ (forall k, valid_ids (fst w) (find_list (waiting (snd w)) k))
  /\ Dict.keys (waiting (snd w)) = floors nf
  /\ num_floors (snd w) = nf.

(** Every person a schedule names starts on a floor of the building. *)
Definition starts_in_building (nf : Z) (h : heap) (data : Dict.t (list pid))
  : Prop :=
  forall r ids p, Dict.find data r = Some ids -> In p ids ->
                  1 <= start (deref h p) <= nf.

(* ================================================================== *)
(** * Properties *)

(** ** Loops *)

Lemma bind_ok {A B : Type} (m : result A) (k : A -> result B) (b : B) :
  bind m k = Ok b -> exists a, m = Ok a /\ k a = Ok b.
Proof.
  destruct m as [a|e]; simpl; intros H; [exists a; auto | discriminate].
Qed.

Lemma for_each_app {A S : Type} (l1 l2 : list A) (body : A -> S -> result S) (s : S) :
  for_each (l1 ++ l2) body s = (s' <- for_each l1 body s ;; for_each l2 body s').
Proof.
  revert s; induction l1 as [|x l1 IH]; intros s; simpl; [reflexivity|].
  destruct (body x s) as [s1|e]; simpl; [apply IH | reflexivity].
Qed.

(** A loop whose body cannot raise is a left fold. *)
Lemma for_each_pure {A S : Type} (l : list A) (body : A -> S -> result S)
    (f : S -> A -> S) (s : S) :
  (forall x s, In x l -> body x s = Ok (f s x)) ->
  for_each l body s = Ok (fold_left f l s).
Proof.
  revert s; induction l as [|x l IH]; intros s Hb; simpl; [reflexivity|].
  rewrite Hb by (left; reflexivity). simpl.
  apply IH. intros y s' Hy. apply Hb. right; exact Hy.
Qed.

(** Loop invariants. *)
Lemma for_each_inv {A S : Type} (P : S -> Prop) (l : list A)
    (body : A -> S -> result S) :
  (forall x s s', In x l -> P s -> body x s = Ok s' -> P s') ->
  forall s s', P s -> for_each l body s = Ok s' -> P s'.
Proof.
  induction l as [|x l IH]; intros Hb s s' Hs H; simpl in H.
  - injection H as <-. exact Hs.
  - apply bind_ok in H. destruct H as (s1 & H1 & H2).
    apply IH with (s := s1); auto.
    + intros y t t' Hy. apply Hb. right; exact Hy.
    + apply Hb with (x := x) (s := s); auto. left; reflexivity.
Qed.

Lemma for_each_total {A S : Type} (P : S -> Prop) (l : list A)
    (body : A -> S -> result S) :
  (forall x s, In x l -> P s -> exists s', body x s = Ok s' /\ P s') ->
  forall s, P s -> exists s', for_each l body s = Ok s' /\ P s'.
Proof.
  induction l as [|x l IH]; intros Hb s Hs; simpl.
  - exists s; auto.
  - destruct (Hb x s (or_introl eq_refl) Hs) as (s1 & H1 & P1).
    rewrite H1; simpl. apply IH; auto.
    intros y t Hy. apply Hb. right; exact Hy.
Qed.

Lemma for_elevators_inv {S : Type} (P : S -> Prop) (Q : Elevator -> Elevator -> Prop)
    (body : Elevator -> S -> result (Elevator * S)) (es : list Elevator) :
  (forall e s e' s', In e es -> P s -> body e s = Ok (e', s') -> Q e e' /\ P s') ->
  forall s es' s', P s -> for_elevators es body s = Ok (es', s') ->
  Forall2 Q es es' /\ P s'.
Proof.
  induction es as [|e es IH]; intros Hb s es' s' Hs H; simpl in H.
  - injection H as <- <-. split; [constructor | exact Hs].
  - apply bind_ok in H. destruct H as ([e1 s1] & H1 & H2).
    apply bind_ok in H2. destruct H2 as ([es2 s2] & H2 & H3).
    injection H3 as <- <-.
    destruct (Hb e s e1 s1 (or_introl eq_refl) Hs H1) as [Q1 P1].
    destruct (IH (fun e0 t e0' t' Hin => Hb e0 t e0' t' (or_intror Hin)) s1 es2 s2 P1 H2)
      as [Q2 P2].
    split; [constructor; assumption | exact P2].
Qed.

Lemma for_elevators_total {S : Type} (P : S -> Prop)
    (body : Elevator -> S -> result (Elevator * S)) (es : list Elevator) :
  (forall e s, In e es -> P s -> exists e' s', body e s = Ok (e', s') /\ P s') ->
  forall s, P s -> exists es' s', for_elevators es body s = Ok (es', s') /\ P s'.
Proof.
  induction es as [|e es IH]; intros Hb s Hs; simpl.
  - exists [], s; auto.
  - destruct (Hb e s (or_introl eq_refl) Hs) as (e1 & s1 & H1 & P1).
    rewrite H1; simpl.
    destruct (IH (fun e0 t Hin => Hb e0 t (or_intror Hin)) s1 P1) as (es2 & s2 & H2 & P2).
    rewrite H2; simpl. exists (e1 :: es2), s2; auto.
Qed.

(** ** Lists *)

Lemma fold_left_max_ge (l : list Z) (x : Z) :
  x <= fold_left Z.max l x /\ forall y, In y l -> y <= fold_left Z.max l x.
Proof.
  revert x; induction l as [|a l IH]; intros x; simpl.
  - split; [lia | contradiction].
  - destruct (IH (Z.max x a)) as [H1 H2]. split; [lia|].
    intros y [<-|Hy]; [lia | auto].
Qed.

Lemma fold_left_max_in (l : list Z) (x : Z) :
  fold_left Z.max l x = x \/ In (fold_left Z.max l x) l.
Proof.
  revert x; induction l as [|a l IH]; intros x; simpl; [left; reflexivity|].
  destruct (IH (Z.max x a)) as [H|H].
  - rewrite H. destruct (Z.max_spec x a) as [[_ ->]|[_ ->]]; auto.
  - right; right; exact H.
Qed.

Lemma max_spec (l : list Z) :
  l <> [] ->
  exists m, PyList.max l = Ok m /\ In m l /\ forall y, In y l -> y <= m.
Proof.
  destruct l as [|x l]; [congruence|]. intros _.
  exists (fold_left Z.max l x). split; [reflexivity|].
  destruct (fold_left_max_ge l x) as [H1 H2]. split.
  - destruct (fold_left_max_in l x) as [->|H]; [left; reflexivity | right; exact H].
  - intros y [<-|Hy]; auto.
Qed.

Lemma fold_left_min_repeat (t : Z) (k : nat) :
  fold_left Z.min (repeat t k) t = t.
Proof.
  induction k as [|k IH]; simpl; [reflexivity|].
  rewrite Z.min_id. exact IH.
Qed.

Lemma index_spec (x : Z) (l : list Z) :
  In x l ->
  exists i, PyList.index x l = Ok i /\ nth_error l i = Some x
            /\ forall j, (j < i)%nat -> nth_error l j <> Some x.
Proof.
  induction l as [|y l IH]; intros Hin; [contradiction|]. simpl.
  destruct (Z.eqb_spec x y) as [->|Hne].
  - exists O. split; [reflexivity|]. split; [reflexivity|]. intros j Hj; lia.
  - destruct Hin as [->|Hin]; [congruence|].
    destruct (IH Hin) as (i & Hi & Hn & Hf). rewrite Hi; simpl.
    exists (S i). split; [reflexivity|]. split; [exact Hn|].
    intros [|j] Hj; simpl; [congruence | apply Hf; lia].
Qed.

(** The index loop collects the position of the first maximum once for
    every maximal entry. *)
Lemma note_loop (m : Z) (i : nat) (dist : list Z) :
  PyList.index m dist = Ok i ->
  forall (l : list Z) (note : list nat),
    for_each l
      (fun d note =>
         if m =? d then i <- PyList.index d dist ;; Ok (note ++ [i]) else Ok note)
      note
    = Ok (note ++ repeat i (length (filter (Z.eqb m) l))).
Proof.
  intros Hi l; induction l as [|d l IH]; intros note; simpl.
  - rewrite app_nil_r; reflexivity.
  - destruct (Z.eqb_spec m d) as [<-|Hne]; simpl.
    + rewrite Hi; simpl. rewrite IH, <- app_assoc. reflexivity.
    + apply IH.
Qed.

Lemma floor_loop (floors : list Z) (i : nat) (t : Z) :
  nth_error floors i = Some t ->
  forall (k : nat) (acc : list Z),
    for_each (repeat i k)
      (fun index_max_dist list_floor =>
         fl <- PyList.getitem floors index_max_dist ;; Ok (list_floor ++ [fl]))
      acc
    = Ok (acc ++ repeat t k).
Proof.
  intros Hn k; induction k as [|k IH]; intros acc; simpl.
  - rewrite app_nil_r; reflexivity.
  - unfold PyList.getitem at 1. rewrite Hn; simpl.
    rewrite IH, <- app_assoc. reflexivity.
Qed.

Lemma filter_length_pos (m : Z) (l : list Z) :
  In m l -> exists k, length (filter (Z.eqb m) l) = S k.
Proof.
  induction l as [|d l IH]; intros Hin; [contradiction|]. simpl.
  destruct (Z.eqb_spec m d) as [<-|Hne].
  - eexists; reflexivity.
  - destruct Hin as [->|Hin]; [congruence | auto].
Qed.

(** What [furthest_select] computes: the entry of [floors] at the position
    of the first maximal distance. *)
Lemma furthest_select_spec (dist floors : list Z) :
  dist <> [] -> length floors = length dist ->
  exists (i : nat) (t m : Z),
    furthest_select dist floors = Ok t
    /\ nth_error floors i = Some t
    /\ nth_error dist i = Some m
    /\ (forall d, In d dist -> d <= m)
    /\ (forall j, (j < i)%nat -> nth_error dist j <> Some m).
Proof.
  intros Hne Hlen.
  destruct (max_spec dist Hne) as (m & Hmax & Hin & Hge).
  destruct (index_spec m dist Hin) as (i & Hi & Hn & Hfirst).
  assert (Hlt : (i < length floors)%nat).
  { rewrite Hlen. apply nth_error_Some. congruence. }
  destruct (nth_error floors i) as [t|] eqn:Ht;
    [| apply nth_error_None in Ht; lia].
  exists i, t, m. unfold furthest_select. rewrite Hmax; simpl.
  rewrite (note_loop m i dist Hi); simpl.
  destruct (filter_length_pos m dist Hin) as (k & Hk). rewrite Hk.
  rewrite (floor_loop floors i t Ht); simpl.
  rewrite fold_left_min_repeat. auto.
Qed.

(** ** Dicts *)

Lemma find_keys {V : Type} (d : Dict.t V) (k : Z) :
  In k (Dict.keys d) <-> exists v, Dict.find d k = Some v.
Proof.
  induction d as [|[k' v'] d IH]; simpl.
  - split; [contradiction | intros (v & H); discriminate].
  - destruct (Z.eqb_spec k k') as [->|Hne].
    + split; [intros _; eexists; reflexivity | intros _; left; reflexivity].
    + rewrite <- IH. split; [intros [H|H]; [congruence | exact H] | auto].
Qed.

Lemma get_find {V : Type} (d : Dict.t V) (k : Z) (v : V) :
  Dict.find d k = Some v -> Dict.get d k = Ok v.
Proof. intros H; unfold Dict.get; rewrite H; reflexivity. Qed.

Lemma get_ok {V : Type} (d : Dict.t V) (k : Z) (v : V) :
  Dict.get d k = Ok v -> Dict.find d k = Some v.
Proof.
  unfold Dict.get; destruct (Dict.find d k); intros H;
    [injection H as ->; reflexivity | discriminate].
Qed.

Lemma find_set_same {V : Type} (d : Dict.t V) (k : Z) (v : V) :
  Dict.find (Dict.set d k v) k = Some v.
Proof.
  induction d as [|[k' v'] d IH]; simpl.
  - rewrite Z.eqb_refl; reflexivity.
  - destruct (Z.eqb_spec k k') as [->|Hne]; simpl.
    + rewrite Z.eqb_refl; reflexivity.
    + destruct (Z.eqb_spec k k'); [contradiction | exact IH].
Qed.

Lemma find_set_other {V : Type} (d : Dict.t V) (k k0 : Z) (v : V) :
  k0 <> k -> Dict.find (Dict.set d k v) k0 = Dict.find d k0.
Proof.
  intros Hne; induction d as [|[k' v'] d IH]; simpl.
  - destruct (Z.eqb_spec k0 k); [contradiction | reflexivity].
  - destruct (Z.eqb_spec k k') as [->|Hk]; simpl.
    + destruct (Z.eqb_spec k0 k'); [contradiction | reflexivity].
    + destruct (Z.eqb_spec k0 k'); [reflexivity | exact IH].
Qed.

Lemma keys_set_old {V : Type} (d : Dict.t V) (k : Z) (v : V) :
  In k (Dict.keys d) -> Dict.keys (Dict.set d k v) = Dict.keys d.
Proof.
  induction d as [|[k' v'] d IH]; simpl; [contradiction|].
  destruct (Z.eqb_spec k k') as [->|Hne]; simpl; [reflexivity|].
  intros [H|H]; [congruence | rewrite IH; auto].
Qed.

Lemma keys_set_new {V : Type} (d : Dict.t V) (k : Z) (v : V) :
  ~ In k (Dict.keys d) -> Dict.keys (Dict.set d k v) = Dict.keys d ++ [k].
Proof.
  induction d as [|[k' v'] d IH]; simpl; [reflexivity|].
  intros Hn. destruct (Z.eqb_spec k k') as [->|Hne]; simpl.
  - exfalso; apply Hn; left; reflexivity.
  - rewrite IH; auto.
Qed.

Lemma fold_left_filter {A : Type} (g : A -> bool) (l acc : list A) :
  fold_left (fun s x => if g x then s ++ [x] else s) l acc = acc ++ filter g l.
Proof.
  revert acc; induction l as [|x l IH]; intros acc; simpl.
  - rewrite app_nil_r; reflexivity.
  - rewrite IH. destruct (g x); [rewrite <- app_assoc|]; reflexivity.
Qed.

(** ** The moving algorithms *)

Lemma len_zero {A : Type} (l : list A) : (PyList.len l =? 0) = true <-> l = [].
Proof.
  unfold PyList.len. destruct l; simpl; split; intros H; try reflexivity;
    try discriminate.
Qed.

Lemma nonempty_at_spec (waiting : Dict.t (list pid)) (fl : Z) :
  nonempty_at waiting fl = true <-> has_waiting waiting fl.
Proof.
  unfold nonempty_at, has_waiting. destruct (Dict.find waiting fl) as [l|].
  - rewrite negb_true_iff. split.
    + intros H. exists l. split; [reflexivity|]. intros ->. discriminate.
    + intros (l' & Hl & Hne). injection Hl as <-.
      destruct (PyList.len l =? 0) eqn:E; [|reflexivity].
      apply len_zero in E. contradiction.
  - split; [discriminate | intros (l & H & _); discriminate].
Qed.

Lemma waiting_floors_spec (waiting : Dict.t (list pid)) :
  waiting_floors waiting = Ok (filter (nonempty_at waiting) (Dict.keys waiting)).
Proof.
  unfold waiting_floors.
  rewrite for_each_pure
    with (f := fun s x => if nonempty_at waiting x then s ++ [x] else s).
  - rewrite fold_left_filter. reflexivity.
  - intros x s Hx. apply find_keys in Hx. destruct Hx as (l & Hl).
    unfold nonempty_at. rewrite (get_find _ _ _ Hl), Hl. simpl.
    destruct (negb (PyList.len l =? 0)); reflexivity.
Qed.

Lemma set_target_floor_eta (e : Elevator) : set_target_floor e (target_floor e) = e.
Proof. destruct e; reflexivity. Qed.

(** [FurthestFloor] never raises, and what it returns is the elevator it
    was given with a new target floor. *)
Lemma FurthestFloor_elevator_total (h : heap) (waiting : Dict.t (list pid))
    (e : Elevator) :
  exists t, FurthestFloor_elevator h waiting e = Ok (set_target_floor e t).
Proof.
  unfold FurthestFloor_elevator.
  destruct (negb (PyList.len (passengers e) =? 0)) eqn:Hp.
  - apply negb_true_iff in Hp.
    assert (Hne : passengers e <> []).
    { intros H. apply len_zero in H. congruence. }
    destruct (furthest_select_spec
                (map (fun p => Z.abs (current_floor e - target (deref h p))) (passengers e))
                (map (fun p => target (deref h p)) (passengers e)))
      as (i & t & m & Hs & _).
    + destruct (passengers e); [congruence | discriminate].
    + rewrite !length_map; reflexivity.
    + exists t. rewrite Hs. reflexivity.
  - destruct (target_floor e =? current_floor e).
    + rewrite waiting_floors_spec. simpl.
      destruct (PyList.len (filter (nonempty_at waiting) (Dict.keys waiting)) =? 0) eqn:Hf.
      * eexists; reflexivity.
      * destruct (furthest_select_spec
                    (map (fun item => Z.abs (item - current_floor e))
                         (filter (nonempty_at waiting) (Dict.keys waiting)))
                    (filter (nonempty_at waiting) (Dict.keys waiting)))
          as (i & t & m & Hs & _).
        -- destruct (filter (nonempty_at waiting) (Dict.keys waiting));
             [discriminate Hf | discriminate].
        -- rewrite length_map; reflexivity.
        -- exists t. rewrite Hs. reflexivity.
    + exists (target_floor e). rewrite set_target_floor_eta. reflexivity.
Qed.

Lemma EndToEndLoop_elevator_retargeted (max_floor : Z) (e : Elevator) :
  retargeted e (EndToEndLoop_elevator max_floor e).
Proof.
  unfold EndToEndLoop_elevator, retargeted.
  destruct (current_floor e =? 1); [eexists; reflexivity|].
  destruct (current_floor e =? max_floor); [eexists; reflexivity|].
  exists (target_floor e). symmetry; apply set_target_floor_eta.
Qed.

Lemma FurthestFloor_loop (h : heap) (waiting : Dict.t (list pid)) (es : list Elevator) :
  exists es',
    for_elevators es
      (fun e (_ : unit) => e' <- FurthestFloor_elevator h waiting e ;; Ok (e', tt)) tt
    = Ok (es', tt)
    /\ Forall2 (fun e e' => FurthestFloor_elevator h waiting e = Ok e') es es'.
Proof.
  induction es as [|e es (es' & IH & HF)]; simpl.
  - exists []. split; [reflexivity | constructor].
  - destruct (FurthestFloor_elevator_total h waiting e) as (t & Ht).
    rewrite Ht; simpl. rewrite IH; simpl.
    exists (set_target_floor e t :: es'). split; [reflexivity|].
    constructor; assumption.
Qed.

Lemma update_target_floors_total (alg : MovingAlgorithm) (h : heap)
    (es : list Elevator) (waiting : Dict.t (list pid)) (max_floor : Z) :
  exists es',
    update_target_floors alg h es waiting max_floor = Ok es'
    /\ Forall2 retargeted es es'.
Proof.
  destruct alg; simpl.
  - eexists; split; [reflexivity|].
    induction es as [|e es IH]; simpl; constructor;
      [apply EndToEndLoop_elevator_retargeted | exact IH].
  - destruct (FurthestFloor_loop h waiting es) as (es' & H & HF).
    rewrite H; simpl. exists es'. split; [reflexivity|].
    clear H. induction HF as [|e e' es es' He HF IH]; constructor; [|exact IH].
    destruct (FurthestFloor_elevator_total h waiting e) as (t & Ht).
    exists t. congruence.
Qed.

Lemma retargeted_fields (es es' : list Elevator) :
  Forall2 retargeted es es' ->
  map capacity es' = map capacity es
  /\ map current_floor es' = map current_floor es
  /\ map passengers es' = map passengers es.
Proof.
  induction 1 as [|e e' es es' (t & ->) HF (IH1 & IH2 & IH3)]; simpl.
  - auto.
  - rewrite IH1, IH2, IH3. auto.
Qed.

Lemma Forall_filter_keep {A : Type} (P : A -> Prop) (g : A -> bool) (l : list A) :
  Forall P l -> Forall P (filter g l).
Proof.
  induction 1 as [|x l Hx HF IH]; simpl; [constructor|].
  destruct (g x); [constructor; assumption | exact IH].
Qed.

Lemma sorted_filter (g : Z -> bool) (l : list Z) :
  StronglySorted Z.lt l -> StronglySorted Z.lt (filter g l).
Proof.
  induction 1 as [|x l HS IH HF]; simpl; [constructor|].
  destruct (g x); [|exact IH].
  constructor; [exact IH | apply Forall_filter_keep; exact HF].
Qed.

Lemma sorted_nth_lt (l : list Z) :
  StronglySorted Z.lt l ->
  forall (i j : nat) (a b : Z),
    nth_error l i = Some a -> nth_error l j = Some b -> (i < j)%nat -> a < b.
Proof.
  induction 1 as [|x l HS IH HF]; intros i j a b Hi Hj Hlt.
  - destruct i; discriminate.
  - destruct j as [|j]; [lia|]. simpl in Hj. destruct i as [|i]; simpl in Hi.
    + injection Hi as <-. rewrite Forall_forall in HF. apply HF.
      eapply nth_error_In; eauto.
    + eapply IH; eauto. lia.
Qed.

(** With passengers on board the code sets the target of the first
    passenger, in boarding order, among those farthest away. *)
Lemma FurthestFloor_passengers_first (h : heap) (waiting : Dict.t (list pid))
    (e : Elevator) :
  passengers e <> [] ->
  exists (i : nat) (p : pid),
    FurthestFloor_elevator h waiting e = Ok (set_target_floor e (target (deref h p)))
    /\ nth_error (passengers e) i = Some p
    /\ (forall q, In q (passengers e) ->
          Z.abs (current_floor e - target (deref h q))
          <= Z.abs (current_floor e - target (deref h p)))
    /\ (forall j q, (j < i)%nat -> nth_error (passengers e) j = Some q ->
          Z.abs (current_floor e - target (deref h q))
          < Z.abs (current_floor e - target (deref h p))).
Proof.
  intros Hne. unfold FurthestFloor_elevator.
  assert (Hp : negb (PyList.len (passengers e) =? 0) = true).
  { apply negb_true_iff. destruct (PyList.len (passengers e) =? 0) eqn:E; auto.
    apply len_zero in E. contradiction. }
  rewrite Hp.
  set (dist := map (fun p => Z.abs (current_floor e - target (deref h p))) (passengers e)).
  set (floors := map (fun p => target (deref h p)) (passengers e)).
  destruct (furthest_select_spec dist floors) as (i & t & m & Hs & Hfl & Hd & Hge & Hfirst).
  - unfold dist. destruct (passengers e); [congruence | discriminate].
  - unfold dist, floors. rewrite !length_map. reflexivity.
  - unfold floors in Hfl. unfold dist in Hd.
    rewrite nth_error_map in Hfl, Hd.
    destruct (nth_error (passengers e) i) as [p|] eqn:Hp'; [|discriminate].
    simpl in Hfl, Hd. injection Hfl as <-. injection Hd as <-.
    exists i, p. rewrite Hs. simpl. split; [reflexivity|]. split; [exact Hp'|].
    split.
    + intros q Hq. apply Hge. unfold dist.
      apply in_map with (f := fun p => Z.abs (current_floor e - target (deref h p))).
      exact Hq.
    + intros j q Hj Hq.
      assert (Hle : Z.abs (current_floor e - target (deref h q))
                    <= Z.abs (current_floor e - target (deref h p))).
      { apply Hge. unfold dist.
        apply in_map with (f := fun p => Z.abs (current_floor e - target (deref h p))).
        eapply nth_error_In; eauto. }
      assert (Hneq : nth_error dist j
                     <> Some (Z.abs (current_floor e - target (deref h p))))
        by (apply Hfirst; exact Hj).
      unfold dist in Hneq. rewrite nth_error_map, Hq in Hneq. simpl in Hneq.
      assert (Z.abs (current_floor e - target (deref h q))
              <> Z.abs (current_floor e - target (deref h p))) by congruence.
      lia.
Qed.

(** With nobody on board, an idle elevator and somebody waiting, the code
    sets the waiting floor at the first maximal distance in the iteration
    order of the waiting table; on a table whose keys ascend that is the
    lowest of the farthest floors. *)
Lemma FurthestFloor_idle_farthest (h : heap) (waiting : Dict.t (list pid))
    (e : Elevator) :
  passengers e = [] -> target_floor e = current_floor e ->
  StronglySorted Z.lt (Dict.keys waiting) ->
  (exists fl, has_waiting waiting fl) ->
  exists t,
    FurthestFloor_elevator h waiting e = Ok (set_target_floor e t)
    /\ lowest_farthest waiting (current_floor e) t.
Proof.
  intros Hp Hidle Hsorted (fl & Hfl).
  unfold FurthestFloor_elevator. rewrite Hp. simpl.
  rewrite Hidle, Z.eqb_refl, waiting_floors_spec. simpl.
  set (f := filter (nonempty_at waiting) (Dict.keys waiting)).
  assert (Hmem : forall g, In g f <-> has_waiting waiting g).
  { intros g. unfold f. rewrite filter_In, nonempty_at_spec. split.
    - intros [_ H]; exact H.
    - intros H. split; [|exact H]. destruct H as (l & Hl & _).
      apply find_keys. exists l; exact Hl. }
  assert (Hf : (PyList.len f =? 0) = false).
  { destruct (PyList.len f =? 0) eqn:E; [|reflexivity].
    apply len_zero in E. apply Hmem in Hfl. rewrite E in Hfl. contradiction. }
  rewrite Hf.
  set (dist := map (fun item => Z.abs (item - current_floor e)) f).
  destruct (furthest_select_spec dist f) as (i & t & m & Hs & Ht & Hd & Hge & Hfirst).
  - unfold dist. destruct f; [discriminate Hf | discriminate].
  - unfold dist. rewrite length_map. reflexivity.
  - exists t. rewrite Hs. simpl. split; [reflexivity|]. unfold lowest_farthest.
    unfold dist in Hd. rewrite nth_error_map, Ht in Hd. simpl in Hd.
    injection Hd as <-.
    split; [apply Hmem; eapply nth_error_In; eauto|].
    intros g Hg. apply Hmem in Hg. split.
    + apply Hge. unfold dist.
      apply in_map with (f := fun item => Z.abs (item - current_floor e)). exact Hg.
    + intros Heq. apply In_nth_error in Hg. destruct Hg as (j & Hj).
      destruct (Nat.lt_ge_cases j i) as [Hlt|Hle].
      * exfalso. apply (Hfirst j Hlt). unfold dist.
        rewrite nth_error_map, Hj. simpl. congruence.
      * destruct (Nat.eq_dec i j) as [->|Hij]; [rewrite Hj in Ht; injection Ht; lia|].
        assert (t < g); [|lia].
        apply (sorted_nth_lt f (sorted_filter _ _ Hsorted) i j); auto. lia.
Qed.

Lemma FurthestFloor_empty_rule (h : heap) (waiting : Dict.t (list pid))
    (e e' : Elevator) :
  StronglySorted Z.lt (Dict.keys waiting) ->
  passengers e = [] ->
  FurthestFloor_elevator h waiting e = Ok e' ->
  empty_elevator_rule waiting e e'.
Proof.
  intros Hsorted Hp He. unfold empty_elevator_rule.
  split; [|split].
  - destruct (FurthestFloor_elevator_total h waiting e) as (t & Ht).
    exists t. congruence.
  - intros Hne. unfold FurthestFloor_elevator in He. rewrite Hp in He. simpl in He.
    destruct (Z.eqb_spec (target_floor e) (current_floor e)); [contradiction|].
    injection He as <-. reflexivity.
  - intros Hidle. split.
    + intros Hnone. unfold FurthestFloor_elevator in He. rewrite Hp in He.
      simpl in He. rewrite Hidle, Z.eqb_refl, waiting_floors_spec in He. simpl in He.
      destruct (filter (nonempty_at waiting) (Dict.keys waiting)) as [|fl f] eqn:Hf.
      * simpl in He. injection He as <-. reflexivity.
      * exfalso. apply (Hnone fl). apply nonempty_at_spec.
        assert (Hin : In fl (filter (nonempty_at waiting) (Dict.keys waiting)))
          by (rewrite Hf; left; reflexivity).
        apply filter_In in Hin. apply Hin.
    + intros Hsome.
      destruct (FurthestFloor_idle_farthest h waiting e Hp Hidle Hsorted Hsome)
        as (t & Ht & Hlf).
      rewrite Ht in He. injection He as <-. exact Hlf.
Qed.

(** ** The arrival generators *)

Lemma deref_new (h : heap) (x : Person) : deref (h ++ [x]) (length h) = x.
Proof. unfold deref. rewrite nth_middle. reflexivity. Qed.

Lemma deref_old (h : heap) (x : Person) (q : pid) :
  (q < length h)%nat -> deref (h ++ [x]) q = deref h q.
Proof. intros Hq. unfold deref. apply app_nth1. exact Hq. Qed.

Lemma group_person_find (h : heap) (dic : Dict.t (list pid)) (p : pid) (k : Z) :
  find_list (group_person h dic p) k
  = find_list dic k ++ (if start (deref h p) =? k then [p] else []).
Proof.
  unfold group_person, find_list.
  destruct (Z.eqb_spec (start (deref h p)) k) as [->|Hne].
  - destruct (Dict.find dic k) as [l|]; rewrite find_set_same; reflexivity.
  - destruct (Dict.find dic (start (deref h p)));
      rewrite find_set_other by congruence; rewrite app_nil_r; reflexivity.
Qed.

Lemma group_person_keys (h : heap) (dic : Dict.t (list pid)) (p : pid) :
  Dict.wf dic ->
  Dict.wf (group_person h dic p)
  /\ forall k, In k (Dict.keys (group_person h dic p))
               <-> In k (Dict.keys dic) \/ k = start (deref h p).
Proof.
  intros Hwf. unfold group_person, Dict.wf.
  destruct (Dict.find dic (start (deref h p))) as [l|] eqn:Hf.
  - assert (Hin : In (start (deref h p)) (Dict.keys dic))
      by (apply find_keys; eauto).
    rewrite keys_set_old by exact Hin. split; [exact Hwf|].
    intros k. split; [auto | intros [H| ->]; assumption].
  - assert (Hn : ~ In (start (deref h p)) (Dict.keys dic)).
    { intros H. apply find_keys in H. destruct H as (v & Hv). congruence. }
    rewrite keys_set_new by exact Hn. split.
    + apply NoDup_app; [exact Hwf | repeat constructor; simpl; tauto|].
      intros a Ha [<-|[]]. contradiction.
    + intros k. rewrite in_app_iff. simpl. intuition.
Qed.

Lemma group_fold (h : heap) (people : list pid) :
  forall dic : Dict.t (list pid),
    Dict.wf dic ->
    let dic' := fold_left (group_person h) people dic in
    Dict.wf dic'
    /\ (forall k, find_list dic' k = find_list dic k ++ group_of h people k)
    /\ (forall k, In k (Dict.keys dic')
                  <-> In k (Dict.keys dic) \/ group_of h people k <> []).
Proof.
  induction people as [|p people IH]; intros dic Hwf; simpl.
  - split; [exact Hwf|]. split.
    + intros k. rewrite app_nil_r. reflexivity.
    + intros k. unfold group_of; simpl. intuition.
  - destruct (group_person_keys h dic p Hwf) as [Hwf1 Hk1].
    destruct (IH _ Hwf1) as (Hwf' & Hfind & Hkeys).
    split; [exact Hwf'|]. split.
    + intros k. rewrite Hfind, group_person_find, <- app_assoc.
      unfold group_of; simpl. destruct (start (deref h p) =? k); reflexivity.
    + intros k. rewrite Hkeys, Hk1. unfold group_of; simpl.
      destruct (Z.eqb_spec (start (deref h p)) k) as [->|Hne].
      * split; [intros _; right; discriminate | intros _; left; right; reflexivity].
      * split; [intros [[H|H]|H]; [auto | congruence | auto] | intros [H|H]; auto].
Qed.

(** ** Statistics *)

Lemma fold_left_snoc_map {A B : Type} (f : A -> B) (l : list A) (acc : list B) :
  fold_left (fun wt p => wt ++ [f p]) l acc = acc ++ map f l.
Proof.
  revert acc; induction l as [|x l IH]; intros acc; simpl.
  - rewrite app_nil_r; reflexivity.
  - rewrite IH, <- app_assoc. reflexivity.
Qed.

Lemma range_length (n : Z) : length (range n) = Z.to_nat n.
Proof. unfold range. rewrite length_map, length_seq. reflexivity. Qed.

(** ** The binary64 quotient *)

Lemma pow2_pos (k : Z) : 0 < pow2 k.
Proof. unfold pow2. apply Z.pow_pos_nonneg; lia. Qed.

Lemma pow2_nonpos (k : Z) : k <= 0 -> pow2 k = 1.
Proof. intros H. unfold pow2. rewrite Z.max_l by lia. reflexivity. Qed.

Lemma pow2_nonneg (k : Z) : 0 <= k -> pow2 k = 2 ^ k.
Proof. intros H. unfold pow2. rewrite Z.max_r by lia. reflexivity. Qed.

Lemma binary_exponent_spec (n d : Z) :
  0 < n -> 0 < d ->
  let e := binary_exponent n d in
  d * pow2 e <= n * pow2 (- e) /\ e <= Z.log2 n.
Proof.
  intros Hn Hd. unfold binary_exponent.
  set (e0 := Z.log2 n - Z.log2 d).
  pose proof (Z.log2_nonneg d) as Hld.
  destruct (Z.leb_spec (d * pow2 e0) (n * pow2 (- e0))) as [Hle|Hgt]; cbv zeta.
  - split; [exact Hle | lia].
  - split; [|lia].
    destruct (Z.log2_spec n Hn) as [Hn1 _].
    destruct (Z.log2_spec d Hd) as [_ Hd2].
    pose proof (Z.log2_nonneg n) as Hln.
    destruct (Z_le_gt_dec 1 e0) as [He|He].
    + rewrite (pow2_nonneg (e0 - 1)) by lia. rewrite (pow2_nonpos (- (e0 - 1))) by lia.
      apply Z.le_trans with (2 ^ Z.succ (Z.log2 d) * 2 ^ (e0 - 1)).
      * apply Z.mul_le_mono_nonneg_r; [apply Z.pow_nonneg; lia | lia].
      * rewrite <- Z.pow_add_r by lia.
        replace (Z.succ (Z.log2 d) + (e0 - 1)) with (Z.log2 n) by (unfold e0; lia). lia.
    + rewrite (pow2_nonpos (e0 - 1)) by lia. rewrite (pow2_nonneg (- (e0 - 1))) by lia.
      apply Z.le_trans with (2 ^ Z.log2 n * 2 ^ (- (e0 - 1))).
      * rewrite <- Z.pow_add_r by lia.
        replace (Z.log2 n + - (e0 - 1)) with (Z.succ (Z.log2 d)) by (unfold e0; lia). lia.
      * apply Z.mul_le_mono_nonneg_r; [apply Z.pow_nonneg; lia | lia].
Qed.

Lemma round_half_even_cases (n d : Z) :
  0 < d ->
  round_half_even n d = n / d
  \/ (round_half_even n d = n / d + 1 /\ d <= 2 * (n mod d)).
Proof.
  intros Hd. unfold round_half_even.
  destruct (Z.ltb_spec (2 * (n mod d)) d); [left; reflexivity|].
  destruct (Z.ltb_spec d (2 * (n mod d))); [right; split; [reflexivity | lia]|].
  destruct (Z.even (n / d)); [left; reflexivity | right; split; [reflexivity | lia]].
Qed.

(** Rounding [n * S / d] to the nearest integer does not reach the next
    multiple of [S] as long as [d < 2 * S]. *)
Lemma round_scaled_div (n d S : Z) :
  0 <= n -> 0 < d -> 0 < S -> d < 2 * S ->
  round_half_even (n * S) d / S = n / d.
Proof.
  intros Hn Hd HS HdS.
  pose proof (Z.div_mod n d ltac:(lia)) as En.
  pose proof (Z.mod_pos_bound n d Hd) as HR.
  pose proof (Z.div_mod (n * S) d ltac:(lia)) as Ex.
  pose proof (Z.mod_pos_bound (n * S) d Hd) as Hr.
  set (Q := n / d) in *. set (R := n mod d) in *.
  set (q := n * S / d) in *. set (r := (n * S) mod d) in *.
  assert (Hq1 : Q * S <= q).
  { apply Z.div_le_lower_bound; [exact Hd|]. nia. }
  assert (Hq2 : q < (Q + 1) * S).
  { apply Z.div_lt_upper_bound; [exact Hd|]. nia. }
  symmetry. apply Z.div_unique_pos with (r := round_half_even (n * S) d - Q * S); [|lia].
  destruct (round_half_even_cases (n * S) d Hd) as [E|[E Hhalf]];
    fold q in E; rewrite E.
  - lia.
  - fold r in Hhalf. split; [lia|].
    assert (q + 1 < (Q + 1) * S); [|lia].
    destruct (Z_lt_ge_dec (q + 1) ((Q + 1) * S)) as [|Hge]; [assumption|exfalso].
    assert (Eq : q = (Q + 1) * S - 1) by lia.
    assert (H1 : 2 * (n * S) >= d * (2 * q + 1)) by lia.
    assert (H2 : n * S <= (d * (Q + 1) - 1) * S) by nia.
    rewrite Eq in H1. nia.
Qed.

(** A quotient below a half vanishes after rounding and truncating. *)
Lemma round_scaled_small (n d S : Z) :
  0 <= n -> 0 < d -> 2 <= S -> 2 * n * S < d * S ->
  round_half_even (n * S) d / S = 0.
Proof.
  intros Hn Hd HS Hsmall.
  pose proof (Z.div_mod (n * S) d ltac:(lia)) as Ex.
  pose proof (Z.mod_pos_bound (n * S) d Hd) as Hr.
  assert (Hq0 : 0 <= n * S / d) by (apply Z.div_pos; nia).
  apply Z.div_small.
  destruct (round_half_even_cases (n * S) d Hd) as [E|[E Hhalf]]; rewrite E.
  - split; [lia|]. apply Z.div_lt_upper_bound; [exact Hd|]. nia.
  - split; [lia|].
    assert (n * S / d < S - 1); [|lia].
    apply Z.div_lt_upper_bound; [exact Hd|]. nia.
Qed.

Lemma binary64_trunc_exact (n d : Z) :
  0 < n < 2 ^ 53 -> 0 < d -> binary64_trunc n d = n / d.
Proof.
  intros [Hn Hn53] Hd. unfold binary64_trunc.
  destruct (binary_exponent_spec n d Hn Hd) as [He Hle].
  set (e := binary_exponent n d) in *.
  assert (He52 : e <= 52).
  { assert (Z.log2 n < 53) by (apply Z.log2_lt_pow2; lia). lia. }
  set (k := Z.max e (-1022) - 52).
  assert (Hk : k <= 0) by lia.
  rewrite (pow2_nonpos k Hk), (pow2_nonneg (- k)) by lia.
  rewrite !Z.mul_1_r.
  assert (HS : 0 < 2 ^ (- k)) by (apply Z.pow_pos_nonneg; lia).
  destruct (Z_lt_ge_dec d (2 * 2 ^ (- k))) as [Hlt|Hge].
  - apply round_scaled_div; lia.
  - (* only a quotient below the normal range gets here *)
    assert (Hclamp : e < -1022).
    { destruct (Z_lt_ge_dec e (-1022)) as [|Hge']; [assumption|exfalso].
      assert (Ek : - k = 52 - e) by lia. rewrite Ek in Hge.
      destruct (Z_le_gt_dec 0 e) as [H0|H0].
      - rewrite (pow2_nonneg e H0), (pow2_nonpos (- e)) in He by lia.
        assert (2 ^ 53 <= d * 2 ^ e); [|lia].
        replace 53 with (1 + (52 - e) + e) by lia.
        rewrite !Z.pow_add_r by lia. change (2 ^ 1) with 2.
        apply Z.mul_le_mono_nonneg_r; [apply Z.pow_nonneg; lia | lia].
      - rewrite (pow2_nonpos e), (pow2_nonneg (- e)) in He by lia.
        assert (n * 2 ^ (- e) < 2 ^ 53 * 2 ^ (- e)).
        { apply Z.mul_lt_mono_pos_r; [apply Z.pow_pos_nonneg; lia | lia]. }
        assert (2 * 2 ^ (52 - e) = 2 ^ 53 * 2 ^ (- e)); [|lia].
        replace (52 - e) with (52 + - e) by lia.
        rewrite Z.pow_add_r by lia. change (2 ^ 53) with (2 * 2 ^ 52). ring. }
    assert (Ek : - k = 1074) by lia. rewrite Ek in *.
    rewrite round_scaled_small by lia.
    symmetry. apply Z.div_small. split; [lia|].
    assert (2 ^ 53 < 2 * 2 ^ 1074); [|lia].
    change (2 * 2 ^ 1074) with (2 ^ 1075). apply Z.pow_lt_mono_r; lia.
Qed.

(** Beyond 2^53 the rounding shows: odd numbers are not binary64 numbers,
    and a tie goes to the even significand. *)
Lemma int_truediv_rounds :
  int_truediv 7 2 = Ok 3
  /\ int_truediv (-7) 2 = Ok (-3)
  /\ int_truediv (2 ^ 53 + 1) 1 = Ok (2 ^ 53)
  /\ int_truediv (2 ^ 53 + 3) 1 = Ok (2 ^ 53 + 4)
  /\ int_truediv (2 ^ 54 + 2) 3 = Ok 6004799503160662
  /\ int_truediv 5 0 = Raise ZeroDivisionError.
Proof. repeat split; vm_compute; reflexivity. Qed.

(** Below 2^53 the binary64 quotient has the integer part of the exact one:
    [int(a / b)] is the truncated quotient. *)
Lemma int_truediv_exact (a b : Z) :
  Z.abs a < 2 ^ 53 -> 0 < b -> int_truediv a b = Ok (Z.quot a b).
Proof.
  intros Ha Hb. unfold int_truediv.
  destruct (Z.eqb_spec b 0) as [->|Hb0]; [lia|]. f_equal.
  rewrite (Z.quot_div a b Hb0).
  destruct (Z.eq_dec a 0) as [->|Ha0]; [reflexivity|].
  rewrite binary64_trunc_exact by lia. reflexivity.
Qed.

(** [_calculate_stats] never raises; the shape of what it returns. *)
Lemma calculate_stats_shape (h : heap) (s : Simulation) (num_rounds : Z) :
  let wait_times := map (fun p => wait_time (deref h p)) (reached_dest s) in
  exists max_time avg_time,
    _calculate_stats (h, s) num_rounds
    = Ok [("num_rounds"%string, num_rounds);
          ("total_people"%string, PyList.len (total_people s));
          ("people_completed"%string, PyList.len (reached_dest s));
          ("max_time"%string, max_time);
          ("avg_time"%string, avg_time)]
    /\ match reached_dest s with
       | [] => max_time = -1 /\ avg_time = -1
       | _ :: _ =>
           In max_time wait_times
           /\ (forall t, In t wait_times -> t <= max_time)
           /\ int_truediv (PyList.sum wait_times) (PyList.len (reached_dest s))
              = Ok avg_time
       end.
Proof.
  intros wait_times.
  unfold _calculate_stats. rewrite fold_left_snoc_map. simpl app. fold wait_times.
  destruct (reached_dest s) as [|p rd] eqn:Hrd.
  - exists (-1), (-1). split; [reflexivity | split; reflexivity].
  - assert (Hlen : (PyList.len (p :: rd) =? 0) = false).
    { destruct (PyList.len (p :: rd) =? 0) eqn:E; [|reflexivity].
      apply len_zero in E. discriminate. }
    destruct (max_spec wait_times) as (m & Hm & Hin & Hge).
    { unfold wait_times. discriminate. }
    assert (Hwl : PyList.len wait_times = PyList.len (p :: rd)).
    { unfold wait_times, PyList.len. rewrite length_map. reflexivity. }
    assert (Hdiv : int_truediv (PyList.sum wait_times) (PyList.len (p :: rd))
                   = Ok (Z.sgn (PyList.sum wait_times) * Z.sgn (PyList.len (p :: rd))
                         * binary64_trunc (Z.abs (PyList.sum wait_times))
                                          (Z.abs (PyList.len (p :: rd))))).
    { unfold int_truediv. rewrite Hlen. reflexivity. }
    eexists m, _.
    split; [|split; [exact Hin | split; [exact Hge | exact Hdiv]]].
    rewrite Hlen, Hm. cbn [bind]. rewrite Hwl, Hdiv. reflexivity.
Qed.

(** ** Boarding *)

Lemma set_set {V : Type} (d : Dict.t V) (k : Z) (v1 v2 : V) :
  Dict.set (Dict.set d k v1) k v2 = Dict.set d k v2.
Proof.
  induction d as [|[k' v'] d IH]; simpl.
  - rewrite Z.eqb_refl; reflexivity.
  - destruct (Z.eqb_spec k k') as [->|Hne]; simpl.
    + rewrite Z.eqb_refl; reflexivity.
    + destruct (Z.eqb_spec k k'); [contradiction | rewrite IH; reflexivity].
Qed.

Lemma set_same_id {V : Type} (d : Dict.t V) (k : Z) (v : V) :
  Dict.find d k = Some v -> Dict.set d k v = d.
Proof.
  induction d as [|[k' v'] d IH]; simpl; [discriminate|].
  destruct (Z.eqb_spec k k') as [->|Hne].
  - intros H; injection H as ->; reflexivity.
  - intros H. rewrite IH by exact H. reflexivity.
Qed.

Lemma find_list_set_same (d : Dict.t (list pid)) (k : Z) (v : list pid) :
  find_list (Dict.set d k v) k = v.
Proof. unfold find_list. rewrite find_set_same. reflexivity. Qed.

Lemma len_snoc {A : Type} (l : list A) (x : A) :
  PyList.len (l ++ [x]) = PyList.len l + 1.
Proof. unfold PyList.len. rewrite length_app. simpl. lia. Qed.

(** Everybody who boards passed the direction test. *)
Lemma board_spec_direction (h : heap) (floor e_target cap : Z) (ws : list pid) :
  forall n p,
    In p (fst (board_spec h floor e_target cap n ws)) ->
    direction_ok floor (target (deref h p)) e_target = true.
Proof.
  induction ws as [|q ws IH]; intros n p; simpl; [contradiction|].
  destruct (direction_ok floor (target (deref h q)) e_target) eqn:Hd; simpl.
  - destruct (n <? cap); simpl.
    + intros [<-|H]; [exact Hd | eapply IH; eauto].
    + apply IH.
  - apply IH.
Qed.

(** Nobody boards a full elevator. *)
Lemma board_spec_full (h : heap) (floor e_target cap : Z) (ws : list pid) :
  forall n, cap <= n -> board_spec h floor e_target cap n ws = ([], ws).
Proof.
  induction ws as [|q ws IH]; intros n Hn; simpl; [reflexivity|].
  destruct (Z.ltb_spec n cap) as [Hlt|_]; [lia|].
  rewrite andb_false_r, (IH n Hn). reflexivity.
Qed.

Lemma remove_loop_cons (p : pid) (b : list pid) :
  ~ In p b ->
  forall l r,
    for_each b (fun p1 ps => PyList.remove p1 ps) l = Ok r ->
    for_each b (fun p1 ps => PyList.remove p1 ps) (p :: l) = Ok (p :: r).
Proof.
  induction b as [|x b IH]; intros Hn l r H; simpl in *.
  - injection H as <-. reflexivity.
  - apply bind_ok in H. destruct H as (l1 & H1 & H2).
    destruct (Nat.eqb_spec x p) as [->|Hne]; [exfalso; apply Hn; left; reflexivity|].
    rewrite H1. simpl. apply IH; [tauto | exact H2].
Qed.

(** Removing the boarded people one by one, each at its first occurrence,
    leaves the people the scan skipped, in their order. *)
Lemma remove_boarded_list (h : heap) (floor e_target cap : Z) (ws : list pid) :
  forall n,
    for_each (fst (board_spec h floor e_target cap n ws))
             (fun p1 ps => PyList.remove p1 ps) ws
    = Ok (snd (board_spec h floor e_target cap n ws)).
Proof.
  induction ws as [|p ws IH]; intros n; simpl; [reflexivity|].
  destruct (direction_ok floor (target (deref h p)) e_target) eqn:Hd; simpl.
  - destruct (Z.ltb_spec n cap) as [Hlt|Hge]; simpl.
    + rewrite Nat.eqb_refl. simpl. apply IH.
    + rewrite (board_spec_full h floor e_target cap ws n Hge). reflexivity.
  - apply remove_loop_cons; [|apply IH].
    intros Hin. apply board_spec_direction in Hin. congruence.
Qed.

Lemma board_person_floor (h : heap) (key : Z) (p : pid)
    (st : Elevator * Dict.t (list pid)) :
  current_floor (fst (board_person h key p st)) = current_floor (fst st).
Proof.
  unfold board_person. destruct st as [e boarded].
  destruct (direction_ok _ _ _); [|reflexivity].
  destruct (_ <? _); reflexivity.
Qed.

(** The inner loop of the scan against the specification's scan. *)
Lemma board_fold (h : heap) (key : Z) (ws : list pid) :
  forall (e : Elevator) (boarded : Dict.t (list pid)),
    let b := fst (board_spec h key (target_floor e) (capacity e)
                             (PyList.len (passengers e)) ws) in
    fold_left (fun st p => board_person h key p st) ws (e, boarded)
    = (set_passengers e (passengers e ++ b),
       match b with
       | [] => boarded
       | _ :: _ => Dict.set boarded key (find_list boarded key ++ b)
       end).
Proof.
  induction ws as [|p ws IH]; intros e boarded; simpl.
  - rewrite app_nil_r. destruct e; reflexivity.
  - destruct (direction_ok key (target (deref h p)) (target_floor e)) eqn:Hd; simpl.
    + destruct (PyList.len (passengers e) <? capacity e) eqn:Hc; simpl.
      * rewrite IH. simpl. rewrite len_snoc, <- app_assoc. simpl.
        f_equal.
        assert (Hb1 : match Dict.find boarded key with
                      | Some l => Dict.set boarded key (l ++ [p])
                      | None => Dict.set boarded key [p]
                      end = Dict.set boarded key (find_list boarded key ++ [p])).
        { unfold find_list. destruct (Dict.find boarded key); reflexivity. }
        rewrite Hb1.
        destruct (fst (board_spec h key (target_floor e) (capacity e)
                                  (PyList.len (passengers e) + 1) ws)) as [|q b'].
        -- reflexivity.
        -- rewrite find_list_set_same, set_set, <- app_assoc. reflexivity.
      * apply IH.
    + apply IH.
Qed.

Lemma board_fold_floor (h : heap) (key : Z) (ws : list pid)
    (st : Elevator * Dict.t (list pid)) :
  current_floor (fst (fold_left (fun st p => board_person h key p st) ws st))
  = current_floor (fst st).
Proof.
  revert st; induction ws as [|p ws IH]; intros st; simpl; [reflexivity|].
  rewrite IH. apply board_person_floor.
Qed.

(** The loop over the keys of the waiting table runs the inner loop once,
    at the elevator's floor, when that floor is a key. *)
Lemma board_keys_loop (h : heap) (waiting : Dict.t (list pid)) (ks : list Z) :
  NoDup ks -> (forall k, In k ks -> In k (Dict.keys waiting)) ->
  forall st : Elevator * Dict.t (list pid),
    for_each ks
      (fun key st =>
         if current_floor (fst st) =? key then
           l <- Dict.get waiting key ;;
           Ok (fold_left (fun st p => board_person h key p st) l st)
         else Ok st)
      st
    = Ok (if existsb (Z.eqb (current_floor (fst st))) ks
          then fold_left (fun st' p => board_person h (current_floor (fst st)) p st')
                         (find_list waiting (current_floor (fst st))) st
          else st).
Proof.
  induction 1 as [|k ks Hnin Hnd IH]; intros Hkeys st; simpl; [reflexivity|].
  destruct (Z.eqb_spec (current_floor (fst st)) k) as [<-|Hne]; simpl.
  - destruct (proj1 (find_keys waiting (current_floor (fst st)))
                (Hkeys _ (or_introl eq_refl))) as (l & Hl).
    rewrite (get_find _ _ _ Hl). simpl.
    rewrite IH by (intros; apply Hkeys; right; assumption).
    rewrite board_fold_floor.
    assert (Hex : existsb (Z.eqb (current_floor (fst st))) ks = false).
    { destruct (existsb (Z.eqb (current_floor (fst st))) ks) eqn:E; [|reflexivity].
      apply existsb_exists in E. destruct E as (x & Hx & Hxe).
      apply Z.eqb_eq in Hxe. subst x. contradiction. }
    rewrite Hex. unfold find_list. rewrite Hl. reflexivity.
  - apply IH. intros; apply Hkeys; right; assumption.
Qed.

Lemma existsb_keys {V : Type} (d : Dict.t V) (k : Z) :
  existsb (Z.eqb k) (Dict.keys d)
  = match Dict.find d k with Some _ => true | None => false end.
Proof.
  induction d as [|[k' v] d IH]; simpl; [reflexivity|].
  destruct (k =? k'); simpl; [reflexivity | exact IH].
Qed.

Lemma remove_boarded_loop (key : Z) (b : list pid) :
  forall (wt : Dict.t (list pid)) (l r : list pid),
    Dict.find wt key = Some l ->
    for_each b (fun p1 ps => PyList.remove p1 ps) l = Ok r ->
    for_each b
      (fun person wt =>
         l <- Dict.get wt key ;;
         l' <- PyList.remove person l ;;
         Ok (Dict.set wt key l'))
      wt
    = Ok (Dict.set wt key r).
Proof.
  induction b as [|x b IH]; intros wt l r Hf H; cbn [for_each] in *.
  - injection H as <-. rewrite set_same_id by exact Hf. reflexivity.
  - apply bind_ok in H. destruct H as (l1 & H1 & H2).
    rewrite (get_find _ _ _ Hf). cbn [bind]. rewrite H1. cbn [bind].
    rewrite (IH (Dict.set wt key l1) l1 r (find_set_same _ _ _) H2).
    rewrite set_set. reflexivity.
Qed.

(** One elevator's boarding against the specification's scan. *)
Lemma board_elevator_spec (h : heap) (waiting : Dict.t (list pid)) (e : Elevator) :
  Dict.wf waiting ->
  board_elevator h e waiting
  = Ok match Dict.find waiting (current_floor e) with
       | None => (e, waiting)
       | Some ws =>
           let br := board_spec h (current_floor e) (target_floor e) (capacity e)
                                (PyList.len (passengers e)) ws in
           (set_passengers e (passengers e ++ fst br),
            Dict.set waiting (current_floor e) (snd br))
       end.
Proof.
  intros Hwf. unfold board_elevator, board_scan.
  rewrite (board_keys_loop h waiting (Dict.keys waiting) Hwf (fun k H => H)).
  simpl fst. rewrite existsb_keys. unfold find_list.
  destruct (Dict.find waiting (current_floor e)) as [ws|] eqn:Hf.
  - rewrite board_fold. simpl bind.
    pose proof (remove_boarded_list h (current_floor e) (target_floor e) (capacity e)
                  ws (PyList.len (passengers e))) as Hrm.
    destruct (fst (board_spec h (current_floor e) (target_floor e) (capacity e)
                              (PyList.len (passengers e)) ws)) as [|q b] eqn:Hb.
    + simpl in Hrm. injection Hrm as <-. simpl.
      rewrite set_same_id by exact Hf. reflexivity.
    + unfold remove_boarded. simpl Dict.keys. simpl for_each.
      assert (Hg : Dict.get [(current_floor e, q :: b)] (current_floor e) = Ok (q :: b)).
      { unfold Dict.get; simpl. rewrite Z.eqb_refl. reflexivity. }
      rewrite Hg. cbn [bind].
      rewrite (remove_boarded_loop (current_floor e) (q :: b) waiting ws _ Hf Hrm).
      reflexivity.
  - reflexivity.
Qed.

Lemma direction_ok_spec (key p_target e_target : Z) :
  direction_ok key p_target e_target = true
  <-> (key > p_target /\ e_target <= key) \/ (key < p_target /\ e_target >= key).
Proof.
  unfold direction_ok.
  rewrite orb_true_iff, !andb_true_iff, Z.gtb_ltb, Z.geb_leb.
  rewrite !Z.ltb_lt, !Z.leb_le. lia.
Qed.

(** The scan of a list is the scan of a prefix followed by the scan of the
    rest with the passengers the prefix added. *)
Lemma board_spec_app (h : heap) (floor e_target cap : Z) (pre post : list pid) :
  forall n,
    board_spec h floor e_target cap n (pre ++ post)
    = (fst (board_spec h floor e_target cap n pre)
         ++ fst (board_spec h floor e_target cap
                   (n + PyList.len (fst (board_spec h floor e_target cap n pre))) post),
       snd (board_spec h floor e_target cap n pre)
         ++ snd (board_spec h floor e_target cap
                   (n + PyList.len (fst (board_spec h floor e_target cap n pre))) post)).
Proof.
  induction pre as [|p pre IH]; intros n; simpl.
  - unfold PyList.len; simpl. rewrite Z.add_0_r.
    destruct (board_spec h floor e_target cap n post); reflexivity.
  - destruct (direction_ok floor (target (deref h p)) e_target && (n <? cap)); simpl.
    + rewrite IH. simpl. unfold PyList.len. simpl length.
      rewrite Nat2Z.inj_succ.
      replace (n + Z.succ (Z.of_nat (length (fst (board_spec h floor e_target cap (n + 1) pre)))))
        with (n + 1 + Z.of_nat (length (fst (board_spec h floor e_target cap (n + 1) pre))))
        by lia.
      reflexivity.
    + rewrite IH. reflexivity.
Qed.


(** ** The capacity invariant *)

Lemma remove_length (x : nat) (l l' : list nat) :
  PyList.remove x l = Ok l' -> length l = S (length l').
Proof.
  revert l'; induction l as [|y l IH]; intros l' H; simpl in H; [discriminate|].
  destruct (Nat.eqb x y).
  - injection H as <-. reflexivity.
  - apply bind_ok in H. destruct H as (r & Hr & H). injection H as <-.
    simpl. rewrite (IH r Hr). reflexivity.
Qed.

Lemma disembark_elevator_capacity (h : heap) (e e' : Elevator) (rd rd' : list pid) :
  disembark_elevator h e rd = Ok (e', rd') ->
  capacity e' = capacity e
  /\ (length (passengers e') <= length (passengers e))%nat.
Proof.
  unfold disembark_elevator.
  destruct (fold_left _ (passengers e) (rd, [])) as [reached temp].
  intros H. apply bind_ok in H. destruct H as (ps & Hps & H).
  injection H as <- <-. simpl. split; [reflexivity|].
  revert Hps. apply for_each_inv with (P := fun l => (length l <= length (passengers e))%nat).
  - intros x l l' _ Hl Hr. apply remove_length in Hr. lia.
  - lia.
Qed.

Lemma board_person_capacity (h : heap) (key : Z) (p : pid) (e0 : Elevator)
    (st : Elevator * Dict.t (list pid)) :
  capacity (fst st) = capacity e0 /\ within_capacity (fst st) ->
  capacity (fst (board_person h key p st)) = capacity e0
  /\ within_capacity (fst (board_person h key p st)).
Proof.
  destruct st as [e boarded]. unfold board_person, within_capacity. simpl.
  intros [Hc Hw].
  destruct (direction_ok _ _ _); [|auto].
  destruct (Z.ltb_spec (PyList.len (passengers e)) (capacity e)) as [Hlt|_]; [|auto].
  simpl. rewrite len_snoc. split; [exact Hc | lia].
Qed.

Lemma board_elevator_capacity (h : heap) (e e' : Elevator)
    (wt wt' : Dict.t (list pid)) :
  board_elevator h e wt = Ok (e', wt') ->
  within_capacity e ->
  capacity e' = capacity e /\ within_capacity e'.
Proof.
  unfold board_elevator. intros H Hw.
  apply bind_ok in H. destruct H as ([e1 boarded] & Hscan & H).
  apply bind_ok in H. destruct H as (wt1 & _ & H). injection H as <- <-.
  unfold board_scan in Hscan. revert Hscan.
  apply for_each_inv
    with (P := fun st : Elevator * Dict.t (list pid) =>
                 capacity (fst st) = capacity e /\ within_capacity (fst st)).
  - intros key st st' _ Hst Hb.
    destruct (current_floor (fst st) =? key).
    + apply bind_ok in Hb. destruct Hb as (l & _ & Hb). injection Hb as <-.
      clear - Hst. revert st Hst. induction l as [|p l IH]; intros st Hst; simpl.
      * exact Hst.
      * apply IH. apply board_person_capacity. exact Hst.
    + injection Hb as <-. exact Hst.
  - simpl. auto.
Qed.

Lemma move_elevator_fields (e : Elevator) :
  capacity (move_elevator e) = capacity e
  /\ passengers (move_elevator e) = passengers e.
Proof.
  unfold move_elevator.
  destruct (_ >? _); [split; reflexivity|].
  destruct (_ <? _); split; reflexivity.
Qed.

(** Every stage keeps every elevator within its capacity. *)
Lemma exec_stage_capacity (st : stage) (w w' : World) :
  exec_stage st w = Ok w' ->
  Forall within_capacity (elevators (snd w)) ->
  Forall within_capacity (elevators (snd w')).
Proof.
  destruct w as [h s]. destruct st; simpl; intros H Hin.
  - (* Disembark *)
    apply bind_ok in H. destruct H as ([es rd] & H1 & H). injection H as <-. simpl.
    apply for_elevators_inv
      with (P := fun _ : list pid => True)
           (Q := fun e e' => capacity e' = capacity e
                             /\ (length (passengers e') <= length (passengers e))%nat)
      in H1; [| |exact I].
    + destruct H1 as [HF _]. clear - HF Hin.
      induction HF as [|e e' es es' [Hc Hl] HF IH]; [constructor|].
      inversion Hin as [|? ? He Hes]; subst. constructor; [|apply IH; exact Hes].
      unfold within_capacity, PyList.len in *. lia.
    + intros e r e' r' _ _ Hd. split; [|exact I].
      eapply disembark_elevator_capacity; eauto.
  - (* Arrivals *)
    apply bind_ok in H. destruct H as ([[h1 g1] arr] & _ & H).
    apply bind_ok in H. destruct H as ([wt tp] & _ & H). injection H as <-.
    exact Hin.
  - (* Board *)
    apply bind_ok in H. destruct H as ([es wt] & H1 & H). injection H as <-. simpl.
    assert (HF : Forall2 (fun e e' => within_capacity e -> within_capacity e')
                         (elevators s) es).
    { apply for_elevators_inv
        with (P := fun _ : Dict.t (list pid) => True)
             (Q := fun e e' => within_capacity e -> within_capacity e')
        in H1; [apply H1 | | exact I].
      intros e r e' r' _ _ Hb. split; [|exact I].
      intros Hw. eapply board_elevator_capacity; eauto. }
    clear - HF Hin. induction HF as [|e e' es es' He HF IH]; [constructor|].
    inversion Hin; subst. constructor; auto.
  - (* Move *)
    unfold move_elevators, retarget in H.
    destruct (update_target_floors_total (moving_algorithm s) h (elevators s)
                (waiting s) (num_floors s)) as (es' & Hu & HF).
    rewrite Hu in H. simpl in H. injection H as <-. simpl.
    clear - HF Hin. induction HF as [|e e' es es' (t & ->) HF IH]; simpl; [constructor|].
    inversion Hin as [|? ? He Hes]; subst. constructor; [|apply IH; exact Hes].
    unfold within_capacity in *.
    destruct (move_elevator_fields (set_target_floor e t)) as [-> ->]. exact He.
  - (* Tick *)
    apply bind_ok in H. destruct H as (h2 & _ & H). injection H as <-. exact Hin.
Qed.

Lemma new_Simulation_elevators (config : Config) :
  Forall (fun e => e = new_Elevator (cfg_elevator_capacity config))
         (elevators (new_Simulation config)).
Proof.
  unfold new_Simulation; simpl.
  generalize (range (cfg_num_elevators config)).
  assert (H : forall (l : list Z) (acc : list Elevator),
             Forall (fun e => e = new_Elevator (cfg_elevator_capacity config)) acc ->
             Forall (fun e => e = new_Elevator (cfg_elevator_capacity config))
                    (fold_left (fun (l : list Elevator) (_ : Z) =>
                                  l ++ [new_Elevator (cfg_elevator_capacity config)])
                               l acc)).
  { induction l as [|x l IH]; intros acc Hacc; simpl; [exact Hacc|].
    apply IH. apply Forall_app. split; [exact Hacc | repeat constructor]. }
  intros l. apply H. constructor.
Qed.

Lemma stages_reachable (sts : list stage) :
  forall w0 w w', reachable w0 w -> for_each sts exec_stage w = Ok w' -> reachable w0 w'.
Proof.
  induction sts as [|st sts IH]; intros w0 w w' Hr H; simpl in H.
  - injection H as <-. exact Hr.
  - apply bind_ok in H. destruct H as (w1 & H1 & H2).
    apply IH with (w := w1); [|exact H2].
    eapply reach_stage; eauto.
Qed.

Lemma rounds_stages (l : list Z) (w : World) :
  for_each l round w = for_each (flat_map round_stages l) exec_stage w.
Proof.
  revert w; induction l as [|i l IH]; intros w; [reflexivity|].
  cbn [for_each flat_map]. rewrite for_each_app. unfold round at 1.
  destruct (for_each (round_stages i) exec_stage w); cbn [bind]; [apply IH | reflexivity].
Qed.

(** ** The stages return *)

Lemma disembark_fold (g : pid -> bool) (l : list pid) :
  forall rd temp : list pid,
    fold_left
      (fun (acc : list pid * list pid) (p : pid) =>
         if g p then (fst acc ++ [p], snd acc ++ [p]) else acc)
      l (rd, temp)
    = (rd ++ filter g l, temp ++ filter g l).
Proof.
  induction l as [|p l IH]; intros rd temp; simpl.
  - rewrite !app_nil_r. reflexivity.
  - destruct (g p); simpl; rewrite IH; [rewrite <- !app_assoc|]; reflexivity.
Qed.

Lemma remove_filter (g : pid -> bool) (l : list pid) :
  for_each (filter g l) (fun p1 ps => PyList.remove p1 ps) l
  = Ok (filter (fun p => negb (g p)) l).
Proof.
  induction l as [|p l IH]; simpl; [reflexivity|].
  destruct (g p) eqn:Hg; simpl.
  - rewrite Nat.eqb_refl. simpl. exact IH.
  - apply remove_loop_cons; [|exact IH].
    intros Hin. apply filter_In in Hin. destruct Hin as [_ Hin]. congruence.
Qed.

(** Stage 1 on one elevator: the passengers whose target is the current
    floor leave, in order, into [reached_dest]; the others stay, in order. *)
Lemma disembark_elevator_spec (h : heap) (e : Elevator) (rd : list pid) :
  let arrived := fun p => current_floor e =? target (deref h p) in
  disembark_elevator h e rd
  = Ok (set_passengers e (filter (fun p => negb (arrived p)) (passengers e)),
        rd ++ filter arrived (passengers e)).
Proof.
  intros arrived. unfold disembark_elevator.
  rewrite (disembark_fold arrived). simpl app.
  rewrite remove_filter. reflexivity.
Qed.

Lemma handle_disembarking_total (h : heap) (s : Simulation) :
  exists es rd,
    handle_disembarking (h, s)
    = Ok (h, mkSimulation (arrival_generator s) es (moving_algorithm s)
               (num_floors s) (waiting s) (total_people s) rd).
Proof.
  unfold handle_disembarking.
  destruct (for_elevators_total (fun _ : list pid => True) (disembark_elevator h)
              (elevators s)) with (s := reached_dest s) as (es & rd & H & _).
  - intros e r _ _. rewrite disembark_elevator_spec. eauto.
  - exact I.
  - rewrite H. simpl. eauto.
Qed.

Lemma board_elevator_keys (h : heap) (e : Elevator) (wt : Dict.t (list pid)) :
  Dict.wf wt ->
  exists e' wt',
    board_elevator h e wt = Ok (e', wt') /\ Dict.keys wt' = Dict.keys wt.
Proof.
  intros Hwf. rewrite (board_elevator_spec h wt e Hwf).
  destruct (Dict.find wt (current_floor e)) as [ws|] eqn:Hf.
  - do 2 eexists. split; [reflexivity|]. simpl.
    apply keys_set_old. apply find_keys. eauto.
  - do 2 eexists. split; reflexivity.
Qed.

Lemma handle_boarding_total (h : heap) (s : Simulation) :
  Dict.wf (waiting s) ->
  exists es wt,
    handle_boarding (h, s)
    = Ok (h, mkSimulation (arrival_generator s) es (moving_algorithm s)
               (num_floors s) wt (total_people s) (reached_dest s))
    /\ Dict.keys wt = Dict.keys (waiting s).
Proof.
  intros Hwf. unfold handle_boarding.
  destruct (for_elevators_total
              (fun wt : Dict.t (list pid) => Dict.keys wt = Dict.keys (waiting s))
              (board_elevator h) (elevators s)) with (s := waiting s)
    as (es & wt & H & Hk).
  - intros e wt _ Hk.
    destruct (board_elevator_keys h e wt) as (e' & wt' & Hb & Hk').
    + unfold Dict.wf. rewrite Hk. exact Hwf.
    + exists e', wt'. split; [exact Hb | congruence].
  - reflexivity.
  - rewrite H. simpl. eauto.
Qed.

Lemma move_elevators_total (h : heap) (s : Simulation) :
  exists es, move_elevators (h, s) = Ok (h, with_elevators s es).
Proof.
  unfold move_elevators, retarget.
  destruct (update_target_floors_total (moving_algorithm s) h (elevators s)
              (waiting s) (num_floors s)) as (es & H & _).
  rewrite H. simpl. eexists. reflexivity.
Qed.

Lemma update_wait_times_total (h : heap) (s : Simulation) :
  exists h', update_wait_times (h, s) = Ok (h', s).
Proof.
  unfold update_wait_times.
  rewrite for_each_pure
    with (f := fun h key => fold_left tick (find_list (waiting s) key) h).
  - simpl. eexists. reflexivity.
  - intros key h1 Hk. apply find_keys in Hk. destruct Hk as (l & Hl).
    rewrite (get_find _ _ _ Hl). unfold find_list. rewrite Hl. reflexivity.
Qed.

(** The Arrivals stage never adds or drops a floor of the waiting table. *)
Lemma generate_arrivals_keys (i : Z) (h h' : heap) (s s' : Simulation) :
  generate_arrivals i (h, s) = Ok (h', s') ->
  Dict.keys (waiting s') = Dict.keys (waiting s).
Proof.
  unfold generate_arrivals. intros H.
  apply bind_ok in H. destruct H as ([[h1 g1] arr] & _ & H).
  apply bind_ok in H. destruct H as ([wt tp] & Hloop & H). injection H as <- <-.
  simpl. revert Hloop.
  apply for_each_inv
    with (P := fun acc : Dict.t (list pid) * list pid =>
                 Dict.keys (fst acc) = Dict.keys (waiting s)) (s := (waiting s, total_people s)).
  - intros key acc acc' _ Hacc Hb.
    apply bind_ok in Hb. destruct Hb as (new & _ & Hb).
    apply bind_ok in Hb. destruct Hb as (l & Hl & Hb). injection Hb as <-.
    simpl. rewrite keys_set_old; [exact Hacc|].
    apply find_keys. exists l. apply get_ok. exact Hl.
  - reflexivity.
Qed.

(** No stage changes the floors of the waiting table. *)
Lemma exec_stage_keys (st : stage) (w w' : World) :
  Dict.wf (waiting (snd w)) ->
  exec_stage st w = Ok w' ->
  Dict.keys (waiting (snd w')) = Dict.keys (waiting (snd w)).
Proof.
  destruct w as [h s], w' as [h' s']. simpl. intros Hwf H.
  destruct st; cbn [exec_stage] in H.
  - destruct (handle_disembarking_total h s) as (es & rd & Hd).
    rewrite Hd in H. injection H as <- <-. reflexivity.
  - eapply generate_arrivals_keys; eauto.
  - destruct (handle_boarding_total h s Hwf) as (es & wt & Hb & Hk).
    rewrite Hb in H. injection H as <- <-. exact Hk.
  - destruct (move_elevators_total h s) as (es & Hm).
    rewrite Hm in H. injection H as <- <-. reflexivity.
  - destruct (update_wait_times_total h s) as (h2 & Ht).
    rewrite Ht in H. injection H as <- <-. reflexivity.
Qed.

Lemma init_keys_fold (l : list Z) :
  forall d : Dict.t (list pid),
    NoDup (Dict.keys d ++ map (fun i => i + 1) l) ->
    Dict.keys (fold_left (fun (d : Dict.t (list pid)) (i : Z) =>
                            let floor := i + 1 in Dict.set d floor []) l d)
    = Dict.keys d ++ map (fun i => i + 1) l.
Proof.
  induction l as [|i l IH]; intros d Hnd; simpl.
  - rewrite app_nil_r. reflexivity.
  - simpl in Hnd.
    assert (Hn : ~ In (i + 1) (Dict.keys d)).
    { intros Hin. apply NoDup_remove_2 in Hnd. apply Hnd.
      apply in_or_app. left. exact Hin. }
    rewrite IH; rewrite keys_set_new by exact Hn.
    + rewrite <- app_assoc. reflexivity.
    + rewrite <- app_assoc. exact Hnd.
Qed.

Lemma floors_sorted (n : Z) : StronglySorted Z.lt (floors n).
Proof.
  unfold floors, range. generalize (Z.to_nat n) as k. intros k.
  generalize 0%nat as a. induction k as [|k IH]; intros a; simpl; constructor.
  - apply IH.
  - apply Forall_forall. intros x Hx.
    apply in_map_iff in Hx. destruct Hx as (y & <- & Hy).
    apply in_map_iff in Hy. destruct Hy as (j & <- & Hj).
    apply in_seq in Hj. lia.
Qed.

Lemma sorted_NoDup (l : list Z) : StronglySorted Z.lt l -> NoDup l.
Proof.
  induction 1 as [|x l HS IH HF]; constructor; [|exact IH].
  intros Hin. rewrite Forall_forall in HF. specialize (HF x Hin). lia.
Qed.

(** The constructor's waiting table holds the floors 1..num_floors in
    ascending order. *)
Lemma new_Simulation_keys (config : Config) :
  Dict.keys (waiting (new_Simulation config)) = floors (cfg_num_floors config).
Proof.
  unfold new_Simulation; simpl. rewrite init_keys_fold; [reflexivity|].
  simpl. apply sorted_NoDup. apply floors_sorted.
Qed.

(** Every state the simulation reaches has the constructor's floors as the
    keys of its waiting table, in ascending order. *)
Lemma reachable_keys (config : Config) (h0 : heap) (w : World) :
  reachable (h0, new_Simulation config) w ->
  Dict.keys (waiting (snd w)) = floors (cfg_num_floors config).
Proof.
  induction 1 as [|st w1 w2 Hr IH Hst].
  - apply new_Simulation_keys.
  - rewrite (exec_stage_keys st w1 w2); [exact IH | | exact Hst].
    unfold Dict.wf. rewrite IH. apply sorted_NoDup, floors_sorted.
Qed.

(** ** Running twice *)

Lemma SingleArrivals_generate_ok (max_floor i : Z) (h : heap) :
  max_floor - 1 <> 0 ->
  generate (SingleArrivals max_floor) h i
  = Ok (h ++ [mkPerson 1 (i mod (max_floor - 1) + 2) 0],
        SingleArrivals max_floor, [(1, [length h])]).
Proof.
  intros Hmf. unfold generate, SingleArrivals_generate, py_mod.
  destruct (Z.eqb_spec (max_floor - 1) 0) as [E|_]; [contradiction|]. simpl.
  unfold group_person. rewrite deref_new. reflexivity.
Qed.

Lemma generate_arrivals_single (max_floor i : Z) (h : heap) (s : Simulation) :
  arrival_generator s = SingleArrivals max_floor ->
  2 <= max_floor ->
  In 1 (Dict.keys (waiting s)) ->
  exists h' wt,
    generate_arrivals i (h, s)
    = Ok (h', mkSimulation (SingleArrivals max_floor) (elevators s)
                (moving_algorithm s) (num_floors s) wt
                (total_people s ++ [length h]) (reached_dest s))
    /\ Dict.keys wt = Dict.keys (waiting s).
Proof.
  intros Hg Hmf H1. unfold generate_arrivals.
  rewrite Hg, SingleArrivals_generate_ok by lia. cbn [bind].
  apply find_keys in H1. destruct H1 as (l & Hl).
  cbn [Dict.keys map fst for_each].
  assert (Hget : Dict.get [(1, [length h])] 1 = Ok [length h]) by reflexivity.
  rewrite Hget. cbn [bind fst snd]. rewrite (get_find _ _ _ Hl). cbn [bind].
  do 2 eexists. split; [reflexivity|].
  apply keys_set_old. apply find_keys. eauto.
Qed.

(** With [SingleArrivals] a round always completes and adds one person to
    [total_people], whatever state it starts in, as long as the waiting
    table is a dict with floor 1. *)
Lemma round_single (max_floor i : Z) (w : World) :
  2 <= max_floor ->
  arrival_generator (snd w) = SingleArrivals max_floor ->
  Dict.wf (waiting (snd w)) ->
  In 1 (Dict.keys (waiting (snd w))) ->
  exists w',
    round i w = Ok w'
    /\ arrival_generator (snd w') = SingleArrivals max_floor
    /\ Dict.keys (waiting (snd w')) = Dict.keys (waiting (snd w))
    /\ length (total_people (snd w')) = S (length (total_people (snd w))).
Proof.
  destruct w as [h s]. simpl. intros Hmf Hg Hwf H1.
  unfold round, round_stages. cbn [for_each exec_stage].
  destruct (handle_disembarking_total h s) as (es1 & rd1 & Hd). rewrite Hd. cbn [bind].
  destruct (generate_arrivals_single max_floor i h
              (mkSimulation (arrival_generator s) es1 (moving_algorithm s)
                 (num_floors s) (waiting s) (total_people s) rd1))
    as (h2 & wt2 & Ha & Hk2); [exact Hg | exact Hmf | exact H1 |].
  rewrite Ha. cbn [bind]. simpl in Hk2.
  match goal with
  | |- context [handle_boarding (h2, ?s2)] =>
      destruct (handle_boarding_total h2 s2) as (es3 & wt3 & Hb & Hk3)
  end.
  { simpl. unfold Dict.wf. rewrite Hk2. exact Hwf. }
  rewrite Hb. cbn [bind]. simpl in Hk3.
  match goal with
  | |- context [move_elevators (h2, ?s3)] =>
      destruct (move_elevators_total h2 s3) as (es4 & Hm)
  end.
  rewrite Hm. cbn [bind].
  match goal with
  | |- context [update_wait_times (h2, ?s4)] =>
      destruct (update_wait_times_total h2 s4) as (h5 & Ht)
  end.
  rewrite Ht. cbn [bind]. eexists. split; [reflexivity|]. simpl.
  split; [reflexivity|]. split; [congruence|].
  rewrite length_app. simpl. lia.
Qed.

Lemma rounds_single (max_floor : Z) (l : list Z) :
  2 <= max_floor ->
  forall w : World,
    arrival_generator (snd w) = SingleArrivals max_floor ->
    Dict.wf (waiting (snd w)) ->
    In 1 (Dict.keys (waiting (snd w))) ->
    exists w',
      for_each l round w = Ok w'
      /\ arrival_generator (snd w') = SingleArrivals max_floor
      /\ Dict.keys (waiting (snd w')) = Dict.keys (waiting (snd w))
      /\ length (total_people (snd w')) = (length (total_people (snd w)) + length l)%nat.
Proof.
  intros Hmf. induction l as [|i l IH]; intros w Hg Hwf H1; cbn [for_each].
  - exists w. repeat split; auto.
  - destruct (round_single max_floor i w Hmf Hg Hwf H1) as (w1 & Hr & Hg1 & Hk1 & Hl1).
    rewrite Hr. cbn [bind].
    destruct (IH w1) as (w2 & Hr2 & Hg2 & Hk2 & Hl2).
    + exact Hg1.
    + unfold Dict.wf. rewrite Hk1. exact Hwf.
    + rewrite Hk1. exact H1.
    + exists w2. split; [exact Hr2|]. split; [exact Hg2|]. split; [congruence|].
      rewrite Hl2, Hl1. simpl. lia.
Qed.

Lemma run_single (max_floor n : Z) (w : World) :
  2 <= max_floor -> 0 <= n ->
  arrival_generator (snd w) = SingleArrivals max_floor ->
  Dict.wf (waiting (snd w)) ->
  In 1 (Dict.keys (waiting (snd w))) ->
  exists w' stats,
    run w n = Ok (w', stats)
    /\ for_each (range n) round w = Ok w'
    /\ arrival_generator (snd w') = SingleArrivals max_floor
    /\ Dict.keys (waiting (snd w')) = Dict.keys (waiting (snd w))
    /\ stat stats "num_rounds" = Some n
    /\ stat stats "total_people" = Some (PyList.len (total_people (snd w)) + n).
Proof.
  intros Hmf Hn Hg Hwf H1.
  destruct (rounds_single max_floor (range n) Hmf w Hg Hwf H1)
    as ([h' s'] & Hr & Hg' & Hk' & Hl').
  destruct (calculate_stats_shape h' s' n) as (mx & av & Hs & _).
  unfold run. rewrite Hr. cbn [bind]. rewrite Hs. cbn [bind].
  do 2 eexists. split; [reflexivity|]. split; [reflexivity|].
  split; [exact Hg'|]. split; [exact Hk'|]. split; [reflexivity|].
  simpl stat. simpl in Hl'. unfold PyList.len. rewrite Hl', range_length.
  f_equal. lia.
Qed.

(** ** Who is counted *)

Lemma disembark_loop (h : heap) (es : list Elevator) :
  forall rd : list pid,
    for_elevators es (disembark_elevator h) rd
    = Ok (map (fun e => set_passengers e
                          (filter (fun p => negb (arrived h e p)) (passengers e))) es,
          rd ++ flat_map (fun e => filter (arrived h e) (passengers e)) es).
Proof.
  induction es as [|e es IH]; intros rd; cbn [for_elevators map flat_map].
  - rewrite app_nil_r. reflexivity.
  - rewrite disembark_elevator_spec. cbn [bind]. rewrite IH. cbn [bind].
    rewrite <- app_assoc. reflexivity.
Qed.

(** Stage 1 as a whole. *)
Lemma handle_disembarking_spec (h : heap) (s : Simulation) :
  handle_disembarking (h, s)
  = Ok (h, mkSimulation (arrival_generator s)
             (map (fun e => set_passengers e
                              (filter (fun p => negb (arrived h e p)) (passengers e)))
                  (elevators s))
             (moving_algorithm s) (num_floors s) (waiting s) (total_people s)
             (reached_dest s
                ++ flat_map (fun e => filter (arrived h e) (passengers e))
                            (elevators s))).
Proof.
  unfold handle_disembarking. rewrite disembark_loop. reflexivity.
Qed.

Lemma arrivals_loop (arr : Dict.t (list pid)) (l : list Z) :
  forall acc acc' : Dict.t (list pid) * list pid,
    for_each l
      (fun key (acc : Dict.t (list pid) * list pid) =>
         new <- Dict.get arr key ;;
         l <- Dict.get (fst acc) key ;;
         Ok (Dict.set (fst acc) key (l ++ new), snd acc ++ new))
      acc = Ok acc' ->
    snd acc' = snd acc ++ flat_map (find_list arr) l.
Proof.
  induction l as [|k l IH]; intros acc acc' H; cbn [for_each flat_map] in *.
  - injection H as <-. rewrite app_nil_r. reflexivity.
  - apply bind_ok in H. destruct H as (acc1 & H1 & H2).
    apply bind_ok in H1. destruct H1 as (new & Hnew & H1).
    apply bind_ok in H1. destruct H1 as (l0 & _ & H1). injection H1 as <-.
    rewrite (IH _ _ H2). simpl snd. unfold find_list at 2.
    rewrite (get_ok _ _ _ Hnew), <- app_assoc. reflexivity.
Qed.

Lemma exec_stage_people (st : stage) (w w' : World) :
  exec_stage st w = Ok w' -> people_step st w w'.
Proof.
  destruct w as [h s], w' as [h' s']. intros H.
  destruct st; cbn [exec_stage] in H; unfold people_step; cbn [fst snd].
  - rewrite handle_disembarking_spec in H. injection H as <- <-. split; reflexivity.
  - unfold generate_arrivals in H.
    apply bind_ok in H. destruct H as ([[h1 g1] arr] & Hgen & H).
    apply bind_ok in H. destruct H as ([wt tp] & Hloop & H). injection H as <- <-.
    cbn [total_people reached_dest]. split; [|reflexivity].
    exists h1, g1, arr. split; [exact Hgen|].
    apply arrivals_loop in Hloop. exact Hloop.
  - unfold handle_boarding in H.
    apply bind_ok in H. destruct H as ([es wt] & _ & H). injection H as <- <-.
    split; reflexivity.
  - destruct (move_elevators_total h s) as (es & Hm).
    rewrite Hm in H. injection H as <- <-. split; reflexivity.
  - destruct (update_wait_times_total h s) as (h2 & Ht).
    rewrite Ht in H. injection H as <- <-. split; reflexivity.
Qed.

(** ** The Board stage over all elevators *)

Lemma board_turn_keys (h : heap) (e : Elevator) (wt : Dict.t (list pid)) :
  Dict.keys (snd (board_turn h e wt)) = Dict.keys wt.
Proof.
  unfold board_turn. destruct (Dict.find wt (current_floor e)) as [ws|] eqn:Hf.
  - cbn [snd]. apply keys_set_old. apply find_keys. eauto.
  - reflexivity.
Qed.

Lemma board_turn_other (h : heap) (e : Elevator) (wt : Dict.t (list pid)) (k : Z) :
  k <> current_floor e -> Dict.find (snd (board_turn h e wt)) k = Dict.find wt k.
Proof.
  intros Hk. unfold board_turn.
  destruct (Dict.find wt (current_floor e)) as [ws|]; [|reflexivity].
  cbn [snd]. apply find_set_other. exact Hk.
Qed.

Lemma board_turns_keys (h : heap) (es : list Elevator) :
  forall wt, Dict.keys (snd (board_turns h es wt)) = Dict.keys wt.
Proof.
  induction es as [|e es IH]; intros wt; cbn [board_turns snd]; [reflexivity|].
  rewrite IH. apply board_turn_keys.
Qed.

Lemma board_turns_app (h : heap) (es1 es2 : list Elevator) :
  forall wt,
    board_turns h (es1 ++ es2) wt
    = (fst (board_turns h es1 wt)
         ++ fst (board_turns h es2 (snd (board_turns h es1 wt))),
       snd (board_turns h es2 (snd (board_turns h es1 wt)))).
Proof.
  induction es1 as [|e es1 IH]; intros wt; cbn [app board_turns fst snd].
  - destruct (board_turns h es2 wt); reflexivity.
  - rewrite IH. reflexivity.
Qed.

Lemma board_turns_length (h : heap) (es : list Elevator) :
  forall wt, length (fst (board_turns h es wt)) = length es.
Proof.
  induction es as [|e es IH]; intros wt; cbn [board_turns fst length];
    [reflexivity | rewrite IH; reflexivity].
Qed.

Lemma board_elevator_turn (h : heap) (e : Elevator) (wt : Dict.t (list pid)) :
  Dict.wf wt -> board_elevator h e wt = Ok (board_turn h e wt).
Proof. intros Hwf. rewrite (board_elevator_spec h wt e Hwf). reflexivity. Qed.

(** The loop of [handle_boarding] is the sequence of turns. *)
Lemma board_loop_turns (h : heap) (es : list Elevator) :
  forall wt,
    Dict.wf wt ->
    for_elevators es (board_elevator h) wt = Ok (board_turns h es wt).
Proof.
  induction es as [|e es IH]; intros wt Hwf; cbn [for_elevators board_turns].
  - reflexivity.
  - rewrite (board_elevator_turn h e wt Hwf).
    destruct (board_turn h e wt) as [e1 wt1] eqn:E. cbn [bind fst snd].
    assert (Hwf1 : Dict.wf wt1).
    { unfold Dict.wf. replace wt1 with (snd (board_turn h e wt)) by (rewrite E; reflexivity).
      rewrite board_turn_keys. exact Hwf. }
    rewrite (IH wt1 Hwf1). destruct (board_turns h es wt1). reflexivity.
Qed.

(* ================================================================== *)
(** * The claims of the specification *)

(** C1.  The written rule for an elevator with passengers (the farthest
    passenger target, the lowest floor on a tie) fails on the code.  An
    elevator at floor 3 carries, in this order, a passenger for floor 5 and a
    passenger for floor 1: both targets are two floors away and the rule asks
    for floor 1, but [FurthestFloor] sets target floor 5, the target of the
    first of the farthest passengers ([dist.index(d)] is the position of the
    first maximum whatever entry [d] was read from).  The state is one the
    simulation reaches: both people arrive at floor 3 in round 0, the idle
    elevator fetches them and boards both in round 2. *)
Theorem FurthestFloor_passenger_tie_takes_first :
  let h := [mkPerson 3 5 0; mkPerson 3 1 0] in
  let e := mkElevator 2 3 3 [0%nat; 1%nat] in
  let waiting := [(1, []); (2, []); (3, []); (4, []); (5, [])] in
  update_target_floors FurthestFloor h [e] waiting 5 = Ok [set_target_floor e 5]
  /\ Z.abs (current_floor e - 1) = Z.abs (current_floor e - 5)
  /\ In 1 (map (fun p => target (deref h p)) (passengers e))
  /\ 1 < 5
  /\ (let '(h0, g) := new_FileArrivals 5 [(0, [(3, 5); (3, 1)])] [] in
      let w0 := (h0, new_Simulation (mkConfig 5 1 2 g FurthestFloor)) in
      exists h2 s2,
        for_each (round_stages 0 ++ round_stages 1 ++ [Disembark; Arrivals 2; Board])
                 exec_stage w0 = Ok (h2, s2)
        /\ elevators s2 = [e]
        /\ map (deref h2) (passengers e) = [mkPerson 3 5 2; mkPerson 3 1 2]
        /\ exists s3, retarget (h2, s2) = Ok (h2, s3)
                      /\ elevators s3 = [set_target_floor e 5]).
Proof.
  repeat split; try reflexivity.
  - simpl. right; left; reflexivity.
  - do 2 eexists. split; [vm_compute; reflexivity|].
    split; [reflexivity|]. split; [reflexivity|].
    eexists. split; reflexivity.
Qed.

(** C2.  On a waiting table that is a dict, the Board stage returns, and
    it gives every elevator its turn in list order: the elevator scans the
    waiting list [ws] of its current floor, as the elevators before it
    left that list, from the first person to the last; the person after a
    prefix [pre] boards exactly when the direction test holds and the
    passengers on board plus those boarded from [pre] are fewer than the
    capacity.  The removal that follows the scan leaves on the floor the
    people who did not board, in their order, and touches no other floor;
    that table is what the next elevator scans and, after the last one,
    the table of the simulation.  The people who boarded are appended to
    the passengers in the order they stood in.  Everybody who boards passed
    the direction test, so nobody heading up boards an elevator whose
    target floor is below the floor. *)
Theorem handle_boarding_scan (h : heap) (s : Simulation) :
  Dict.wf (waiting s) ->
  exec_stage Board (h, s) = handle_boarding (h, s)
  /\ handle_boarding (h, s)
     = Ok (h, mkSimulation (arrival_generator s)
                (fst (board_turns h (elevators s) (waiting s)))
                (moving_algorithm s) (num_floors s)
                (snd (board_turns h (elevators s) (waiting s)))
                (total_people s) (reached_dest s))
  /\ (forall done e rest,
        elevators s = done ++ e :: rest ->
        let wt := snd (board_turns h done (waiting s)) in
        let floor := current_floor e in
        let scan := board_spec h floor (target_floor e) (capacity e) in
        let n := PyList.len (passengers e) in
        forall ws,
          Dict.find wt floor = Some ws ->
          board_elevator h e wt
          = Ok (set_passengers e (passengers e ++ fst (scan n ws)),
                Dict.set wt floor (snd (scan n ws)))
          /\ nth_error (fst (board_turns h (elevators s) (waiting s))) (length done)
             = Some (set_passengers e (passengers e ++ fst (scan n ws)))
          /\ Dict.find (snd (board_turns h (done ++ [e]) (waiting s))) floor
             = Some (snd (scan n ws))
          /\ (forall k, k <> floor ->
                Dict.find (snd (board_turns h (done ++ [e]) (waiting s))) k
                = Dict.find wt k)
          /\ (forall pre p post,
                ws = pre ++ p :: post ->
                let n1 := n + PyList.len (fst (scan n pre)) in
                let ok := direction_ok floor (target (deref h p)) (target_floor e)
                          && (n1 <? capacity e) in
                let n2 := if ok then n1 + 1 else n1 in
                fst (scan n ws)
                = fst (scan n pre) ++ (if ok then [p] else []) ++ fst (scan n2 post)
                /\ snd (scan n ws)
                   = snd (scan n pre) ++ (if ok then [] else [p]) ++ snd (scan n2 post))
          /\ (forall p, In p (fst (scan n ws)) ->
                direction_ok floor (target (deref h p)) (target_floor e) = true
                /\ (floor < target (deref h p) -> floor <= target_floor e)))
  /\ (forall key p_target e_target,
        direction_ok key p_target e_target = true
        <-> (key > p_target /\ e_target <= key)
            \/ (key < p_target /\ e_target >= key)).
Proof.
  intros Hwf. split; [reflexivity|]. split; [|split].
  - unfold handle_boarding.
    rewrite (board_loop_turns h (elevators s) (waiting s) Hwf).
    destruct (board_turns h (elevators s) (waiting s)). reflexivity.
  - intros done e rest Hes wt floor scan n ws Hf.
    assert (Hwt : Dict.wf wt).
    { unfold Dict.wf, wt. rewrite board_turns_keys. exact Hwf. }
    assert (Hturn : board_turn h e wt
                    = (set_passengers e (passengers e ++ fst (scan n ws)),
                       Dict.set wt floor (snd (scan n ws)))).
    { unfold board_turn. fold floor. rewrite Hf. reflexivity. }
    assert (Hsnoc : snd (board_turns h (done ++ [e]) (waiting s))
                    = Dict.set wt floor (snd (scan n ws))).
    { rewrite board_turns_app. cbn [snd board_turns]. fold wt. rewrite Hturn.
      reflexivity. }
    split; [|split; [|split; [|split; [|split]]]].
    + rewrite (board_elevator_turn h e wt Hwt). rewrite Hturn. reflexivity.
    + rewrite Hes, board_turns_app. cbn [fst].
      rewrite nth_error_app2 by (rewrite board_turns_length; lia).
      rewrite board_turns_length, Nat.sub_diag. cbn [board_turns fst nth_error].
      fold wt. rewrite Hturn. reflexivity.
    + rewrite Hsnoc. apply find_set_same.
    + intros k Hk. rewrite Hsnoc. apply find_set_other. exact Hk.
    + intros pre p post ->. unfold scan. rewrite board_spec_app. simpl.
      destruct (direction_ok floor (target (deref h p)) (target_floor e)
                && (n + PyList.len (fst (board_spec h floor (target_floor e)
                                           (capacity e) n pre))
                    <? capacity e));
        simpl; split; reflexivity.
    + intros p Hp. apply board_spec_direction in Hp. split; [exact Hp|].
      apply direction_ok_spec in Hp. lia.
  - apply direction_ok_spec.
Qed.

Lemma handle_boarding_scan_witness :
  let h := [mkPerson 2 3 0; mkPerson 2 1 0; mkPerson 2 3 0; mkPerson 1 3 0] in
  let s := mkSimulation (SingleArrivals 3)
             [mkElevator 1 2 3 []; mkElevator 2 2 2 []; mkElevator 2 1 1 []]
             FurthestFloor 3
             [(1, [3%nat]); (2, [0%nat; 1%nat; 2%nat]); (3, [])]
             [0%nat; 1%nat; 2%nat; 3%nat] [] in
  Dict.wf (waiting s)
  /\ handle_boarding (h, s)
     = Ok (h, mkSimulation (SingleArrivals 3)
                [mkElevator 1 2 3 [0%nat]; mkElevator 2 2 2 [1%nat; 2%nat];
                 mkElevator 2 1 1 [3%nat]]
                FurthestFloor 3 [(1, []); (2, []); (3, [])]
                [0%nat; 1%nat; 2%nat; 3%nat] []).
Proof.
  cbv zeta.
  assert (Hwf : Dict.wf
                  (waiting
                     (mkSimulation (SingleArrivals 3)
                        [mkElevator 1 2 3 []; mkElevator 2 2 2 []; mkElevator 2 1 1 []]
                        FurthestFloor 3
                        [(1, [3%nat]); (2, [0%nat; 1%nat; 2%nat]); (3, [])]
                        [0%nat; 1%nat; 2%nat; 3%nat] []))).
  { unfold Dict.wf; simpl. repeat constructor; simpl; intuition lia. }
  split; [exact Hwf|].
  exact (proj1 (proj2 (handle_boarding_scan
                  [mkPerson 2 3 0; mkPerson 2 1 0; mkPerson 2 3 0; mkPerson 1 3 0]
                  (mkSimulation (SingleArrivals 3)
                     [mkElevator 1 2 3 []; mkElevator 2 2 2 []; mkElevator 2 1 1 []]
                     FurthestFloor 3
                     [(1, [3%nat]); (2, [0%nat; 1%nat; 2%nat]); (3, [])]
                     [0%nat; 1%nat; 2%nat; 3%nat] [])
                  Hwf))).
Defined.

(** C3.  From the state [Simulation.__init__] builds with a capacity of at
    least 1, every state reached by running stages (disembark, arrivals of
    any round, board, retarget-and-move, tick) in any order has every
    elevator within its capacity.  The states [run] passes through are among
    them: the state after any prefix of the stage sequence of its rounds is
    reachable. *)
Theorem capacity_invariant (config : Config) (h0 : heap) (w : World) :
  1 <= cfg_elevator_capacity config ->
  reachable (h0, new_Simulation config) w ->
  Forall within_capacity (elevators (snd w))
  /\ (forall (num_rounds : Z) (done rest : list stage) (w1 : World),
        run_stages num_rounds = done ++ rest ->
        for_each done exec_stage w = Ok w1 ->
        reachable (h0, new_Simulation config) w1
        /\ Forall within_capacity (elevators (snd w1)))
  /\ (forall num_rounds,
        for_each (range num_rounds) round w
        = for_each (run_stages num_rounds) exec_stage w).
Proof.
  intros Hcap Hreach.
  assert (Hinv : forall w', reachable (h0, new_Simulation config) w' ->
                            Forall within_capacity (elevators (snd w'))).
  { induction 1 as [|st w1 w2 Hr IH Hst].
    - simpl. eapply Forall_impl; [|apply new_Simulation_elevators].
      intros e ->. unfold within_capacity, new_Elevator, PyList.len; simpl. lia.
    - eapply exec_stage_capacity; eauto. }
  split; [apply Hinv; exact Hreach|]. split.
  - intros n done rest w1 _ Hrun.
    assert (Hr1 : reachable (h0, new_Simulation config) w1)
      by (eapply stages_reachable; eauto).
    split; [exact Hr1 | apply Hinv; exact Hr1].
  - intros n. apply rounds_stages.
Qed.

Lemma capacity_invariant_witness :
  1 <= cfg_elevator_capacity (mkConfig 6 2 2 (SingleArrivals 6) EndToEndLoop)
  /\ (exists w,
        for_each [Disembark; Arrivals 0; Board] exec_stage
                 ([], new_Simulation (mkConfig 6 2 2 (SingleArrivals 6) EndToEndLoop))
        = Ok w
        /\ map passengers (elevators (snd w)) = [[0%nat]; []]
        /\ Forall within_capacity (elevators (snd w))).
Proof.
  split; [simpl; lia|].
  eexists. split; [vm_compute; reflexivity|]. split; [reflexivity|].
  refine (proj1 (capacity_invariant (mkConfig 6 2 2 (SingleArrivals 6) EndToEndLoop)
                   [] _ _ _)).
  - simpl; lia.
  - apply (stages_reachable [Disembark; Arrivals 0; Board] _ _ _ (reach_init _)).
    vm_compute. reflexivity.
Defined.

(** C4.  For every round [r >= 0] and [max_floor >= 2], [SingleArrivals]
    returns a mapping with the single key 1 holding one person, created by
    the call (a new object; the existing ones are untouched), with start
    floor 1, waiting time 0 and target [(r mod (max_floor - 1)) + 2], a floor
    between 2 and [max_floor].  With [max_floor = 4] the targets of rounds
    0..6 are 2, 3, 4, 2, 3, 4, 2. *)
Theorem SingleArrivals_generate_cycle (max_floor r : Z) (h : heap) :
  0 <= r -> 2 <= max_floor ->
  let p := length h in
  let h' := h ++ [mkPerson 1 (r mod (max_floor - 1) + 2) 0] in
  generate (SingleArrivals max_floor) h r
  = Ok (h', SingleArrivals max_floor, [(1, [p])])
  /\ deref h' p = mkPerson 1 (r mod (max_floor - 1) + 2) 0
  /\ (forall q, (q < length h)%nat -> deref h' q = deref h q)
  /\ 2 <= target (deref h' p) <= max_floor
  /\ map (fun r => arrival_targets (generate (SingleArrivals 4) [] r) 1) (range 7)
     = [[2]; [3]; [4]; [2]; [3]; [4]; [2]].
Proof.
  intros Hr Hmf p h'.
  assert (Hd : deref h' p = mkPerson 1 (r mod (max_floor - 1) + 2) 0)
    by apply deref_new.
  split; [|split; [exact Hd | split; [|split; [|reflexivity]]]].
  - unfold generate, SingleArrivals_generate, py_mod.
    destruct (Z.eqb_spec (max_floor - 1) 0) as [E|_]; [lia|]. simpl.
    unfold group_person. fold h'. fold p. rewrite Hd. reflexivity.
  - intros q Hq. apply deref_old. exact Hq.
  - rewrite Hd; simpl.
    pose proof (Z.mod_pos_bound r (max_floor - 1)). lia.
Qed.

Lemma SingleArrivals_generate_cycle_witness :
  0 <= 5 /\ 2 <= 4
  /\ generate (SingleArrivals 4) [mkPerson 1 2 3] 5
     = Ok ([mkPerson 1 2 3; mkPerson 1 4 0], SingleArrivals 4, [(1, [1%nat])]).
Proof.
  split; [lia|]. split; [lia|].
  exact (proj1 (SingleArrivals_generate_cycle 4 5 [mkPerson 1 2 3]
                  ltac:(lia) ltac:(lia))).
Defined.

(** C5.  For every elevator without passengers [FurthestFloor] follows the
    written rule, on a waiting table whose floors are stored in ascending
    order: an idle elevator gets the farthest floor with somebody waiting,
    the lowest on a tie, or its current floor when nobody waits; a moving
    one keeps its target.  Every waiting table the simulation hands to the
    algorithm is of that kind (it holds the floors 1..num_floors in the
    order the constructor entered them).  An idle elevator at floor 3 with
    people waiting at floors 1 and 5 gets target floor 1. *)
Theorem FurthestFloor_empty_elevator (h : heap) (table : Dict.t (list pid))
    (max_floor : Z) (es : list Elevator) :
  StronglySorted Z.lt (Dict.keys table) ->
  (exists es',
     update_target_floors FurthestFloor h es table max_floor = Ok es'
     /\ Forall2 (fun e e' => passengers e = [] -> empty_elevator_rule table e e')
                es es')
  /\ (forall config h0 w,
        reachable (h0, new_Simulation config) w ->
        StronglySorted Z.lt (Dict.keys (waiting (snd w))))
  /\ update_target_floors FurthestFloor [mkPerson 1 2 0; mkPerson 5 4 0]
       [mkElevator 2 3 3 []]
       [(1, [0%nat]); (2, []); (3, []); (4, []); (5, [1%nat])] 5
     = Ok [mkElevator 2 3 1 []].
Proof.
  intros Hsorted. split; [|split; [|reflexivity]].
  - unfold update_target_floors.
    destruct (FurthestFloor_loop h table es) as (es' & H & HF).
    rewrite H; simpl. exists es'. split; [reflexivity|].
    clear H. induction HF as [|e e' es es' He HF IH]; constructor; [|exact IH].
    intros Hp. apply (FurthestFloor_empty_rule h); assumption.
  - intros config h0 w Hr. rewrite (reachable_keys config h0 w Hr).
    apply floors_sorted.
Qed.

Lemma FurthestFloor_empty_elevator_witness :
  StronglySorted Z.lt (Dict.keys [(1, [0%nat]); (2, @nil pid); (3, []); (4, []); (5, [1%nat])])
  /\ exists es',
       update_target_floors FurthestFloor [mkPerson 1 2 0; mkPerson 5 4 0]
         [mkElevator 2 3 3 []]
         [(1, [0%nat]); (2, []); (3, []); (4, []); (5, [1%nat])] 5 = Ok es'
       /\ Forall2
            (fun e e' =>
               passengers e = [] ->
               empty_elevator_rule
                 [(1, [0%nat]); (2, []); (3, []); (4, []); (5, [1%nat])] e e')
            [mkElevator 2 3 3 []] es'.
Proof.
  assert (Hs : StronglySorted Z.lt
                 (Dict.keys [(1, [0%nat]); (2, @nil pid); (3, []); (4, []); (5, [1%nat])])).
  { simpl. repeat (constructor; try lia). }
  split; [exact Hs|].
  exact (proj1 (FurthestFloor_empty_elevator [mkPerson 1 2 0; mkPerson 5 4 0]
                  [(1, [0%nat]); (2, []); (3, []); (4, []); (5, [1%nat])] 5
                  [mkElevator 2 3 3 []] Hs)).
Defined.

(** C6, as the code has it.  [run] keeps no record of having been called:
    a second call on the state the first one left runs its rounds again,
    with the round index starting at 0 once more, and returns statistics
    over everything accumulated.  With [SingleArrivals] in a building with
    at least one floor both calls return, and the second one reports the
    people of both. *)
Theorem run_again_runs_again (config : Config) (h0 : heap) (max_floor n m : Z) :
  cfg_arrival_generator config = SingleArrivals max_floor ->
  2 <= max_floor ->
  1 <= cfg_num_floors config ->
  1 <= n -> 1 <= m ->
  exists w1 stats1 w2 stats2,
    run (h0, new_Simulation config) n = Ok (w1, stats1)
    /\ run w1 m = Ok (w2, stats2)
    /\ for_each (range m) round w1 = Ok w2
    /\ stat stats1 "total_people" = Some n
    /\ stat stats2 "num_rounds" = Some m
    /\ stat stats2 "total_people" = Some (n + m).
Proof.
  intros Hg Hmf Hnf Hn1 Hm1.
  assert (Hn : 0 <= n) by lia. assert (Hm : 0 <= m) by lia.
  assert (Hk0 : Dict.keys (waiting (new_Simulation config))
                = floors (cfg_num_floors config)) by apply new_Simulation_keys.
  assert (Hwf0 : NoDup (floors (cfg_num_floors config)))
    by apply sorted_NoDup, floors_sorted.
  assert (H10 : In 1 (floors (cfg_num_floors config))).
  { unfold floors, range. apply in_map_iff. exists 0. split; [reflexivity|].
    apply in_map_iff. exists 0%nat. split; [reflexivity|]. apply in_seq. lia. }
  destruct (run_single max_floor n (h0, new_Simulation config) Hmf Hn)
    as (w1 & st1 & Hr1 & _ & Hg1 & Hk1 & _ & Ht1).
  { exact Hg. }
  { unfold Dict.wf. simpl snd. rewrite Hk0. exact Hwf0. }
  { simpl snd. rewrite Hk0. exact H10. }
  simpl snd in Hk1. rewrite Hk0 in Hk1.
  destruct (run_single max_floor m w1 Hmf Hm Hg1) as (w2 & st2 & Hr2 & Hrs & _ & _ & Hn2 & Ht2).
  { unfold Dict.wf. rewrite Hk1. exact Hwf0. }
  { rewrite Hk1. exact H10. }
  exists w1, st1, w2, st2.
  split; [exact Hr1|]. split; [exact Hr2|]. split; [exact Hrs|].
  split; [exact Ht1|]. split; [exact Hn2|].
  rewrite Ht2. f_equal.
  (* the people the first call counted are the people the second starts with *)
  unfold run in Hr1. apply bind_ok in Hr1. destruct Hr1 as (w1' & Hrounds & Hst).
  apply bind_ok in Hst. destruct Hst as (st & Hst & Heq). injection Heq as <- <-.
  destruct w1' as [h1 s1].
  destruct (calculate_stats_shape h1 s1 n) as (mx & av & Hs & _).
  rewrite Hs in Hst. injection Hst as <-. simpl in Ht1. injection Ht1 as Ht1.
  simpl. lia.
Qed.

Lemma run_again_runs_again_witness :
  cfg_arrival_generator (mkConfig 6 2 2 (SingleArrivals 6) EndToEndLoop)
  = SingleArrivals 6
  /\ 2 <= 6
  /\ 1 <= cfg_num_floors (mkConfig 6 2 2 (SingleArrivals 6) EndToEndLoop)
  /\ 1 <= 5
  /\ exists w1 stats1 w2 stats2,
       run ([], new_Simulation (mkConfig 6 2 2 (SingleArrivals 6) EndToEndLoop)) 5
       = Ok (w1, stats1)
       /\ run w1 5 = Ok (w2, stats2)
       /\ stat stats2 "total_people" = Some 10.
Proof.
  split; [reflexivity|]. split; [lia|]. split; [simpl; lia|]. split; [lia|].
  destruct (run_again_runs_again (mkConfig 6 2 2 (SingleArrivals 6) EndToEndLoop)
              [] 6 5 5 eq_refl ltac:(lia) ltac:(simpl; lia) ltac:(lia) ltac:(lia))
    as (w1 & st1 & w2 & st2 & H1 & H2 & _ & _ & _ & H3).
  exists w1, st1, w2, st2. auto.
Defined.

(** C6, as written (a second call of [run] is rejected), fails: on the
    configuration of the sample tests the second call returns, has run five
    more rounds on the state of the first, and reports ten arrivals. *)
Lemma run_second_call_not_rejected :
  let w0 := ([], new_Simulation (mkConfig 6 2 2 (SingleArrivals 6) EndToEndLoop)) in
  exists w1 stats1 w2 stats2,
    run w0 5 = Ok (w1, stats1)
    /\ run w1 5 = Ok (w2, stats2)
    /\ (forall e, run w1 5 <> Raise e)
    /\ w2 <> w1
    /\ stats1 = [("num_rounds"%string, 5); ("total_people"%string, 5);
                 ("people_completed"%string, 1); ("max_time"%string, 1);
                 ("avg_time"%string, 1)]
    /\ stats2 = [("num_rounds"%string, 5); ("total_people"%string, 10);
                 ("people_completed"%string, 1); ("max_time"%string, 1);
                 ("avg_time"%string, 1)].
Proof.
  do 4 eexists. split; [vm_compute; reflexivity|].
  split; [vm_compute; reflexivity|].
  split; [intros e; vm_compute; discriminate|].
  split; [intros H; discriminate H|]. split; reflexivity.
Qed.

(** C7, as stated, fails where the binary64 quotient is not exact: one
    person who starts the run with a [wait_time] of 2^53 completes in the
    second round with 2^53 + 1, the only waiting time there is, and [run]
    reports an [avg_time] of 2^53 beside a [max_time] of 2^53 + 1; the
    truncated mean is 2^53 + 1. *)
Lemma avg_time_not_truncated_mean :
  let config := mkConfig 2 1 1 (FileArrivals 2 [(0, [0%nat])]) EndToEndLoop in
  let h0 := [mkPerson 1 2 (2 ^ 53)] in
  exists w stats,
    run (h0, new_Simulation config) 2 = Ok (w, stats)
    /\ (let wait_times :=
          map (fun p => wait_time (deref (fst w) p)) (reached_dest (snd w)) in
        wait_times = [2 ^ 53 + 1]
        /\ stat stats "people_completed" = Some 1
        /\ stat stats "max_time" = Some (2 ^ 53 + 1)
        /\ stat stats "avg_time" = Some (2 ^ 53)
        /\ stat stats "avg_time"
           <> Some (Z.quot (PyList.sum wait_times) (PyList.len wait_times))).
Proof.
  cbv zeta. do 2 eexists. split; [vm_compute; reflexivity|].
  repeat split; try (vm_compute; reflexivity).
  vm_compute. discriminate.
Qed.

(** C7, as the code has it.  When the waiting times of the people in
    [reached_dest] sum to less than 2^53 in absolute value,
    [_calculate_stats] returns a mapping with exactly the keys num_rounds,
    total_people, people_completed, max_time and avg_time, holding the
    round count it was given, the lengths of [total_people] and
    [reached_dest], and, over those waiting times, their maximum and the
    truncated quotient of their sum by their number, or -1 and -1 when
    nobody completed.  [run], asked for at least one round, executes
    [num_rounds] rounds and returns these statistics of the state the
    rounds end in.  [total_people] grows by the arrivals of each Arrivals
    stage and [reached_dest] by the passengers each Disembark stage finds
    at their target floor, and by nothing else. *)
Theorem calculate_stats_spec (h : heap) (s : Simulation) (num_rounds : Z) :
  let wait_times := map (fun p => wait_time (deref h p)) (reached_dest s) in
  Z.abs (PyList.sum wait_times) < 2 ^ 53 ->
  exists max_time avg_time,
    _calculate_stats (h, s) num_rounds
    = Ok [("num_rounds"%string, num_rounds);
          ("total_people"%string, PyList.len (total_people s));
          ("people_completed"%string, PyList.len (reached_dest s));
          ("max_time"%string, max_time);
          ("avg_time"%string, avg_time)]
    /\ match reached_dest s with
       | [] => max_time = -1 /\ avg_time = -1
       | _ :: _ =>
           In max_time wait_times
           /\ (forall t, In t wait_times -> t <= max_time)
           /\ avg_time = Z.quot (PyList.sum wait_times) (PyList.len (reached_dest s))
       end
    /\ length (range num_rounds) = Z.to_nat num_rounds
    /\ (forall w0,
          1 <= num_rounds ->
          for_each (range num_rounds) round w0 = Ok (h, s) ->
          run w0 num_rounds
          = Ok ((h, s),
                [("num_rounds"%string, num_rounds);
                 ("total_people"%string, PyList.len (total_people s));
                 ("people_completed"%string, PyList.len (reached_dest s));
                 ("max_time"%string, max_time);
                 ("avg_time"%string, avg_time)]))
    /\ (forall st w w', exec_stage st w = Ok w' -> people_step st w w').
Proof.
  intros wait_times Hbound.
  destruct (calculate_stats_shape h s num_rounds) as (mx & av & Hs & Hm).
  exists mx, av. split; [exact Hs|]. split.
  { fold wait_times in Hm. destruct (reached_dest s) as [|p rd]; [exact Hm|].
    destruct Hm as (Hin & Hge & Hav). split; [exact Hin|]. split; [exact Hge|].
    rewrite int_truediv_exact in Hav;
      [injection Hav as <-; reflexivity | exact Hbound |].
    unfold PyList.len. simpl length. lia. }
  split; [apply range_length|]. split; [|apply exec_stage_people].
  intros w0 _ Hrun. unfold run. rewrite Hrun. cbn [bind]. rewrite Hs. reflexivity.
Qed.

Lemma calculate_stats_spec_witness :
  let h := [mkPerson 1 3 4; mkPerson 1 2 7; mkPerson 1 3 0] in
  let s := mkSimulation (SingleArrivals 3) [mkElevator 2 2 3 []] EndToEndLoop 3
             [(1, [2%nat]); (2, []); (3, [])] [0%nat; 1%nat; 2%nat]
             [1%nat; 0%nat] in
  Z.abs (PyList.sum (map (fun p => wait_time (deref h p)) (reached_dest s))) < 2 ^ 53
  /\ exists max_time avg_time,
       _calculate_stats (h, s) 9
       = Ok [("num_rounds"%string, 9); ("total_people"%string, 3);
             ("people_completed"%string, 2);
             ("max_time"%string, max_time); ("avg_time"%string, avg_time)]
       /\ avg_time = 5.
Proof.
  cbv zeta.
  assert (Hb : Z.abs (PyList.sum
                        (map (fun p => wait_time
                                         (deref [mkPerson 1 3 4; mkPerson 1 2 7;
                                                 mkPerson 1 3 0] p))
                             [1%nat; 0%nat])) < 2 ^ 53)
    by (vm_compute; reflexivity).
  split; [exact Hb|].
  destruct (calculate_stats_spec
              [mkPerson 1 3 4; mkPerson 1 2 7; mkPerson 1 3 0]
              (mkSimulation (SingleArrivals 3) [mkElevator 2 2 3 []] EndToEndLoop 3
                 [(1, [2%nat]); (2, []); (3, [])] [0%nat; 1%nat; 2%nat]
                 [1%nat; 0%nat]) 9 Hb) as (mx & av & Hs & (_ & _ & Hav) & _).
  exists mx, av. split; [exact Hs | exact Hav].
Defined.

(** C8.  [FileArrivals.generate] never raises.  For a round without an entry
    it returns the empty mapping (and enters the round with an empty list
    into its schedule); for a scheduled round it returns, under every start
    floor somebody of that round has, the people of the round with that
    start floor in schedule order, and no other key. *)
Theorem FileArrivals_generate_groups (max_floor : Z)
    (arrival_data : Dict.t (list pid)) (h : heap) (r : Z) :
  exists data' dic,
    generate (FileArrivals max_floor arrival_data) h r
    = Ok (h, FileArrivals max_floor data', dic)
    /\ match Dict.find arrival_data r with
       | None => dic = [] /\ data' = Dict.set arrival_data r []
       | Some people =>
           data' = arrival_data
           /\ Dict.wf dic
           /\ forall k, Dict.find dic k
                        = match group_of h people k with
                          | [] => None
                          | g => Some g
                          end
       end.
Proof.
  unfold generate, FileArrivals_generate, Dict.mem.
  destruct (Dict.find arrival_data r) as [people|] eqn:Hf; simpl.
  - rewrite (get_find _ _ _ Hf). simpl. do 2 eexists. split; [reflexivity|].
    split; [reflexivity|].
    destruct (group_fold h people Dict.empty) as (Hwf & Hfind & Hkeys);
      [constructor|].
    split; [exact Hwf|]. intros k.
    specialize (Hfind k). specialize (Hkeys k). unfold find_list in Hfind.
    simpl in Hfind, Hkeys.
    destruct (Dict.find (fold_left (group_person h) people Dict.empty) k) as [l|] eqn:E.
    + rewrite <- Hfind.
      assert (Hne : l <> []).
      { rewrite Hfind. assert (Hin : In k (Dict.keys (fold_left (group_person h) people Dict.empty)))
          by (apply find_keys; eauto).
        apply Hkeys in Hin. destruct Hin as [[]|Hin]. exact Hin. }
      destruct l; [congruence | reflexivity].
    + destruct (group_of h people k) as [|q g] eqn:G; [reflexivity|].
      exfalso.
      assert (Hin : In k (Dict.keys (fold_left (group_person h) people Dict.empty)))
        by (apply Hkeys; right; discriminate).
      apply find_keys in Hin. destruct Hin as (v & Hv). congruence.
  - unfold Dict.get. rewrite find_set_same. simpl.
    do 2 eexists. split; [reflexivity|]. split; reflexivity.
Qed.

(** C9.  [update_target_floors] of either algorithm returns (it never
    raises), and the elevators after the call have the capacities, current
    floors and passenger lists they had before; in the simulation the call
    leaves the object store, the waiting table and every other attribute as
    they were.  The outcome is a function of the arguments. *)
Theorem update_target_floors_frame (alg : MovingAlgorithm) (h : heap)
    (es : list Elevator) (waiting : Dict.t (list pid)) (max_floor : Z)
    (g : ArrivalGenerator) (tp rd : list pid) :
  exists es',
    update_target_floors alg h es waiting max_floor = Ok es'
    /\ map capacity es' = map capacity es
    /\ map current_floor es' = map current_floor es
    /\ map passengers es' = map passengers es
    /\ retarget (h, mkSimulation g es alg max_floor waiting tp rd)
       = Ok (h, mkSimulation g es' alg max_floor waiting tp rd)
    /\ forall r, update_target_floors alg h es waiting max_floor = r -> r = Ok es'.
Proof.
  destruct (update_target_floors_total alg h es waiting max_floor) as (es' & H & HF).
  destruct (retargeted_fields es es' HF) as (H1 & H2 & H3).
  exists es'. repeat split; auto.
  - unfold retarget; simpl. rewrite H. reflexivity.
  - intros r <-. exact H.
Qed.



(* ================================================================== *)
(** * Further properties of the code *)

(** ** Entities *)

Lemma get_anger_level_cases (p : Person) :
  get_anger_level p
  = if wait_time p <? 0 then 4
    else if wait_time p <=? 2 then 0
    else if wait_time p <=? 4 then 1
    else if wait_time p <=? 6 then 2
    else if wait_time p <=? 8 then 3
    else 4.
Proof.
  unfold get_anger_level, PyList.contains. cbn [existsb].
  generalize (wait_time p). intros x.
  repeat match goal with
         | |- context [?a =? ?b] => destruct (Z.eqb_spec a b); [subst; reflexivity|]
         end.
  cbn [orb].
  repeat match goal with
         | |- context [?a <? ?b] => destruct (Z.ltb_spec a b)
         | |- context [?a <=? ?b] => destruct (Z.leb_spec a b)
         end; try reflexivity; lia.
Qed.

(** X1.  [get_anger_level] is the documented step function of the waiting
    time on the non-negative integers (0 for 0..2, 1 for 3..4, 2 for 5..6,
    3 for 7..8, 4 from 9 on), it never decreases when the waiting time
    grows, and it always lies between 0 and 4. *)
Theorem get_anger_level_steps (p q : Person) :
  0 <= wait_time p <= wait_time q ->
  (get_anger_level p = 0 <-> wait_time p <= 2)
  /\ (get_anger_level p = 1 <-> 3 <= wait_time p <= 4)
  /\ (get_anger_level p = 2 <-> 5 <= wait_time p <= 6)
  /\ (get_anger_level p = 3 <-> 7 <= wait_time p <= 8)
  /\ (get_anger_level p = 4 <-> 9 <= wait_time p)
  /\ get_anger_level p <= get_anger_level q
  /\ 0 <= get_anger_level p <= 4.
Proof.
  intros Hw. rewrite !get_anger_level_cases.
  repeat match goal with
         | |- context [?a <? ?b] => destruct (Z.ltb_spec a b)
         | |- context [?a <=? ?b] => destruct (Z.leb_spec a b)
         end; lia.
Qed.

Lemma get_anger_level_steps_witness :
  0 <= wait_time (mkPerson 1 5 5) <= wait_time (mkPerson 2 1 7)
  /\ get_anger_level (mkPerson 1 5 5) <= get_anger_level (mkPerson 2 1 7).
Proof.
  assert (H : 0 <= wait_time (mkPerson 1 5 5) <= wait_time (mkPerson 2 1 7))
    by (simpl; lia).
  split; [exact H|].
  exact (proj1 (proj2 (proj2 (proj2 (proj2 (proj2
           (get_anger_level_steps (mkPerson 1 5 5) (mkPerson 2 1 7) H))))))).
Defined.

(** ** Stages *)

(** X2.  [handle_disembarking] never raises.  It leaves on every elevator
    the passengers whose target is not the elevator's floor, in their
    order, so that afterwards no passenger stands at their target; those it
    removed are appended to [reached_dest], elevator by elevator, in
    passenger order; nothing else in the simulation changes. *)
Theorem handle_disembarking_effect (h : heap) (s : Simulation) :
  exists es rd,
    handle_disembarking (h, s)
    = Ok (h, mkSimulation (arrival_generator s) es (moving_algorithm s)
               (num_floors s) (waiting s) (total_people s) rd)
    /\ Forall2 (fun e e' =>
                  e' = set_passengers e
                         (filter (fun p => negb (arrived h e p)) (passengers e)))
               (elevators s) es
    /\ (forall e' p, In e' es -> In p (passengers e') ->
          target (deref h p) <> current_floor e')
    /\ rd = reached_dest s
            ++ flat_map (fun e => filter (arrived h e) (passengers e)) (elevators s)
    /\ (forall p, In p rd ->
          In p (reached_dest s)
          \/ exists e, In e (elevators s) /\ In p (passengers e)
                       /\ target (deref h p) = current_floor e).
Proof.
  rewrite handle_disembarking_spec. do 2 eexists. split; [reflexivity|].
  split; [|split; [|split; [reflexivity|]]].
  - induction (elevators s) as [|e es IH]; simpl; constructor; auto.
  - intros e' p He' Hp. apply in_map_iff in He'. destruct He' as (e & <- & _).
    simpl in Hp |- *. apply filter_In in Hp. destruct Hp as [_ Hp].
    unfold arrived in Hp. apply negb_true_iff in Hp.
    apply Z.eqb_neq in Hp. congruence.
  - intros p Hp. apply in_app_or in Hp. destruct Hp as [Hp|Hp]; [left; exact Hp|].
    right. apply in_flat_map in Hp. destruct Hp as (e & He & Hp).
    apply filter_In in Hp. destruct Hp as [Hp Ha].
    exists e. split; [exact He|]. split; [exact Hp|].
    unfold arrived in Ha. apply Z.eqb_eq in Ha. congruence.
Qed.

(** X3.  On a waiting table without repeated keys the stages Disembark,
    Board, Move and Tick always return: the [remove] calls, the [max] and
    [min] calls and the subscripts inside them never raise.  A round that
    raises therefore raises in its Arrivals stage, after disembarking. *)
Theorem round_raises_in_arrivals (i : Z) (w : World) (e : exn) :
  Dict.wf (waiting (snd w)) ->
  round i w = Raise e ->
  (exists w1, handle_disembarking w = Ok w1 /\ generate_arrivals i w1 = Raise e)
  /\ (exists w', exec_stage Disembark w = Ok w')
  /\ (exists w', exec_stage Board w = Ok w')
  /\ (exists w', exec_stage Move w = Ok w')
  /\ (exists w', exec_stage Tick w = Ok w').
Proof.
  destruct w as [h s]. cbn [snd]. intros Hwf Hr.
  destruct (handle_disembarking_total h s) as (es1 & rd1 & Hd).
  split; [|split; [|split; [|split]]].
  - unfold round, round_stages in Hr. cbn [for_each exec_stage] in Hr.
    rewrite Hd in Hr. cbn [bind] in Hr.
    eexists. split; [exact Hd|].
    destruct (generate_arrivals i _) as [[h2 s2]|e2] eqn:Ha.
    + exfalso. cbn [bind] in Hr.
      apply generate_arrivals_keys in Ha. simpl in Ha.
      destruct (handle_boarding_total h2 s2) as (es3 & wt3 & Hb & Hk3).
      { unfold Dict.wf. rewrite Ha. exact Hwf. }
      rewrite Hb in Hr. cbn [bind] in Hr.
      match type of Hr with
      | context [move_elevators (h2, ?s3)] =>
          destruct (move_elevators_total h2 s3) as (es4 & Hm)
      end.
      rewrite Hm in Hr. cbn [bind] in Hr.
      match type of Hr with
      | context [update_wait_times (h2, ?s4)] =>
          destruct (update_wait_times_total h2 s4) as (h5 & Ht)
      end.
      rewrite Ht in Hr. cbn [bind] in Hr. discriminate.
    + cbn [bind] in Hr. congruence.
  - cbn [exec_stage]. rewrite Hd. eauto.
  - cbn [exec_stage]. destruct (handle_boarding_total h s Hwf) as (es & wt & Hb & _).
    rewrite Hb. eauto.
  - cbn [exec_stage]. destruct (move_elevators_total h s) as (es & Hm).
    rewrite Hm. eauto.
  - cbn [exec_stage]. destruct (update_wait_times_total h s) as (h' & Ht).
    rewrite Ht. eauto.
Qed.

Lemma round_raises_in_arrivals_witness :
  let '(h, g) := new_FileArrivals 5 [(0, [(9, 1)])] [] in
  let w := (h, new_Simulation (mkConfig 5 1 2 g FurthestFloor)) in
  Dict.wf (waiting (snd w))
  /\ round 0 w = Raise KeyError
  /\ exists w1, handle_disembarking w = Ok w1
                /\ generate_arrivals 0 w1 = Raise KeyError.
Proof.
  cbv beta iota delta [new_FileArrivals]. simpl fold_left.
  assert (Hwf : Dict.wf (waiting (new_Simulation
                  (mkConfig 5 1 2 (FileArrivals 5 [(0, [0%nat])]) FurthestFloor)))).
  { unfold Dict.wf. rewrite new_Simulation_keys. apply sorted_NoDup, floors_sorted. }
  split; [exact Hwf|]. split; [reflexivity|].
  exact (proj1 (round_raises_in_arrivals 0
                  ([mkPerson 9 1 0],
                   new_Simulation (mkConfig 5 1 2 (FileArrivals 5 [(0, [0%nat])])
                                            FurthestFloor))
                  KeyError Hwf eq_refl)).
Defined.

Lemma board_elevator_fields (h : heap) (e e' : Elevator)
    (wt wt' : Dict.t (list pid)) :
  board_elevator h e wt = Ok (e', wt') ->
  capacity e' = capacity e
  /\ current_floor e' = current_floor e
  /\ target_floor e' = target_floor e.
Proof.
  unfold board_elevator. intros H.
  apply bind_ok in H. destruct H as ([e1 boarded] & Hscan & H).
  apply bind_ok in H. destruct H as (wt1 & _ & H). injection H as <- <-.
  unfold board_scan in Hscan. revert Hscan.
  apply for_each_inv
    with (P := fun st : Elevator * Dict.t (list pid) =>
                 capacity (fst st) = capacity e
                 /\ current_floor (fst st) = current_floor e
                 /\ target_floor (fst st) = target_floor e).
  - intros key st st' _ Hst Hb.
    destruct (current_floor (fst st) =? key).
    + apply bind_ok in Hb. destruct Hb as (l & _ & Hb). injection Hb as <-.
      clear - Hst. revert st Hst. induction l as [|p l IH]; intros st Hst; simpl.
      * exact Hst.
      * apply IH. destruct st as [e0 b0]. unfold board_person. simpl in Hst |- *.
        destruct (direction_ok _ _ _); [|exact Hst].
        destruct (_ <? _); exact Hst.
    + injection Hb as <-. exact Hst.
  - simpl. auto.
Qed.

(** X4.  No stage changes the number of elevators or a capacity, and only
    the Move stage changes a current or target floor: it gives the elevator
    a target and moves it exactly one floor towards that target (not at all
    when it is there), leaving its passengers as they are.  So no elevator
    ever moves more than one floor in a stage. *)
Theorem exec_stage_floor_step (st : stage) (w w' : World) :
  exec_stage st w = Ok w' ->
  Forall2 (floor_step st) (elevators (snd w)) (elevators (snd w'))
  /\ Forall2 (fun e e' => Z.abs (current_floor e' - current_floor e) <= 1)
             (elevators (snd w)) (elevators (snd w')).
Proof.
  intros H.
  assert (HF : Forall2 (floor_step st) (elevators (snd w)) (elevators (snd w'))).
  { destruct w as [h s], w' as [h' s']. cbn [fst snd].
    destruct st; cbn [exec_stage] in H.
    - rewrite handle_disembarking_spec in H. injection H as <- <-. simpl.
      induction (elevators s) as [|e es IH]; simpl; constructor; [|exact IH].
      repeat split.
    - unfold generate_arrivals in H.
      apply bind_ok in H. destruct H as ([[h1 g1] arr] & _ & H).
      apply bind_ok in H. destruct H as ([wt tp] & _ & H). injection H as <- <-.
      simpl. induction (elevators s) as [|e es IH]; constructor; [|exact IH].
      repeat split.
    - unfold handle_boarding in H.
      apply bind_ok in H. destruct H as ([es wt] & H1 & H). injection H as <- <-.
      simpl.
      apply for_elevators_inv
        with (P := fun _ : Dict.t (list pid) => True) (Q := floor_step Board)
        in H1; [apply H1 | | exact I].
      intros e r e' r' _ _ Hb. split; [|exact I].
      apply board_elevator_fields in Hb. unfold floor_step. tauto.
    - unfold move_elevators, retarget in H.
      destruct (update_target_floors_total (moving_algorithm s) h (elevators s)
                  (waiting s) (num_floors s)) as (es1 & Hu & HR).
      rewrite Hu in H. simpl in H. injection H as <- <-. simpl.
      clear Hu. induction HR as [|e e1 es es1 (t & ->) HR IH]; simpl; constructor;
        [|exact IH].
      unfold floor_step, move_elevator. simpl.
      destruct (Z.gtb_spec (current_floor e) t) as [Hgt|Hle]; simpl.
      + split; [reflexivity|]. exists t. repeat split. lia.
      + destruct (Z.ltb_spec (current_floor e) t) as [Hlt|Hge]; simpl.
        * split; [reflexivity|]. exists t. repeat split. lia.
        * split; [reflexivity|]. exists t. repeat split. lia.
    - unfold update_wait_times in H.
      apply bind_ok in H. destruct H as (h2 & _ & H). injection H as <- <-.
      induction (elevators s) as [|e es IH]; constructor; [|exact IH].
      repeat split. }
  split; [exact HF|].
  clear H. induction HF as [|e e' es es' He HF IH]; constructor; [|exact IH].
  destruct He as [_ He]. destruct st.
  1-3, 5: destruct He as [-> _]; lia.
  destruct He as (t & _ & -> & _). lia.
Qed.

Lemma exec_stage_floor_step_witness :
  let w := ([mkPerson 1 4 0],
            mkSimulation (SingleArrivals 5) [mkElevator 2 1 1 [0%nat]] FurthestFloor 5
                         [(1, []); (2, []); (3, []); (4, []); (5, [])] [0%nat] []) in
  exists w',
    exec_stage Move w = Ok w'
    /\ elevators (snd w') = [mkElevator 2 2 4 [0%nat]]
    /\ Forall2 (floor_step Move) (elevators (snd w)) (elevators (snd w')).
Proof.
  eexists. split; [vm_compute; reflexivity|]. split; [reflexivity|].
  refine (proj1 (exec_stage_floor_step Move _ _ _)). vm_compute. reflexivity.
Defined.

(** ** Moving algorithms *)



(** ** Waiting times *)

Lemma tick_length (h : heap) : forall p, length (tick h p) = length h.
Proof.
  induction h as [|x h IH]; intros p; simpl; [reflexivity|].
  destruct p; simpl; [reflexivity | rewrite IH; reflexivity].
Qed.

Lemma tick_deref (h : heap) :
  forall p q,
    start (deref (tick h q) p) = start (deref h p)
    /\ target (deref (tick h q) p) = target (deref h p)
    /\ wait_time (deref (tick h q) p)
       = wait_time (deref h p)
         + (if Nat.eqb q p && (p <? length h)%nat then 1 else 0).
Proof.
  unfold deref. induction h as [|x h IH]; intros p q.
  - simpl. rewrite andb_false_r. destruct p; simpl; repeat split; lia.
  - destruct q as [|q], p as [|p]; simpl.
    + repeat split; lia.
    + repeat split; lia.
    + repeat split; lia.
    + destruct (IH p q) as (H1 & H2 & H3). rewrite H1, H2, H3.
      repeat split.
Qed.

Lemma fold_tick (l : list pid) :
  forall (h : heap) (p : pid),
    length (fold_left tick l h) = length h
    /\ start (deref (fold_left tick l h) p) = start (deref h p)
    /\ target (deref (fold_left tick l h) p) = target (deref h p)
    /\ wait_time (deref (fold_left tick l h) p)
       = wait_time (deref h p)
         + (if (p <? length h)%nat then Z.of_nat (count_occ Nat.eq_dec l p) else 0).
Proof.
  induction l as [|q l IH]; intros h p; cbn [fold_left count_occ].
  - repeat split. destruct (p <? length h)%nat; simpl; lia.
  - destruct (IH (tick h q) p) as (H1 & H2 & H3 & H4).
    destruct (tick_deref h p q) as (T1 & T2 & T3).
    rewrite H1, H2, H3, H4, T1, T2, T3, tick_length.
    repeat split.
    destruct (Nat.eq_dec q p) as [->|Hne].
    + rewrite Nat.eqb_refl. simpl andb.
      destruct (p <? length h)%nat; lia.
    + apply Nat.eqb_neq in Hne. rewrite Hne. simpl andb.
      destruct (p <? length h)%nat; lia.
Qed.

Lemma fold_tick_flat_map {A : Type} (f : A -> list pid) (l : list A) :
  forall h : heap,
    fold_left (fun h x => fold_left tick (f x) h) l h
    = fold_left tick (flat_map f l) h.
Proof.
  induction l as [|x l IH]; intros h; simpl; [reflexivity|].
  rewrite fold_left_app. apply IH.
Qed.

Lemma update_wait_times_spec (h : heap) (s : Simulation) :
  update_wait_times (h, s) = Ok (fold_left tick (riders_and_waiters s) h, s).
Proof.
  unfold update_wait_times, riders_and_waiters.
  rewrite for_each_pure
    with (f := fun h key => fold_left tick (find_list (waiting s) key) h).
  - simpl. rewrite fold_left_app, !fold_tick_flat_map. reflexivity.
  - intros key h1 Hk. apply find_keys in Hk. destruct Hk as (l & Hl).
    rewrite (get_find _ _ _ Hl). unfold find_list. rewrite Hl. reflexivity.
Qed.

(** X6.  [update_wait_times] never raises, creates and destroys nobody and
    changes no start or target floor.  The waiting time of a person grows
    by the number of times the person is listed as a passenger or as
    waiting (by 1 for a person listed once), and stays as it is for
    everybody else, the people in [reached_dest] included. *)
Theorem update_wait_times_effect (h : heap) (s : Simulation) :
  exists h',
    update_wait_times (h, s) = Ok (h', s)
    /\ length h' = length h
    /\ forall p, (p < length h)%nat ->
         start (deref h' p) = start (deref h p)
         /\ target (deref h' p) = target (deref h p)
         /\ wait_time (deref h' p)
            = wait_time (deref h p)
              + Z.of_nat (count_occ Nat.eq_dec (riders_and_waiters s) p)
         /\ (~ In p (riders_and_waiters s) -> deref h' p = deref h p).
Proof.
  rewrite update_wait_times_spec. eexists. split; [reflexivity|].
  split; [apply fold_tick; exact O|].
  intros p Hp.
  destruct (fold_tick (riders_and_waiters s) h p) as (H1 & H2 & H3 & H4).
  apply Nat.ltb_lt in Hp. rewrite Hp in H4.
  split; [exact H2|]. split; [exact H3|]. split; [exact H4|].
  intros Hn. apply (count_occ_not_In Nat.eq_dec) in Hn. rewrite Hn in H4.
  destruct (deref (fold_left tick (riders_and_waiters s) h) p) as [a b c],
           (deref h p) as [a' b' c'].
  simpl in *. f_equal; lia.
Qed.

(** ** Arrivals *)

Lemma generate_wf (g : ArrivalGenerator) (h h1 : heap) (i : Z)
    (g1 : ArrivalGenerator) (arr : Dict.t (list pid)) :
  generate g h i = Ok (h1, g1, arr) -> Dict.wf arr.
Proof.
  destruct g as [mf|mf data]; unfold generate; intros H.
  - apply bind_ok in H. destruct H as ([h2 dic] & Hs & H). injection H as <- <- <-.
    unfold SingleArrivals_generate in Hs.
    apply bind_ok in Hs. destruct Hs as (m & _ & Hs). simpl in Hs.
    injection Hs as <- <-.
    apply group_person_keys. constructor.
  - apply bind_ok in H. destruct H as ([data1 dic] & Hs & H). injection H as <- <- <-.
    unfold FileArrivals_generate in Hs.
    apply bind_ok in Hs. destruct Hs as (people & _ & Hs). injection Hs as <- <-.
    apply group_fold. constructor.
Qed.

Lemma find_list_nokey (d : Dict.t (list pid)) (k : Z) :
  ~ In k (Dict.keys d) -> find_list d k = [].
Proof.
  intros Hn. unfold find_list. destruct (Dict.find d k) as [l|] eqn:E; [|reflexivity].
  exfalso. apply Hn. apply find_keys. eauto.
Qed.

Lemma find_list_set_other (d : Dict.t (list pid)) (k k0 : Z) (v : list pid) :
  k0 <> k -> find_list (Dict.set d k v) k0 = find_list d k0.
Proof. intros Hne. unfold find_list. rewrite find_set_other by exact Hne. reflexivity. Qed.

(** The loop of [generate_arrivals] when every arrival floor is a key. *)
Lemma arrivals_loop_ok (arr : Dict.t (list pid)) (l : list Z) :
  NoDup l -> (forall k, In k l -> In k (Dict.keys arr)) ->
  forall acc : Dict.t (list pid) * list pid,
    (forall k, In k l -> In k (Dict.keys (fst acc))) ->
    exists wt,
      for_each l
        (fun key (acc : Dict.t (list pid) * list pid) =>
           new <- Dict.get arr key ;;
           l <- Dict.get (fst acc) key ;;
           Ok (Dict.set (fst acc) key (l ++ new), snd acc ++ new))
        acc
      = Ok (wt, snd acc ++ flat_map (find_list arr) l)
      /\ Dict.keys wt = Dict.keys (fst acc)
      /\ forall k, find_list wt k
                   = find_list (fst acc) k
                     ++ (if in_dec Z.eq_dec k l then find_list arr k else []).
Proof.
  induction 1 as [|k0 l Hnin Hnd IH]; intros Harr acc Hacc; cbn [for_each flat_map].
  - exists (fst acc). rewrite app_nil_r. destruct acc; simpl.
    repeat split. intros k. rewrite app_nil_r. reflexivity.
  - destruct (proj1 (find_keys arr k0) (Harr k0 (or_introl eq_refl))) as (new & Hnew).
    destruct (proj1 (find_keys (fst acc) k0) (Hacc k0 (or_introl eq_refl))) as (l0 & Hl0).
    rewrite (get_find _ _ _ Hnew). cbn [bind].
    rewrite (get_find _ _ _ Hl0). cbn [bind].
    assert (Hk1 : Dict.keys (Dict.set (fst acc) k0 (l0 ++ new)) = Dict.keys (fst acc)).
    { apply keys_set_old. apply find_keys. eauto. }
    destruct (IH (fun k Hk => Harr k (or_intror Hk))
                 (Dict.set (fst acc) k0 (l0 ++ new), snd acc ++ new))
      as (wt & Hwt & Hkeys & Hfind).
    { intros k Hk. cbn [fst]. rewrite Hk1. apply Hacc. right; exact Hk. }
    exists wt. cbn [fst snd] in Hwt, Hkeys, Hfind. rewrite Hwt.
    split; [|split].
    + unfold find_list at 2. rewrite Hnew, <- app_assoc. reflexivity.
    + congruence.
    + intros k. rewrite Hfind.
      destruct (Z.eq_dec k0 k) as [->|Hne].
      * rewrite find_list_set_same.
        destruct (in_dec Z.eq_dec k l) as [Hin|_]; [contradiction|].
        destruct (in_dec Z.eq_dec k (k :: l)) as [_|Hn];
          [|exfalso; apply Hn; left; reflexivity].
        unfold find_list. rewrite Hl0, Hnew, app_nil_r. reflexivity.
      * rewrite find_list_set_other by congruence.
        destruct (in_dec Z.eq_dec k l) as [Hin|Hn];
          destruct (in_dec Z.eq_dec k (k0 :: l)) as [Hin'|Hn']; try reflexivity.
        -- exfalso. apply Hn'. right; exact Hin.
        -- exfalso. destruct Hin' as [E|Hin']; [congruence | contradiction].
Qed.

(** The loop when some arrival floor is no key of the waiting table. *)
Lemma arrivals_loop_raise (arr : Dict.t (list pid)) (l : list Z) :
  (forall k, In k l -> In k (Dict.keys arr)) ->
  forall acc : Dict.t (list pid) * list pid,
    (exists k, In k l /\ ~ In k (Dict.keys (fst acc))) ->
    for_each l
      (fun key (acc : Dict.t (list pid) * list pid) =>
         new <- Dict.get arr key ;;
         l <- Dict.get (fst acc) key ;;
         Ok (Dict.set (fst acc) key (l ++ new), snd acc ++ new))
      acc
    = Raise KeyError.
Proof.
  induction l as [|k0 l IH]; intros Harr acc (k & Hk & Hmiss); [contradiction|].
  cbn [for_each].
  destruct (proj1 (find_keys arr k0) (Harr k0 (or_introl eq_refl))) as (new & Hnew).
  rewrite (get_find _ _ _ Hnew). cbn [bind].
  destruct (Dict.find (fst acc) k0) as [l0|] eqn:Hl0.
  - rewrite (get_find _ _ _ Hl0). cbn [bind].
    apply IH; [intros; apply Harr; right; assumption|].
    exists k. cbn [fst].
    rewrite keys_set_old by (apply find_keys; eauto).
    split; [|exact Hmiss].
    destruct Hk as [<-|Hk]; [|exact Hk].
    exfalso. apply Hmiss. apply find_keys. eauto.
  - unfold Dict.get at 1. rewrite Hl0. reflexivity.
Qed.

(** X7.  [generate_arrivals] with the arrivals its generator returns: when
    every arrival floor is a floor of the waiting table, the new people are
    appended, in the order given, behind the people already waiting on
    their floor and behind [total_people], and no other list changes; when
    some arrival floor is not in the waiting table, the stage raises
    [KeyError]. *)
Theorem generate_arrivals_effect (i : Z) (h h1 : heap) (s : Simulation)
    (g1 : ArrivalGenerator) (arr : Dict.t (list pid)) :
  generate (arrival_generator s) h i = Ok (h1, g1, arr) ->
  ((forall k, In k (Dict.keys arr) -> In k (Dict.keys (waiting s))) ->
   exists wt,
     generate_arrivals i (h, s)
     = Ok (h1, mkSimulation g1 (elevators s) (moving_algorithm s) (num_floors s) wt
                 (total_people s ++ flat_map (find_list arr) (Dict.keys arr))
                 (reached_dest s))
     /\ Dict.keys wt = Dict.keys (waiting s)
     /\ forall k, find_list wt k = find_list (waiting s) k ++ find_list arr k)
  /\ ((exists k, In k (Dict.keys arr) /\ ~ In k (Dict.keys (waiting s))) ->
      generate_arrivals i (h, s) = Raise KeyError).
Proof.
  intros Hgen. pose proof (generate_wf _ _ _ _ _ _ Hgen) as Hwf.
  unfold generate_arrivals. rewrite Hgen. cbn [bind]. split.
  - intros Hall.
    destruct (arrivals_loop_ok arr (Dict.keys arr) Hwf (fun k H => H)
                (waiting s, total_people s) Hall) as (wt & Hloop & Hkeys & Hfind).
    rewrite Hloop. cbn [bind fst snd] in *. exists wt.
    split; [reflexivity|]. split; [exact Hkeys|].
    intros k. rewrite Hfind.
    destruct (in_dec Z.eq_dec k (Dict.keys arr)) as [_|Hn]; [reflexivity|].
    rewrite (find_list_nokey arr k Hn). reflexivity.
  - intros Hmiss.
    rewrite (arrivals_loop_raise arr (Dict.keys arr) (fun k H => H)
               (waiting s, total_people s) Hmiss).
    reflexivity.
Qed.

Lemma generate_arrivals_effect_witness :
  let s := mkSimulation (FileArrivals 3 [(0, [0%nat; 1%nat; 2%nat])]) [] EndToEndLoop 3
                        [(1, [3%nat]); (2, []); (3, [])] [3%nat] [] in
  let h := [mkPerson 1 2 0; mkPerson 3 1 0; mkPerson 1 3 0; mkPerson 1 2 4] in
  generate (arrival_generator s) h 0
  = Ok (h, FileArrivals 3 [(0, [0%nat; 1%nat; 2%nat])],
        [(1, [0%nat; 2%nat]); (3, [1%nat])])
  /\ exists wt,
       generate_arrivals 0 (h, s)
       = Ok (h, mkSimulation (FileArrivals 3 [(0, [0%nat; 1%nat; 2%nat])]) []
                  EndToEndLoop 3 wt [3%nat; 0%nat; 2%nat; 1%nat] [])
       /\ find_list wt 1 = [3%nat; 0%nat; 2%nat].
Proof.
  split; [reflexivity|].
  destruct (proj1 (generate_arrivals_effect 0
                     [mkPerson 1 2 0; mkPerson 3 1 0; mkPerson 1 3 0; mkPerson 1 2 4]
                     [mkPerson 1 2 0; mkPerson 3 1 0; mkPerson 1 3 0; mkPerson 1 2 4]
                     (mkSimulation (FileArrivals 3 [(0, [0%nat; 1%nat; 2%nat])]) []
                        EndToEndLoop 3 [(1, [3%nat]); (2, []); (3, [])] [3%nat] [])
                     (FileArrivals 3 [(0, [0%nat; 1%nat; 2%nat])])
                     [(1, [0%nat; 2%nat]); (3, [1%nat])] eq_refl))
    as (wt & H1 & _ & H3).
  - simpl. intros k [<-|[<-|[]]]; simpl; auto.
  - exists wt. split; [exact H1|]. rewrite H3. reflexivity.
Defined.

Lemma FileArrivals_generate_eq (data : Dict.t (list pid)) (h : heap) (r : Z) :
  FileArrivals_generate data h r
  = Ok (if Dict.mem data r then data else Dict.set data r [],
        fold_left (group_person h) (find_list data r) Dict.empty).
Proof.
  unfold FileArrivals_generate, Dict.mem, find_list, Dict.get.
  destruct (Dict.find data r) as [people|] eqn:Hf; simpl.
  - rewrite Hf. reflexivity.
  - rewrite find_set_same. reflexivity.
Qed.

(** X8.  That [FileArrivals.generate] enters an unknown round into its
    schedule cannot be seen through [generate]: asking again for the same
    round returns the same mapping and changes the schedule no further, and
    asking for any round after a call for another returns what it would
    have returned without that call. *)
Theorem FileArrivals_generate_stable (data : Dict.t (list pid)) (h : heap) (r : Z) :
  exists data1 dic,
    FileArrivals_generate data h r = Ok (data1, dic)
    /\ FileArrivals_generate data1 h r = Ok (data1, dic)
    /\ forall r', exists data2 data3 dic',
         FileArrivals_generate data h r' = Ok (data2, dic')
         /\ FileArrivals_generate data1 h r' = Ok (data3, dic').
Proof.
  rewrite FileArrivals_generate_eq. do 2 eexists. split; [reflexivity|].
  assert (Hfl : forall r', find_list (if Dict.mem data r then data else Dict.set data r []) r'
                           = find_list data r').
  { intros r'. unfold Dict.mem. destruct (Dict.find data r) as [l|] eqn:Hf; [reflexivity|].
    destruct (Z.eq_dec r' r) as [->|Hne].
    - rewrite find_list_set_same. unfold find_list. rewrite Hf. reflexivity.
    - apply find_list_set_other. exact Hne. }
  split.
  - rewrite FileArrivals_generate_eq, Hfl. f_equal. f_equal.
    unfold Dict.mem. destruct (Dict.find data r) as [l|] eqn:Hf.
    + rewrite Hf. reflexivity.
    + rewrite find_set_same. reflexivity.
  - intros r'. rewrite !FileArrivals_generate_eq, Hfl.
    do 3 eexists. split; reflexivity.
Qed.

(** ** The constructor *)

Lemma set_new {V : Type} (d : Dict.t V) (k : Z) (v : V) :
  ~ In k (Dict.keys d) -> Dict.set d k v = d ++ [(k, v)].
Proof.
  induction d as [|[k' v'] d IH]; simpl; [reflexivity|].
  intros Hn. destruct (Z.eqb_spec k k') as [->|Hne].
  - exfalso; apply Hn; left; reflexivity.
  - rewrite IH; auto.
Qed.

Lemma init_dict_fold (l : list Z) :
  forall d : Dict.t (list pid),
    NoDup (Dict.keys d ++ map (fun i => i + 1) l) ->
    fold_left (fun (d : Dict.t (list pid)) (i : Z) =>
                 let floor := i + 1 in Dict.set d floor []) l d
    = d ++ map (fun i => (i + 1, [])) l.
Proof.
  induction l as [|i l IH]; intros d Hnd; simpl.
  - rewrite app_nil_r. reflexivity.
  - simpl in Hnd.
    assert (Hn : ~ In (i + 1) (Dict.keys d)).
    { intros Hin. apply NoDup_remove_2 in Hnd. apply Hnd.
      apply in_or_app. left. exact Hin. }
    rewrite set_new by exact Hn. rewrite IH.
    + rewrite <- app_assoc. reflexivity.
    + unfold Dict.keys. rewrite map_app. simpl. rewrite <- app_assoc. exact Hnd.
Qed.

Lemma init_elevators_fold (x : Elevator) (l : list Z) :
  forall acc : list Elevator,
    fold_left (fun (l : list Elevator) (_ : Z) => l ++ [x]) l acc
    = acc ++ repeat x (length l).
Proof.
  induction l as [|i l IH]; intros acc; simpl.
  - rewrite app_nil_r. reflexivity.
  - rewrite IH, <- app_assoc. reflexivity.
Qed.

Lemma new_Simulation_eq (config : Config) :
  new_Simulation config
  = mkSimulation (cfg_arrival_generator config)
      (repeat (mkElevator (cfg_elevator_capacity config) 1 1 [])
              (Z.to_nat (cfg_num_elevators config)))
      (cfg_moving_algorithm config) (cfg_num_floors config)
      (map (fun f => (f, [])) (floors (cfg_num_floors config))) [] [].
Proof.
  unfold new_Simulation. rewrite init_elevators_fold, init_dict_fold.
  - simpl. rewrite range_length. unfold floors. rewrite map_map. reflexivity.
  - simpl. apply sorted_NoDup. apply floors_sorted.
Qed.

(** X9.  Given what its docstring asks of the configuration (at least 2
    floors, 1 elevator and a capacity of 1), [Simulation.__init__] builds
    [num_elevators] elevators, each with the configured capacity, at floor
    1 with target floor 1 and no passengers, and a waiting table with an
    empty list for each of the floors 1..num_floors, in ascending order,
    and for no other floor; nobody has arrived or completed.  The state
    meets the representation invariants of the class: there is an
    elevator, and the keys of [waiting] are [range(1, num_floors + 1)]. *)
Theorem new_Simulation_state (config : Config) :
  2 <= cfg_num_floors config ->
  1 <= cfg_elevator_capacity config ->
  1 <= cfg_num_elevators config ->
  new_Simulation config
  = mkSimulation (cfg_arrival_generator config)
      (repeat (mkElevator (cfg_elevator_capacity config) 1 1 [])
              (Z.to_nat (cfg_num_elevators config)))
      (cfg_moving_algorithm config) (cfg_num_floors config)
      (map (fun f => (f, [])) (floors (cfg_num_floors config))) [] []
  /\ PyList.len (elevators (new_Simulation config)) = cfg_num_elevators config
  /\ Forall (fun e => 0 < capacity e /\ PyList.len (passengers e) <= capacity e)
            (elevators (new_Simulation config))
  /\ Dict.keys (waiting (new_Simulation config)) = floors (cfg_num_floors config)
  /\ In 1 (floors (cfg_num_floors config))
  /\ In 2 (floors (cfg_num_floors config))
  /\ (forall f, 1 <= f <= cfg_num_floors config <->
                Dict.find (waiting (new_Simulation config)) f = Some [])
  /\ (forall f, f < 1 \/ cfg_num_floors config < f <->
                Dict.find (waiting (new_Simulation config)) f = None).
Proof.
  intros Hnf Hcap Hne.
  assert (E : new_Simulation config
    = mkSimulation (cfg_arrival_generator config)
        (repeat (mkElevator (cfg_elevator_capacity config) 1 1 [])
                (Z.to_nat (cfg_num_elevators config)))
        (cfg_moving_algorithm config) (cfg_num_floors config)
        (map (fun f => (f, [])) (floors (cfg_num_floors config))) [] []).
  { apply new_Simulation_eq. }
  assert (Hin : forall f, In f (floors (cfg_num_floors config))
                          <-> 1 <= f <= cfg_num_floors config).
  { intros f. unfold floors, range. rewrite in_map_iff. split.
    - intros (x & <- & Hx). apply in_map_iff in Hx. destruct Hx as (j & <- & Hj).
      apply in_seq in Hj. lia.
    - intros Hf. exists (f - 1). split; [lia|]. apply in_map_iff.
      exists (Z.to_nat (f - 1)). split; [lia|]. apply in_seq. lia. }
  assert (Hfind : forall (l : list Z) f,
             Dict.find (map (fun f => (f, @nil pid)) l) f
             = if in_dec Z.eq_dec f l then Some [] else None).
  { induction l as [|a l IH]; intros f; simpl; [reflexivity|].
    destruct (Z.eqb_spec f a) as [->|Hne'].
    - destruct (Z.eq_dec a a); [reflexivity | congruence].
    - rewrite IH. destruct (Z.eq_dec a f); [congruence|].
      destruct (in_dec Z.eq_dec f l); reflexivity. }
  split; [exact E|]. split; [|split; [|split; [|split; [|split; [|split]]]]].
  - rewrite E. unfold PyList.len. cbn [elevators]. rewrite repeat_length. lia.
  - rewrite E. cbn [elevators]. apply Forall_forall. intros e He.
    apply repeat_spec in He. subst e. unfold PyList.len. simpl. lia.
  - apply new_Simulation_keys.
  - apply Hin. lia.
  - apply Hin. lia.
  - intros f. rewrite E. simpl. rewrite Hfind, <- Hin.
    destruct (in_dec Z.eq_dec f (floors (cfg_num_floors config))); split; intros H;
      auto; try discriminate; contradiction.
  - intros f. rewrite E. simpl. rewrite Hfind.
    destruct (in_dec Z.eq_dec f (floors (cfg_num_floors config))) as [Hi|Hn].
    + apply Hin in Hi. split; [lia | discriminate].
    + split; [reflexivity|]. intros _.
      destruct (Z.lt_ge_cases f 1); [left; assumption|].
      destruct (Z.lt_ge_cases (cfg_num_floors config) f); [right; assumption|].
      exfalso. apply Hn. apply Hin. lia.
Qed.

Lemma new_Simulation_state_witness :
  let config := mkConfig 6 2 2 (SingleArrivals 6) EndToEndLoop in
  2 <= cfg_num_floors config
  /\ 1 <= cfg_elevator_capacity config
  /\ 1 <= cfg_num_elevators config
  /\ new_Simulation config
     = mkSimulation (SingleArrivals 6) [mkElevator 2 1 1 []; mkElevator 2 1 1 []]
         EndToEndLoop 6 [(1, []); (2, []); (3, []); (4, []); (5, []); (6, [])] [] [].
Proof.
  cbv zeta. split; [simpl; lia|]. split; [simpl; lia|]. split; [simpl; lia|].
  exact (proj1 (new_Simulation_state (mkConfig 6 2 2 (SingleArrivals 6) EndToEndLoop)
                  ltac:(simpl; lia) ltac:(simpl; lia) ltac:(simpl; lia))).
Defined.

(** ** The object store over a run *)

Lemma heap_le_refl (h : heap) : heap_le h h.
Proof. split; [lia|]. intros p _. repeat split; lia. Qed.

Lemma heap_le_trans (h1 h2 h3 : heap) : heap_le h1 h2 -> heap_le h2 h3 -> heap_le h1 h3.
Proof.
  intros [L1 H1] [L2 H2]. split; [lia|]. intros p Hp.
  destruct (H1 p Hp) as (A1 & B1 & C1).
  destruct (H2 p ltac:(lia)) as (A2 & B2 & C2).
  repeat split; try congruence. lia.
Qed.

Lemma heap_le_app (h new : heap) : heap_le h (h ++ new).
Proof.
  split; [rewrite length_app; lia|]. intros p Hp. unfold deref.
  rewrite app_nth1 by exact Hp. repeat split; lia.
Qed.

Lemma generate_heap (g : ArrivalGenerator) (h h1 : heap) (i : Z)
    (g1 : ArrivalGenerator) (arr : Dict.t (list pid)) :
  generate g h i = Ok (h1, g1, arr) ->
  exists new, h1 = h ++ new /\ Forall (fun x => wait_time x = 0) new.
Proof.
  destruct g as [mf|mf data]; unfold generate; intros H.
  - apply bind_ok in H. destruct H as ([h2 dic] & Hs & H). injection H as <- <- <-.
    unfold SingleArrivals_generate in Hs.
    apply bind_ok in Hs. destruct Hs as (m & _ & Hs). simpl in Hs.
    injection Hs as <- <-. eexists. split; [reflexivity|]. repeat constructor.
  - apply bind_ok in H. destruct H as ([data1 dic] & Hs & H). injection H as <- <- <-.
    exists []. rewrite app_nil_r. split; [reflexivity | constructor].
Qed.

Lemma exec_stage_heap (st : stage) (w w' : World) :
  exec_stage st w = Ok w' ->
  heap_le (fst w) (fst w')
  /\ ((forall p, 0 <= wait_time (deref (fst w) p)) ->
      forall p, 0 <= wait_time (deref (fst w') p)).
Proof.
  destruct w as [h s], w' as [h' s']. cbn [fst]. intros H.
  destruct st; cbn [exec_stage] in H.
  - rewrite handle_disembarking_spec in H. injection H as <- <-.
    split; [apply heap_le_refl | auto].
  - unfold generate_arrivals in H.
    apply bind_ok in H. destruct H as ([[h1 g1] arr] & Hgen & H).
    apply bind_ok in H. destruct H as ([wt tp] & _ & H). injection H as <- <-.
    apply generate_heap in Hgen. destruct Hgen as (new & -> & Hnew).
    split; [apply heap_le_app|].
    intros Hpos p. unfold deref in *.
    destruct (Nat.lt_ge_cases p (length h)) as [Hlt|Hge].
    + rewrite app_nth1 by exact Hlt. apply Hpos.
    + rewrite app_nth2 by exact Hge.
      destruct (nth_in_or_default (p - length h) new (mkPerson 0 0 0)) as [Hin|Hdef].
      * rewrite Forall_forall in Hnew. rewrite (Hnew _ Hin). lia.
      * rewrite Hdef. simpl. lia.
  - unfold handle_boarding in H.
    apply bind_ok in H. destruct H as ([es wt] & _ & H). injection H as <- <-.
    split; [apply heap_le_refl | auto].
  - destruct (move_elevators_total h s) as (es & Hm).
    rewrite Hm in H. injection H as <- <-.
    split; [apply heap_le_refl | auto].
  - rewrite update_wait_times_spec in H. injection H as <- <-. split.
    + split; [rewrite (proj1 (fold_tick _ h O)); lia|].
      intros p Hp. destruct (fold_tick (riders_and_waiters s) h p) as (_ & H2 & H3 & H4).
      rewrite H2, H3, H4. repeat split.
      destruct (p <? length h)%nat; lia.
    + intros Hpos p.
      destruct (fold_tick (riders_and_waiters s) h p) as (_ & _ & _ & H4).
      rewrite H4. specialize (Hpos p).
      destruct (p <? length h)%nat; lia.
Qed.

(** X10.  Over a whole run the object store only grows: whatever stages
    have run, every person that existed is still there with the same start
    and target floor and a waiting time that has not gone down, and if no
    waiting time was negative at the start none is negative now (new
    people start at 0). *)
Theorem store_only_grows (w0 w : World) :
  reachable w0 w ->
  heap_le (fst w0) (fst w)
  /\ ((forall p, 0 <= wait_time (deref (fst w0) p)) ->
      forall p, 0 <= wait_time (deref (fst w) p)).
Proof.
  induction 1 as [|st w1 w2 Hr [IH1 IH2] Hst].
  - split; [apply heap_le_refl | auto].
  - destruct (exec_stage_heap st w1 w2 Hst) as [H1 H2]. split.
    + eapply heap_le_trans; eauto.
    + auto.
Qed.

Lemma store_only_grows_witness :
  let w0 := ([], new_Simulation (mkConfig 6 2 2 (SingleArrivals 6) EndToEndLoop)) in
  exists w,
    for_each (round_stages 0 ++ round_stages 1) exec_stage w0 = Ok w
    /\ reachable w0 w
    /\ fst w = [mkPerson 1 2 1; mkPerson 1 3 1]
    /\ heap_le (fst w0) (fst w).
Proof.
  eexists. split; [vm_compute; reflexivity|].
  assert (Hr : reachable
                 ([], new_Simulation (mkConfig 6 2 2 (SingleArrivals 6) EndToEndLoop))
                 ([mkPerson 1 2 1; mkPerson 1 3 1],
                  mkSimulation (SingleArrivals 6)
                    [mkElevator 2 3 6 []; mkElevator 2 3 6 []] EndToEndLoop 6
                    [(1, [1%nat]); (2, []); (3, []); (4, []); (5, []); (6, [])]
                    [0%nat; 1%nat] [0%nat])).
  { apply (stages_reachable (round_stages 0 ++ round_stages 1) _ _ _ (reach_init _)).
    vm_compute. reflexivity. }
  split; [exact Hr|]. split; [reflexivity|].
  exact (proj1 (store_only_grows _ _ Hr)).
Defined.

(** ** Nobody is lost or doubled *)

Lemma filter_partition_perm {A : Type} (g : A -> bool) (l : list A) :
  Permutation (filter (fun x => negb (g x)) l ++ filter g l) l.
Proof.
  induction l as [|x l IH]; simpl; [constructor|].
  destruct (g x); simpl.
  - apply Permutation_sym, Permutation_cons_app, Permutation_sym, IH.
  - constructor. exact IH.
Qed.

Lemma board_spec_perm (h : heap) (floor e_target cap : Z) (ws : list pid) :
  forall n,
    Permutation (fst (board_spec h floor e_target cap n ws)
                 ++ snd (board_spec h floor e_target cap n ws)) ws.
Proof.
  induction ws as [|p ws IH]; intros n; simpl; [constructor|].
  destruct (direction_ok floor (target (deref h p)) e_target && (n <? cap)); simpl.
  - constructor. apply IH.
  - apply Permutation_sym, Permutation_cons_app, Permutation_sym, IH.
Qed.

(** A key that is found splits the dict around its entry, and an
    assignment to it replaces that entry. *)
Lemma dict_split {V : Type} (d : Dict.t V) (k : Z) (l : V) :
  Dict.find d k = Some l ->
  exists d1 d2, d = d1 ++ (k, l) :: d2
                /\ forall v, Dict.set d k v = d1 ++ (k, v) :: d2.
Proof.
  induction d as [|[k' v'] d IH]; simpl; [discriminate|].
  destruct (Z.eqb_spec k k') as [->|Hne].
  - intros H. injection H as ->. exists [], d. split; reflexivity.
  - intros H. destruct (IH H) as (d1 & d2 & -> & Hset).
    exists ((k', v') :: d1), d2. split; [reflexivity|].
    intros v. simpl. rewrite Hset. reflexivity.
Qed.

Lemma dict_set_perm (d : Dict.t (list pid)) (k : Z) (l v : list pid) :
  Dict.find d k = Some l ->
  Permutation (flat_map snd (Dict.set d k v) ++ l) (flat_map snd d ++ v).
Proof.
  intros Hf. destruct (dict_split d k l Hf) as (d1 & d2 & -> & Hset).
  rewrite Hset, !flat_map_app. simpl. rewrite <- !app_assoc.
  apply Permutation_app_head.
  apply Permutation_trans with (flat_map snd d2 ++ v ++ l);
    [apply Permutation_app_swap_app|].
  apply Permutation_trans with (flat_map snd d2 ++ l ++ v);
    [apply Permutation_app_head, Permutation_app_comm|].
  apply Permutation_app_swap_app.
Qed.

Lemma perm_interleave {A : Type} (a b c d : list A) :
  Permutation ((a ++ b) ++ (c ++ d)) ((a ++ c) ++ (b ++ d)).
Proof.
  rewrite <- !app_assoc. apply Permutation_app_head.
  rewrite !app_assoc. apply Permutation_app_tail, Permutation_app_comm.
Qed.

Lemma disembark_perm (h : heap) (es : list Elevator) :
  Permutation
    (flat_map passengers
       (map (fun e => set_passengers e
                        (filter (fun p => negb (arrived h e p)) (passengers e))) es)
     ++ flat_map (fun e => filter (arrived h e) (passengers e)) es)
    (flat_map passengers es).
Proof.
  induction es as [|e es IH]; simpl; [constructor|].
  eapply Permutation_trans; [apply perm_interleave|].
  apply Permutation_app; [apply filter_partition_perm | exact IH].
Qed.

Lemma dict_set_append_perm (d : Dict.t (list pid)) (k : Z) (l new : list pid) :
  Dict.find d k = Some l ->
  Permutation (flat_map snd (Dict.set d k (l ++ new))) (flat_map snd d ++ new).
Proof.
  intros Hf. destruct (dict_split d k l Hf) as (d1 & d2 & -> & Hset).
  rewrite Hset, !flat_map_app. simpl. rewrite <- !app_assoc.
  do 2 apply Permutation_app_head. apply Permutation_app_comm.
Qed.

Lemma dict_set_board_perm (d : Dict.t (list pid)) (k : Z) (ws b r : list pid) :
  Dict.find d k = Some ws -> Permutation (b ++ r) ws ->
  Permutation (flat_map snd (Dict.set d k r) ++ b) (flat_map snd d).
Proof.
  intros Hf Hp. destruct (dict_split d k ws Hf) as (d1 & d2 & -> & Hset).
  rewrite Hset, !flat_map_app. simpl. rewrite <- !app_assoc.
  apply Permutation_app_head.
  apply Permutation_trans with (b ++ r ++ flat_map snd d2).
  - rewrite app_assoc. apply Permutation_app_comm.
  - rewrite app_assoc. apply Permutation_app_tail. exact Hp.
Qed.

Lemma arrivals_loop_perm (arr : Dict.t (list pid)) (l : list Z) :
  forall acc acc' : Dict.t (list pid) * list pid,
    for_each l
      (fun key (acc : Dict.t (list pid) * list pid) =>
         new <- Dict.get arr key ;;
         l <- Dict.get (fst acc) key ;;
         Ok (Dict.set (fst acc) key (l ++ new), snd acc ++ new))
      acc = Ok acc' ->
    exists added,
      Permutation (flat_map snd (fst acc')) (flat_map snd (fst acc) ++ added)
      /\ snd acc' = snd acc ++ added.
Proof.
  induction l as [|k l IH]; intros acc acc' H; cbn [for_each] in H.
  - injection H as <-. exists []. rewrite !app_nil_r. split; [apply Permutation_refl | reflexivity].
  - apply bind_ok in H. destruct H as (acc1 & H1 & H2).
    apply bind_ok in H1. destruct H1 as (new & _ & H1).
    apply bind_ok in H1. destruct H1 as (l0 & Hl0 & H1). injection H1 as <-.
    destruct (IH _ _ H2) as (added & Hp & Hs). cbn [fst snd] in Hp, Hs.
    exists (new ++ added). split.
    + eapply Permutation_trans; [exact Hp|].
      rewrite app_assoc. apply Permutation_app_tail.
      apply dict_set_append_perm. apply get_ok. exact Hl0.
    + rewrite Hs, app_assoc. reflexivity.
Qed.

Lemma board_loop_perm (h : heap) (es : list Elevator) :
  forall wt : Dict.t (list pid),
    Dict.wf wt ->
    exists es' wt',
      for_elevators es (board_elevator h) wt = Ok (es', wt')
      /\ Permutation (flat_map snd wt' ++ flat_map passengers es')
                     (flat_map snd wt ++ flat_map passengers es).
Proof.
  induction es as [|e es IH]; intros wt Hwf; cbn [for_elevators].
  - exists [], wt. split; [reflexivity | apply Permutation_refl].
  - rewrite (board_elevator_spec h wt e Hwf).
    destruct (Dict.find wt (current_floor e)) as [ws|] eqn:Hf; cbn [bind].
    + set (br := board_spec h (current_floor e) (target_floor e) (capacity e)
                            (PyList.len (passengers e)) ws).
      destruct (IH (Dict.set wt (current_floor e) (snd br))) as (es' & wt' & Hl & Hp).
      { unfold Dict.wf. rewrite keys_set_old by (apply find_keys; eauto). exact Hwf. }
      rewrite Hl. cbn [bind]. do 2 eexists. split; [reflexivity|].
      cbn [flat_map passengers set_passengers].
      pose proof (dict_set_board_perm wt (current_floor e) ws (fst br) (snd br) Hf
                    (board_spec_perm h _ _ _ ws _)) as Hd.
      apply Permutation_trans
        with ((passengers e ++ fst br) ++ flat_map snd wt' ++ flat_map passengers es');
        [apply Permutation_app_swap_app|].
      apply Permutation_trans
        with ((passengers e ++ fst br)
              ++ flat_map snd (Dict.set wt (current_floor e) (snd br))
              ++ flat_map passengers es);
        [apply Permutation_app_head; exact Hp|].
      apply Permutation_trans
        with (passengers e ++ flat_map snd wt ++ flat_map passengers es);
        [|apply Permutation_app_swap_app].
      rewrite <- app_assoc. apply Permutation_app_head.
      rewrite app_assoc. apply Permutation_app_tail.
      eapply Permutation_trans; [apply Permutation_app_comm | exact Hd].
    + destruct (IH wt Hwf) as (es' & wt' & Hl & Hp).
      rewrite Hl. cbn [bind]. do 2 eexists. split; [reflexivity|].
      cbn [flat_map].
      apply Permutation_trans
        with (passengers e ++ flat_map snd wt' ++ flat_map passengers es').
      { apply Permutation_app_swap_app. }
      apply Permutation_trans
        with (passengers e ++ flat_map snd wt ++ flat_map passengers es).
      { apply Permutation_app_head. exact Hp. }
      apply Permutation_app_swap_app.
Qed.

Lemma flat_map_passengers_map (es es' : list Elevator) :
  map passengers es' = map passengers es ->
  flat_map passengers es' = flat_map passengers es.
Proof. intros H. rewrite !flat_map_concat_map, H. reflexivity. Qed.

(** What a stage does to the people the simulation holds: it rearranges
    them and adds the arrivals, which [total_people] receives too. *)
Lemma exec_stage_people_perm (st : stage) (w w' : World) :
  Dict.wf (waiting (snd w)) ->
  exec_stage st w = Ok w' ->
  exists added,
    Permutation (people_in_system (snd w')) (people_in_system (snd w) ++ added)
    /\ total_people (snd w') = total_people (snd w) ++ added.
Proof.
  destruct w as [h s], w' as [h' s']. cbn [fst snd]. intros Hwf H.
  unfold people_in_system. destruct st; cbn [exec_stage] in H.
  - rewrite handle_disembarking_spec in H. injection H as <- <-.
    exists []. cbn [waiting elevators reached_dest total_people].
    rewrite !app_nil_r. split; [|reflexivity].
    apply Permutation_app_head.
    apply Permutation_trans
      with ((flat_map passengers
               (map (fun e => set_passengers e
                                (filter (fun p => negb (arrived h e p)) (passengers e)))
                    (elevators s))
             ++ flat_map (fun e => filter (arrived h e) (passengers e)) (elevators s))
            ++ reached_dest s).
    + rewrite <- !app_assoc. apply Permutation_app_head, Permutation_app_comm.
    + apply Permutation_app_tail, disembark_perm.
  - unfold generate_arrivals in H.
    apply bind_ok in H. destruct H as ([[h1 g1] arr] & _ & H).
    apply bind_ok in H. destruct H as ([wt tp] & Hloop & H). injection H as <- <-.
    apply arrivals_loop_perm in Hloop. destruct Hloop as (added & Hp & Hs).
    cbn [fst snd] in Hp, Hs. exists added.
    cbn [waiting elevators reached_dest total_people]. split; [|exact Hs].
    apply Permutation_trans
      with ((flat_map snd (waiting s) ++ added)
            ++ flat_map passengers (elevators s) ++ reached_dest s).
    + apply Permutation_app_tail. exact Hp.
    + rewrite <- !app_assoc. apply Permutation_app_head.
      apply Permutation_trans
        with ((flat_map passengers (elevators s) ++ reached_dest s) ++ added);
        [apply Permutation_app_comm|].
      rewrite <- app_assoc. apply Permutation_refl.
  - unfold handle_boarding in H.
    destruct (board_loop_perm h (elevators s) (waiting s) Hwf) as (es' & wt' & Hl & Hp).
    rewrite Hl in H. cbn [bind] in H. injection H as <- <-.
    exists []. cbn [waiting elevators reached_dest total_people].
    rewrite !app_nil_r. split; [|reflexivity].
    rewrite !app_assoc. apply Permutation_app_tail. exact Hp.
  - unfold move_elevators, retarget in H.
    destruct (update_target_floors_total (moving_algorithm s) h (elevators s)
                (waiting s) (num_floors s)) as (es1 & Hu & HR).
    rewrite Hu in H. simpl in H. injection H as <- <-.
    exists []. cbn [waiting elevators reached_dest total_people].
    rewrite !app_nil_r. split; [|reflexivity].
    apply Permutation_app_head, Permutation_app_tail.
    erewrite flat_map_passengers_map; [apply Permutation_refl|].
    destruct (retargeted_fields _ _ HR) as (_ & _ & <-).
    unfold with_elevators. cbn [elevators].
    clear. induction es1 as [|e es1 IH]; simpl; [reflexivity|].
    rewrite IH. f_equal. apply move_elevator_fields.
  - rewrite update_wait_times_spec in H. injection H as <- <-.
    exists []. rewrite !app_nil_r. split; [apply Permutation_refl | reflexivity].
Qed.

Lemma reachable_people_perm (config : Config) (h0 : heap) (w : World) :
  reachable (h0, new_Simulation config) w ->
  Permutation (people_in_system (snd w)) (total_people (snd w)).
Proof.
  intros Hr.
  induction Hr as [|st w1 w2 Hr IH Hst].
  - cbn [snd]. rewrite new_Simulation_eq. unfold people_in_system.
    cbn [waiting elevators reached_dest total_people].
    assert (E1 : forall l : list Z, flat_map snd (map (fun f => (f, @nil pid)) l) = [])
      by (induction l; simpl; auto).
    assert (E2 : forall (x : Elevator) n, passengers x = [] ->
                   flat_map passengers (repeat x n) = []).
    { intros x n Hx. induction n; simpl; [reflexivity | rewrite Hx; assumption]. }
    rewrite E1, E2 by reflexivity. constructor.
  - destruct (exec_stage_people_perm st w1 w2) as (added & Hperm & Htot);
      [|exact Hst|].
    + unfold Dict.wf. rewrite (reachable_keys config h0 w1 Hr).
      apply sorted_NoDup, floors_sorted.
    + rewrite Htot. eapply Permutation_trans; [exact Hperm|].
      apply Permutation_app_tail. exact IH.
Qed.

(** X11.  In every state the simulation reaches from its constructor, the
    people it holds (waiting on a floor, riding an elevator or completed)
    are, counted with repetitions, exactly the people in [total_people]:
    no stage loses or doubles anybody.  When every arrival was a different
    person, everybody is therefore in exactly one place. *)
Theorem people_conserved (config : Config) (h0 : heap) (w : World) :
  reachable (h0, new_Simulation config) w ->
  Permutation (people_in_system (snd w)) (total_people (snd w))
  /\ (NoDup (total_people (snd w)) -> NoDup (people_in_system (snd w))).
Proof.
  intros Hr.
  pose proof (reachable_people_perm config h0 w Hr) as Hp.
  split; [exact Hp|].
  intros Hnd. eapply Permutation_NoDup; [apply Permutation_sym; exact Hp | exact Hnd].
Qed.

Lemma people_conserved_witness :
  let w0 := ([], new_Simulation (mkConfig 6 2 2 (SingleArrivals 6) EndToEndLoop)) in
  exists w,
    reachable w0 w
    /\ people_in_system (snd w) = [1%nat; 2%nat; 0%nat]
    /\ total_people (snd w) = [0%nat; 1%nat; 2%nat]
    /\ Permutation (people_in_system (snd w)) (total_people (snd w)).
Proof.
  assert (Hr : reachable
                 ([], new_Simulation (mkConfig 6 2 2 (SingleArrivals 6) EndToEndLoop))
                 ([mkPerson 1 2 1; mkPerson 1 3 1; mkPerson 1 4 0],
                  mkSimulation (SingleArrivals 6)
                    [mkElevator 2 3 6 []; mkElevator 2 3 6 []] EndToEndLoop 6
                    [(1, [1%nat; 2%nat]); (2, []); (3, []); (4, []); (5, []); (6, [])]
                    [0%nat; 1%nat; 2%nat] [0%nat])).
  { apply (stages_reachable (round_stages 0 ++ round_stages 1 ++ [Disembark; Arrivals 2])
             _ _ _ (reach_init _)).
    vm_compute. reflexivity. }
  eexists. split; [exact Hr|]. split; [reflexivity|]. split; [reflexivity|].
  exact (proj1 (people_conserved _ _ _ Hr)).
Defined.

(** ** The shuttle of [EndToEndLoop] *)

Lemma shuttle_step_eq (mf c f t : Z) (ps : list pid) :
  shuttle_step mf (mkElevator c f t ps)
  = mkElevator c
      (if f >? (if f =? 1 then mf else if f =? mf then 1 else t) then f - 1
       else if f <? (if f =? 1 then mf else if f =? mf then 1 else t) then f + 1
       else f)
      (if f =? 1 then mf else if f =? mf then 1 else t) ps.
Proof.
  unfold shuttle_step, EndToEndLoop_elevator, move_elevator. simpl.
  destruct (f =? 1); simpl.
  - destruct (f >? mf); [reflexivity|]. destruct (f <? mf); reflexivity.
  - destruct (f =? mf); simpl.
    + destruct (f >? 1); [reflexivity|]. destruct (f <? 1); reflexivity.
    + destruct (f >? t); [reflexivity|]. destruct (f <? t); reflexivity.
Qed.

Lemma mkElevator_eq (c f f' t t' : Z) (ps : list pid) :
  f = f' -> t = t' -> mkElevator c f t ps = mkElevator c f' t' ps.
Proof. intros -> ->. reflexivity. Qed.

Ltac floor_cases :=
  repeat match goal with
         | |- context [?a =? ?b] => destruct (Z.eqb_spec a b)
         | |- context [?a >? ?b] => destruct (Z.gtb_spec a b)
         | |- context [?a <? ?b] => destruct (Z.ltb_spec a b)
         end;
  try (apply mkElevator_eq; lia); try lia.

Lemma shuttle_up (mf c : Z) (ps : list pid) :
  2 <= mf ->
  forall k, (1 <= k)%nat -> Z.of_nat k <= mf - 1 ->
    Nat.iter k (shuttle_step mf) (mkElevator c 1 1 ps)
    = mkElevator c (1 + Z.of_nat k) mf ps.
Proof.
  intros Hmf. induction k as [|k IH]; intros Hk Hle; [lia|].
  rewrite Nat.iter_succ. destruct k as [|k].
  - simpl Nat.iter. rewrite shuttle_step_eq. floor_cases.
  - rewrite IH by lia. rewrite shuttle_step_eq. floor_cases.
Qed.

Lemma shuttle_down (mf c : Z) (ps : list pid) :
  2 <= mf ->
  forall j, (1 <= j)%nat -> Z.of_nat j <= mf - 1 ->
    Nat.iter (Z.to_nat (mf - 1) + j) (shuttle_step mf) (mkElevator c 1 1 ps)
    = mkElevator c (mf - Z.of_nat j) 1 ps.
Proof.
  intros Hmf. induction j as [|j IH]; intros Hj Hle; [lia|].
  rewrite Nat.add_succ_r, Nat.iter_succ. destruct j as [|j].
  - rewrite Nat.add_0_r, shuttle_up by lia. rewrite shuttle_step_eq. floor_cases.
  - rewrite IH by lia. rewrite shuttle_step_eq. floor_cases.
Qed.

Lemma iter_add {A : Type} (f : A -> A) (a b : nat) (x : A) :
  Nat.iter (a + b) f x = Nat.iter a f (Nat.iter b f x).
Proof. induction a as [|a IH]; simpl; [reflexivity | rewrite IH; reflexivity]. Qed.

(** X12.  Under [EndToEndLoop] in a building of [max_floor >= 2] floors an
    elevator that stands idle at floor 1 shuttles: after [k] Move stages
    it is at floor [1 + k] heading for the top, for [k] up to
    [max_floor - 1]; after [j] more it is at floor [max_floor - j] heading
    for floor 1; and after [2 * (max_floor - 1)] Move stages it is back in
    the state it started in, so its movement repeats with that period. *)
Theorem shuttle_cycle (mf c : Z) (ps : list pid) :
  2 <= mf ->
  let n := Z.to_nat (mf - 1) in
  let e0 := mkElevator c 1 1 ps in
  (forall k, (1 <= k <= n)%nat ->
     Nat.iter k (shuttle_step mf) e0 = mkElevator c (1 + Z.of_nat k) mf ps)
  /\ (forall j, (1 <= j <= n)%nat ->
        Nat.iter (n + j) (shuttle_step mf) e0 = mkElevator c (mf - Z.of_nat j) 1 ps)
  /\ (forall q r,
        Nat.iter (r + q * (2 * n)) (shuttle_step mf) e0
        = Nat.iter r (shuttle_step mf) e0)
  /\ (forall (h : heap) (s : Simulation),
        moving_algorithm s = EndToEndLoop -> num_floors s = mf ->
        move_elevators (h, s)
        = Ok (h, with_elevators s (map (shuttle_step mf) (elevators s)))).
Proof.
  intros Hmf n e0.
  assert (Hup : forall k, (1 <= k <= n)%nat ->
            Nat.iter k (shuttle_step mf) e0 = mkElevator c (1 + Z.of_nat k) mf ps).
  { intros k Hk. apply shuttle_up; lia. }
  assert (Hdown : forall j, (1 <= j <= n)%nat ->
            Nat.iter (n + j) (shuttle_step mf) e0 = mkElevator c (mf - Z.of_nat j) 1 ps).
  { intros j Hj. apply shuttle_down; lia. }
  assert (Hper : Nat.iter (2 * n) (shuttle_step mf) e0 = e0).
  { replace (2 * n)%nat with (n + n)%nat by lia.
    rewrite Hdown by lia. unfold e0. apply mkElevator_eq; lia. }
  split; [exact Hup|]. split; [exact Hdown|]. split.
  - intros q r. rewrite iter_add. f_equal.
    induction q as [|q IH]; [reflexivity|].
    replace (S q * (2 * n))%nat with (q * (2 * n) + 2 * n)%nat by lia.
    rewrite iter_add, Hper. exact IH.
  - intros h s Halg Hnf. unfold move_elevators, retarget.
    rewrite Halg, Hnf. cbn [update_target_floors bind].
    unfold with_elevators. cbn [elevators]. rewrite map_map. reflexivity.
Qed.

Lemma shuttle_cycle_witness :
  2 <= 6
  /\ Nat.iter 3 (shuttle_step 6) (mkElevator 2 1 1 []) = mkElevator 2 4 6 []
  /\ Nat.iter 7 (shuttle_step 6) (mkElevator 2 1 1 []) = mkElevator 2 4 1 [].
Proof.
  split; [lia|].
  destruct (shuttle_cycle 6 2 [] ltac:(lia)) as (Hup & Hdown & _).
  split.
  - exact (Hup 3%nat ltac:(vm_compute; lia)).
  - exact (Hdown 2%nat ltac:(vm_compute; lia)).
Defined.

Lemma shuttle_step_same_floors (mf : Z) (a b : Elevator) :
  same_floors a b -> same_floors (shuttle_step mf a) (shuttle_step mf b).
Proof.
  unfold same_floors, shuttle_step, EndToEndLoop_elevator, move_elevator.
  destruct a as [ca fa ta pa], b as [cb fb tb pb]. simpl. intros [-> ->].
  destruct (fb =? 1); simpl.
  - destruct (fb >? mf); simpl; [auto|]. destruct (fb <? mf); simpl; auto.
  - destruct (fb =? mf); simpl.
    + destruct (fb >? 1); simpl; [auto|]. destruct (fb <? 1); simpl; auto.
    + destruct (fb >? tb); simpl; [auto|]. destruct (fb <? tb); simpl; auto.
Qed.

Lemma iter_same_floors (mf : Z) (k : nat) (a b : Elevator) :
  same_floors a b ->
  same_floors (Nat.iter k (shuttle_step mf) a) (Nat.iter k (shuttle_step mf) b).
Proof.
  intros H. induction k as [|k IH]; simpl; [exact H|].
  apply shuttle_step_same_floors. exact IH.
Qed.

Lemma iter_succ_r {A : Type} (f : A -> A) (k : nat) (x : A) :
  Nat.iter (S k) f x = Nat.iter k f (f x).
Proof. induction k as [|k IH]; simpl in *; [reflexivity | rewrite IH; reflexivity]. Qed.

(** What one stage does to the floors when the algorithm is
    [EndToEndLoop], and that it leaves algorithm and floor count alone. *)
Lemma exec_stage_shuttle (st : stage) (h h' : heap) (s s' : Simulation) :
  moving_algorithm s = EndToEndLoop ->
  exec_stage st (h, s) = Ok (h', s') ->
  moving_algorithm s' = EndToEndLoop
  /\ num_floors s' = num_floors s
  /\ Forall2 (fun e e' =>
                same_floors e' (Nat.iter (moves_in [st]) (shuttle_step (num_floors s)) e))
             (elevators s) (elevators s').
Proof.
  intros Halg H.
  assert (Hrefl : forall es : list Elevator, Forall2 (fun e e' => same_floors e' e) es es).
  { induction es; constructor; [split; reflexivity | assumption]. }
  destruct st; cbn [exec_stage moves_in Nat.iter] in *.
  - rewrite handle_disembarking_spec in H. injection H as <- <-. simpl.
    split; [exact Halg|]. split; [reflexivity|].
    induction (elevators s); simpl; constructor; [split; reflexivity | assumption].
  - unfold generate_arrivals in H.
    apply bind_ok in H. destruct H as ([[h1 g1] arr] & _ & H).
    apply bind_ok in H. destruct H as ([wt tp] & _ & H). injection H as <- <-.
    simpl. split; [exact Halg|]. split; [reflexivity | apply Hrefl].
  - unfold handle_boarding in H.
    apply bind_ok in H. destruct H as ([es wt] & H1 & H). injection H as <- <-.
    simpl. split; [exact Halg|]. split; [reflexivity|].
    apply for_elevators_inv
      with (P := fun _ : Dict.t (list pid) => True)
           (Q := fun e e' => same_floors e' e)
      in H1; [apply H1 | | exact I].
    intros e r e' r' _ _ Hb. split; [|exact I].
    apply board_elevator_fields in Hb. unfold same_floors. tauto.
  - unfold move_elevators, retarget in H. rewrite Halg in H.
    cbn [update_target_floors bind] in H. injection H as <- <-.
    unfold with_elevators. cbn [moving_algorithm num_floors elevators].
    split; [exact Halg|]. split; [reflexivity|].
    rewrite map_map.
    induction (elevators s); simpl; constructor; [split; reflexivity | assumption].
  - rewrite update_wait_times_spec in H. injection H as <- <-.
    split; [exact Halg|]. split; [reflexivity | apply Hrefl].
Qed.

(** X13.  In a simulation that moves by [EndToEndLoop], where every
    elevator is after any sequence of stages depends only on how many of
    them were Move stages: its current and target floor are those of the
    shuttle after that many steps, whoever arrived, boarded or left. *)
Theorem shuttle_in_simulation (sts : list stage) :
  forall (h h' : heap) (s s' : Simulation),
    moving_algorithm s = EndToEndLoop ->
    for_each sts exec_stage (h, s) = Ok (h', s') ->
    Forall2 (fun e e' =>
               same_floors e' (Nat.iter (moves_in sts) (shuttle_step (num_floors s)) e))
            (elevators s) (elevators s').
Proof.
  induction sts as [|st sts IH]; intros h h' s s' Halg H; cbn [for_each] in H.
  - injection H as <- <-. simpl.
    induction (elevators s); constructor; [split; reflexivity | assumption].
  - apply bind_ok in H. destruct H as ([h1 s1] & H1 & H2).
    destruct (exec_stage_shuttle st h h1 s s1 Halg H1) as (Halg1 & Hnf1 & HF1).
    specialize (IH h1 h' s1 s' Halg1 H2). rewrite Hnf1 in IH.
    assert (Hm : moves_in (st :: sts) = (moves_in sts + moves_in [st])%nat).
    { destruct st; simpl; lia. }
    rewrite Hm. clear - HF1 IH.
    revert IH. generalize (elevators s'). induction HF1 as [|e e1 es es1 He HF IHF];
      intros es' IH; inversion IH; subst; constructor.
    + rewrite iter_add.
      match goal with
      | H : same_floors ?y (Nat.iter _ _ e1) |- _ =>
          destruct H as [A B];
          destruct (iter_same_floors (num_floors s) (moves_in sts) _ _ He) as [C D]
      end.
      split; congruence.
    + apply IHF. assumption.
Qed.

Lemma shuttle_in_simulation_witness :
  let w0 := ([], new_Simulation (mkConfig 6 2 2 (SingleArrivals 6) EndToEndLoop)) in
  exists h' s',
    for_each (round_stages 0 ++ round_stages 1 ++ round_stages 2) exec_stage w0
    = Ok (h', s')
    /\ map current_floor (elevators s') = [4; 4]
    /\ Forall2 (fun e e' => same_floors e' (Nat.iter 3 (shuttle_step 6) e))
               (elevators (snd w0)) (elevators s').
Proof.
  do 2 eexists. split; [vm_compute; reflexivity|]. split; [reflexivity|].
  refine (shuttle_in_simulation (round_stages 0 ++ round_stages 1 ++ round_stages 2)
            [] _ (new_Simulation (mkConfig 6 2 2 (SingleArrivals 6) EndToEndLoop)) _
            eq_refl _).
  vm_compute. reflexivity.
Defined.

(** ** Statistics again *)

Lemma sum_bounds (m : Z) (l : list Z) :
  (forall x, In x l -> 0 <= x <= m) ->
  forall a, a <= fold_left Z.add l a <= a + m * Z.of_nat (length l).
Proof.
  induction l as [|x l IH]; intros Hl a; simpl length; cbn [fold_left].
  - lia.
  - assert (Hx : 0 <= x <= m) by (apply Hl; left; reflexivity).
    specialize (IH (fun y Hy => Hl y (or_intror Hy)) (a + x)).
    rewrite Nat2Z.inj_succ, Z.mul_succ_r. lia.
Qed.

(** X14.  When no completed person has a negative waiting time and the
    waiting times of the completed people sum to less than 2^53 (so that
    the binary64 quotient has the integer part of the exact one), the
    average [_calculate_stats] reports lies between 0 and the maximum it
    reports, so the value -1 of either appears exactly when nobody
    completed. *)
Theorem calculate_stats_bounds (h : heap) (s : Simulation) (num_rounds : Z) :
  (forall p, In p (reached_dest s) -> 0 <= wait_time (deref h p)) ->
  PyList.sum (map (fun p => wait_time (deref h p)) (reached_dest s)) < 2 ^ 53 ->
  exists stats max_time avg_time,
    _calculate_stats (h, s) num_rounds = Ok stats
    /\ stat stats "max_time" = Some max_time
    /\ stat stats "avg_time" = Some avg_time
    /\ (reached_dest s = [] <-> max_time = -1)
    /\ (reached_dest s = [] <-> avg_time = -1)
    /\ (reached_dest s <> [] -> 0 <= avg_time <= max_time).
Proof.
  intros Hpos Hbound.
  destruct (calculate_stats_shape h s num_rounds) as (mx & av & Hs & Hm).
  eexists. exists mx, av. split; [exact Hs|]. split; [reflexivity|]. split; [reflexivity|].
  destruct (reached_dest s) as [|p rd] eqn:Hrd.
  - destruct Hm as [-> ->]. repeat split; auto; congruence.
  - destruct Hm as (Hin & Hge & Hdiv).
    set (wts := map (fun p => wait_time (deref h p)) (p :: rd)) in *.
    assert (Hw : forall x, In x wts -> 0 <= x <= mx).
    { intros x Hx. split; [|apply Hge; exact Hx].
      unfold wts in Hx. apply in_map_iff in Hx. destruct Hx as (q & <- & Hq).
      apply Hpos. exact Hq. }
    assert (Hmx : 0 <= mx) by (apply (Hw mx Hin)).
    pose proof (sum_bounds mx wts Hw 0) as Hsum. fold (PyList.sum wts) in Hsum.
    assert (Hlen : PyList.len (p :: rd) = Z.of_nat (length wts)).
    { unfold wts, PyList.len. rewrite length_map. reflexivity. }
    assert (Hn : 0 < PyList.len (p :: rd)) by (unfold PyList.len; simpl; lia).
    rewrite int_truediv_exact in Hdiv by lia. injection Hdiv as <-.
    assert (Hav : 0 <= Z.quot (PyList.sum wts) (PyList.len (p :: rd)) <= mx).
    { rewrite Z.quot_div_nonneg by lia. split.
      - apply Z.div_pos; lia.
      - apply Z.div_le_upper_bound; [lia|]. rewrite Hlen. lia. }
    repeat split; try discriminate; try lia; intros; lia.
Qed.

Lemma calculate_stats_bounds_witness :
  let h := [mkPerson 1 2 1; mkPerson 1 3 4; mkPerson 1 4 2] in
  let s := mkSimulation (SingleArrivals 4) [] EndToEndLoop 4
                        [(1, []); (2, []); (3, []); (4, [])]
                        [0%nat; 1%nat; 2%nat] [0%nat; 1%nat; 2%nat] in
  (forall p, In p (reached_dest s) -> 0 <= wait_time (deref h p))
  /\ PyList.sum (map (fun p => wait_time (deref h p)) (reached_dest s)) < 2 ^ 53
  /\ exists stats,
       _calculate_stats (h, s) 9 = Ok stats
       /\ stat stats "max_time" = Some 4 /\ stat stats "avg_time" = Some 2.
Proof.
  assert (Hpos : forall p,
             In p (reached_dest
                     (mkSimulation (SingleArrivals 4) [] EndToEndLoop 4
                        [(1, []); (2, []); (3, []); (4, [])]
                        [0%nat; 1%nat; 2%nat] [0%nat; 1%nat; 2%nat])) ->
             0 <= wait_time (deref [mkPerson 1 2 1; mkPerson 1 3 4; mkPerson 1 4 2] p)).
  { intros p [<-|[<-|[<-|[]]]]; vm_compute; discriminate. }
  assert (Hb : PyList.sum
                 (map (fun p => wait_time
                                  (deref [mkPerson 1 2 1; mkPerson 1 3 4; mkPerson 1 4 2] p))
                      (reached_dest
                         (mkSimulation (SingleArrivals 4) [] EndToEndLoop 4
                            [(1, []); (2, []); (3, []); (4, [])]
                            [0%nat; 1%nat; 2%nat] [0%nat; 1%nat; 2%nat]))) < 2 ^ 53)
    by (vm_compute; reflexivity).
  cbv zeta. split; [exact Hpos|]. split; [exact Hb|].
  destruct (calculate_stats_bounds _ _ 9 Hpos Hb) as (st & mx & av & H1 & H2 & H3 & _).
  exists st. split; [exact H1|].
  vm_compute in H1. injection H1 as <-. split; reflexivity.
Defined.

(** ** The constructor of [FileArrivals] *)

Lemma people_of_length (pairs : list (Z * Z)) : length (people_of pairs) = length pairs.
Proof. unfold people_of. apply length_map. Qed.

Lemma FileArrivals_pairs (r : Z) (pairs : list (Z * Z)) :
  forall (h : heap) (data : Dict.t (list pid)) (ids : list pid),
    Dict.find data r = Some ids ->
    fold_left
      (fun (st : heap * Dict.t (list pid)) (sp : Z * Z) =>
         let '(h, data) := st in
         let '(h', p) := new_Person h (fst sp) (snd sp) in
         match Dict.find data r with
         | Some l => (h', Dict.set data r (l ++ [p]))
         | None => (h', data)
         end)
      pairs (h, data)
    = (h ++ people_of pairs,
       Dict.set data r (ids ++ seq (length h) (length pairs))).
Proof.
  match goal with |- forall h data ids, _ -> fold_left ?f _ _ = _ => set (step := f) end.
  induction pairs as [|sp pairs IH]; intros h data ids Hf; cbn [fold_left].
  - simpl. rewrite !app_nil_r, set_same_id by exact Hf. reflexivity.
  - assert (Hstep : step (h, data) sp
                    = (h ++ [mkPerson (fst sp) (snd sp) 0],
                       Dict.set data r (ids ++ [length h]))).
    { unfold step, new_Person. rewrite Hf. reflexivity. }
    rewrite Hstep.
    rewrite (IH _ _ (ids ++ [length h]) (find_set_same _ _ _)).
    rewrite set_set, length_app, <- !app_assoc. simpl.
    rewrite Nat.add_1_r. reflexivity.
Qed.

Lemma FileArrivals_row_eq (h : heap) (data : Dict.t (list pid)) (r : Z)
    (pairs : list (Z * Z)) :
  FileArrivals_row (h, data) (r, pairs)
  = (h ++ people_of pairs, Dict.set data r (seq (length h) (length pairs))).
Proof.
  unfold FileArrivals_row.
  rewrite (FileArrivals_pairs r pairs h (Dict.set data r []) [] (find_set_same _ _ _)).
  rewrite set_set. reflexivity.
Qed.

Lemma map_deref_new (h new : heap) :
  map (deref (h ++ new)) (seq (length h) (length new)) = new.
Proof.
  revert h. induction new as [|x new IH]; intros h; [reflexivity|].
  cbn [length seq map]. f_equal.
  - unfold deref. rewrite nth_middle. reflexivity.
  - specialize (IH (h ++ [x])). rewrite <- app_assoc, length_app in IH.
    simpl in IH. rewrite Nat.add_1_r in IH. exact IH.
Qed.

Lemma map_deref_old (h new : heap) (ids : list pid) :
  Forall (fun p => (p < length h)%nat) ids ->
  map (deref (h ++ new)) ids = map (deref h) ids.
Proof.
  induction 1 as [|p ids Hp HF IH]; simpl; [reflexivity|].
  rewrite IH. f_equal. unfold deref. apply app_nth1. exact Hp.
Qed.

Lemma FileArrivals_lines (lines : list (Z * list (Z * Z))) :
  forall (h : heap) (data : Dict.t (list pid)) (spec : Z -> option (list (Z * Z))),
    schedule_of h data spec ->
    fst (fold_left FileArrivals_row lines (h, data))
    = h ++ flat_map (fun line => people_of (snd line)) lines
    /\ schedule_of (fst (fold_left FileArrivals_row lines (h, data)))
                   (snd (fold_left FileArrivals_row lines (h, data)))
                   (fun r => last_record (spec r) r lines).
Proof.
  induction lines as [|[r0 pairs] lines IH]; intros h data spec Hs; cbn [fold_left].
  - simpl. rewrite app_nil_r. split; [reflexivity | exact Hs].
  - rewrite FileArrivals_row_eq.
    destruct (IH (h ++ people_of pairs)
                 (Dict.set data r0 (seq (length h) (length pairs)))
                 (fun r => if r0 =? r then Some pairs else spec r)) as [H1 H2].
    + intros r. destruct (Z.eqb_spec r0 r) as [<-|Hne].
      * rewrite find_set_same. split.
        -- simpl. f_equal. rewrite <- (people_of_length pairs). apply map_deref_new.
        -- intros ids Hids. injection Hids as <-.
           apply Forall_forall. intros p Hp. apply in_seq in Hp.
           rewrite length_app, people_of_length. lia.
      * rewrite find_set_other by congruence.
        destruct (Hs r) as [E V]. split.
        -- rewrite <- E. destruct (Dict.find data r) as [ids|]; [|reflexivity].
           simpl. f_equal. apply map_deref_old. apply V. reflexivity.
        -- intros ids Hids. specialize (V ids Hids).
           eapply Forall_impl; [|exact V]. intros p Hp. simpl in Hp.
           rewrite length_app. lia.
    + split.
      * etransitivity; [exact H1|]. cbn [flat_map snd]. rewrite <- app_assoc. reflexivity.
      * exact H2.
Qed.

(** X15.  For a file whose people meet what [Person] asks of them (start
    and target floors at least 1 and different from each other) and a
    [max_floor] of at least 2, [FileArrivals.__init__] creates one person
    per (start, target) pair of the file, in file order, each with waiting
    time 0, and leaves the people that existed as they were.  What it
    schedules for a round is the people of the last record with that round
    number, in the record's order (an earlier record for the same round is
    replaced); a round without a record is not in the schedule.  Only the
    people it created are scheduled. *)
Theorem new_FileArrivals_schedule (max_floor : Z) (lines : list (Z * list (Z * Z)))
    (h : heap) :
  2 <= max_floor ->
  Forall (fun line =>
            Forall (fun sp => 1 <= fst sp /\ 1 <= snd sp /\ fst sp <> snd sp)
                   (snd line)) lines ->
  exists h' data,
    new_FileArrivals max_floor lines h = (h', FileArrivals max_floor data)
    /\ h' = h ++ flat_map (fun line => people_of (snd line)) lines
    /\ Forall (fun x => 1 <= start x /\ 1 <= target x /\ start x <> target x
                        /\ wait_time x = 0)
              (flat_map (fun line => people_of (snd line)) lines)
    /\ (forall r,
          option_map (map (deref h')) (Dict.find data r)
          = option_map people_of (last_record None r lines))
    /\ (forall r ids, Dict.find data r = Some ids ->
          Forall (fun p => (length h <= p < length h')%nat) ids).
Proof.
  intros _ Hok.
  assert (Hnew : Forall (fun x => 1 <= start x /\ 1 <= target x /\ start x <> target x
                                  /\ wait_time x = 0)
                        (flat_map (fun line => people_of (snd line)) lines)).
  { apply Forall_forall. intros x Hx. apply in_flat_map in Hx.
    destruct Hx as (line & Hline & Hx).
    rewrite Forall_forall in Hok. specialize (Hok line Hline).
    unfold people_of in Hx. apply in_map_iff in Hx. destruct Hx as (sp & <- & Hsp).
    rewrite Forall_forall in Hok. specialize (Hok sp Hsp). simpl. tauto. }
  unfold new_FileArrivals.
  destruct (FileArrivals_lines lines h Dict.empty (fun _ => None)) as [H1 H2].
  { intros r. simpl. split; [reflexivity | discriminate]. }
  assert (H3 : forall (lines : list (Z * list (Z * Z))) (h0 : heap)
                 (data : Dict.t (list pid)),
             (forall r ids, Dict.find data r = Some ids ->
                Forall (fun p => (length h <= p)%nat) ids) ->
             (length h <= length h0)%nat ->
             forall r ids,
               Dict.find (snd (fold_left FileArrivals_row lines (h0, data))) r = Some ids ->
               Forall (fun p => (length h <= p)%nat) ids).
  { induction lines0 as [|[r0 pairs] lines0 IH]; intros h0 data Hd Hh r ids; cbn [fold_left].
    - apply Hd.
    - rewrite FileArrivals_row_eq. apply IH.
      + intros r1 ids1. destruct (Z.eq_dec r1 r0) as [->|Hne].
        * rewrite find_set_same. intros E. injection E as <-.
          apply Forall_forall. intros p Hp. apply in_seq in Hp. lia.
        * rewrite find_set_other by exact Hne. apply Hd.
      + rewrite length_app. lia. }
  destruct (fold_left FileArrivals_row lines (h, Dict.empty)) as [h' data] eqn:E.
  cbn [fst snd] in H1, H2. exists h', data.
  split; [reflexivity|]. split; [exact H1|]. split; [exact Hnew|]. split.
  - intros r. apply H2.
  - intros r ids Hids.
    pose proof (proj2 (H2 r) ids Hids) as Hlt.
    assert (Hge : Forall (fun p => (length h <= p)%nat) ids).
    { apply (H3 lines h Dict.empty) with (r := r).
      - intros r1 ids1 Hf. discriminate.
      - lia.
      - rewrite E. exact Hids. }
    rewrite Forall_forall in *. intros p Hp. split; [apply Hge | apply Hlt]; exact Hp.
Qed.

Lemma new_FileArrivals_schedule_witness :
  let lines := [(0, [(1, 4); (5, 3)]); (2, [(2, 1)])] in
  2 <= 5
  /\ Forall (fun line =>
              Forall (fun sp => 1 <= fst sp /\ 1 <= snd sp /\ fst sp <> snd sp)
                     (snd line)) lines
  /\ exists h' data,
       new_FileArrivals 5 lines [] = (h', FileArrivals 5 data)
       /\ h' = [mkPerson 1 4 0; mkPerson 5 3 0; mkPerson 2 1 0]
       /\ Dict.find data 0 = Some [0%nat; 1%nat]
       /\ Dict.find data 1 = None.
Proof.
  cbv zeta.
  assert (Hok : Forall (fun line : Z * list (Z * Z) =>
                          Forall (fun sp => 1 <= fst sp /\ 1 <= snd sp /\ fst sp <> snd sp)
                                 (snd line))
                       [(0, [(1, 4); (5, 3)]); (2, [(2, 1)])]).
  { repeat constructor; simpl; lia. }
  split; [lia|]. split; [exact Hok|].
  destruct (new_FileArrivals_schedule 5 [(0, [(1, 4); (5, 3)]); (2, [(2, 1)])] []
              ltac:(lia) Hok) as (h' & data & E & Hh & _).
  exists h', data. split; [exact E|]. split; [exact Hh|].
  vm_compute in E. injection E as <- <-. split; reflexivity.
Defined.

(** ** Elevators stay in the building *)

Lemma floors_In (nf f : Z) : In f (floors nf) <-> 1 <= f <= nf.
Proof.
  unfold floors, range. rewrite in_map_iff. split.
  - intros (x & <- & Hx). apply in_map_iff in Hx. destruct Hx as (j & <- & Hj).
    apply in_seq in Hj. lia.
  - intros Hf. exists (f - 1). split; [lia|]. apply in_map_iff.
    exists (Z.to_nat (f - 1)). split; [lia|]. apply in_seq. lia.
Qed.

Lemma valid_ids_grow (h h' : heap) (l : list pid) :
  (length h <= length h')%nat -> valid_ids h l -> valid_ids h' l.
Proof.
  intros Hle H. eapply Forall_impl; [|exact H]. intros p Hp. simpl in Hp. lia.
Qed.

Lemma valid_ids_incl (h : heap) (l l' : list pid) :
  (forall p, In p l' -> In p l) -> valid_ids h l -> valid_ids h l'.
Proof.
  unfold valid_ids. rewrite !Forall_forall. intros Hincl H p Hp. apply H, Hincl, Hp.
Qed.

Lemma deref_target_ok (nf : Z) (h : heap) (p : pid) :
  Forall (fun x => 1 <= target x <= nf) h -> (p < length h)%nat ->
  1 <= target (deref h p) <= nf.
Proof.
  intros HF Hp. rewrite Forall_forall in HF. apply HF. unfold deref.
  apply nth_In. exact Hp.
Qed.

Lemma tick_targets (nf : Z) (h : heap) :
  forall p, Forall (fun x => 1 <= target x <= nf) h ->
            Forall (fun x => 1 <= target x <= nf) (tick h p).
Proof.
  induction h as [|x h IH]; intros p HF; simpl; [constructor|].
  inversion HF as [|? ? Hx Hh]; subst.
  destruct p; constructor; auto.
Qed.

Lemma fold_tick_targets (nf : Z) (l : list pid) :
  forall h, Forall (fun x => 1 <= target x <= nf) h ->
            Forall (fun x => 1 <= target x <= nf) (fold_left tick l h).
Proof.
  induction l as [|p l IH]; intros h HF; simpl; [exact HF|].
  apply IH, tick_targets, HF.
Qed.

Lemma find_list_set (d : Dict.t (list pid)) (k k0 : Z) (v : list pid) :
  find_list (Dict.set d k v) k0 = if Z.eq_dec k0 k then v else find_list d k0.
Proof.
  destruct (Z.eq_dec k0 k) as [->|Hne].
  - apply find_list_set_same.
  - apply find_list_set_other. exact Hne.
Qed.

(** What a generator that suits the building returns suits it too. *)
Lemma generate_in_building (nf : Z) (g g1 : ArrivalGenerator) (h h1 : heap) (i : Z)
    (arr : Dict.t (list pid)) :
  Forall (fun x => 1 <= target x <= nf) h ->
  generator_ok nf h g ->
  generate g h i = Ok (h1, g1, arr) ->
  Forall (fun x => 1 <= target x <= nf) h1
  /\ generator_ok nf h1 g1
  /\ (length h <= length h1)%nat
  /\ forall k, valid_ids h1 (find_list arr k).
Proof.
  intros HF Hg H. destruct g as [mf|mf data]; unfold generate in H.
  - apply bind_ok in H. destruct H as ([h2 dic] & Hs & H). injection H as <- <- <-.
    unfold SingleArrivals_generate, py_mod in Hs.
    destruct (Z.eqb_spec (mf - 1) 0) as [E|Hne]; [discriminate|].
    simpl in Hs. injection Hs as <- <-. simpl in Hg.
    split; [|split; [exact Hg|split]].
    + apply Forall_app. split; [exact HF|]. constructor; [|constructor]. simpl.
      pose proof (Z.mod_pos_bound i (mf - 1)). lia.
    + rewrite length_app. simpl. lia.
    + intros k. unfold group_person. rewrite deref_new. simpl.
      unfold find_list. simpl. destruct (k =? 1); [|constructor].
      constructor; [|constructor]. rewrite length_app. simpl. lia.
  - apply bind_ok in H. destruct H as ([data1 dic] & Hs & H). injection H as <- <- <-.
    rewrite FileArrivals_generate_eq in Hs. injection Hs as <- <-. simpl in Hg.
    split; [exact HF|]. split; [|split; [lia|]].
    + simpl. intros r ids. unfold Dict.mem.
      destruct (Dict.find data i) as [l|] eqn:Hi; [apply Hg|].
      destruct (Z.eq_dec r i) as [->|Hne].
      * rewrite find_set_same. intros E. injection E as <-. constructor.
      * rewrite find_set_other by exact Hne. apply Hg.
    + intros k.
      destruct (group_fold h (find_list data i) Dict.empty) as (_ & Hfind & _);
        [constructor|].
      rewrite Hfind. unfold find_list at 1. simpl.
      apply valid_ids_incl with (l := find_list data i).
      * intros p Hp. unfold group_of in Hp. apply filter_In in Hp. apply Hp.
      * unfold find_list. destruct (Dict.find data i) as [l|] eqn:Hi;
          [eapply Hg; eauto | constructor].
Qed.

Lemma board_spec_incl (h : heap) (floor e_target cap n : Z) (ws : list pid) (p : pid) :
  In p (fst (board_spec h floor e_target cap n ws))
  \/ In p (snd (board_spec h floor e_target cap n ws)) ->
  In p ws.
Proof.
  intros H. apply (Permutation_in p (board_spec_perm h floor e_target cap ws n)).
  apply in_or_app. exact H.
Qed.

(** The target [FurthestFloor] gives an elevator without passengers: the
    one it had, its current floor, or a floor of the waiting table. *)
Lemma FurthestFloor_empty_target (h : heap) (wt : Dict.t (list pid)) (e e' : Elevator) :
  passengers e = [] ->
  FurthestFloor_elevator h wt e = Ok e' ->
  target_floor e' = target_floor e
  \/ target_floor e' = current_floor e
  \/ In (target_floor e') (Dict.keys wt).
Proof.
  intros Hp He. unfold FurthestFloor_elevator in He. rewrite Hp in He. simpl in He.
  destruct (target_floor e =? current_floor e).
  - rewrite waiting_floors_spec in He. cbn [bind] in He.
    destruct (PyList.len (filter (nonempty_at wt) (Dict.keys wt)) =? 0) eqn:Hf.
    + injection He as <-. right; left; reflexivity.
    + destruct (furthest_select_spec
                  (map (fun item => Z.abs (item - current_floor e))
                       (filter (nonempty_at wt) (Dict.keys wt)))
                  (filter (nonempty_at wt) (Dict.keys wt)))
        as (i & t & m & Hs & Ht & _).
      * destruct (filter (nonempty_at wt) (Dict.keys wt)); [discriminate Hf | discriminate].
      * rewrite length_map; reflexivity.
      * rewrite Hs in He. cbn [bind] in He. injection He as <-. simpl.
        right; right. apply nth_error_In in Ht. apply filter_In in Ht. apply Ht.
  - injection He as <-. left; reflexivity.
Qed.

Lemma retarget_in_building (nf : Z) (alg : MovingAlgorithm) (h : heap)
    (es es' : list Elevator) (wt : Dict.t (list pid)) :
  Forall (fun x => 1 <= target x <= nf) h ->
  Dict.keys wt = floors nf ->
  Forall (elevator_ok nf h) es ->
  update_target_floors alg h es wt nf = Ok es' ->
  Forall (elevator_ok nf h) es'.
Proof.
  intros HF Hk Hes Hu. destruct alg; simpl in Hu.
  - injection Hu as <-. induction Hes as [|e es He Hes IH]; simpl; constructor; [|exact IH].
    destruct He as (Hv & Hc & Ht). unfold EndToEndLoop_elevator, elevator_ok.
    destruct (current_floor e =? 1); [simpl; repeat split; auto; lia|].
    destruct (current_floor e =? nf); [simpl; repeat split; auto; lia|].
    repeat split; auto; lia.
  - destruct (FurthestFloor_loop h wt es) as (es1 & Hl & HF2).
    rewrite Hl in Hu. simpl in Hu. injection Hu as <-. clear Hl.
    induction HF2 as [|e e1 es es1 He HF2 IH]; [constructor|].
    inversion Hes as [|? ? Hok Hes']; subst. constructor; [|apply IH; exact Hes'].
    destruct Hok as (Hv & Hc & Ht).
    destruct (FurthestFloor_elevator_total h wt e) as (t & Hte).
    rewrite Hte in He. injection He as <-.
    unfold elevator_ok. simpl. split; [exact Hv|]. split; [exact Hc|].
    destruct (passengers e) as [|p0 ps] eqn:Hps.
    + destruct (FurthestFloor_empty_target h wt e _ Hps Hte) as [E|[E|E]]; simpl in E.
      * lia.
      * lia.
      * rewrite Hk in E. apply floors_In in E. exact E.
    + destruct (FurthestFloor_passengers_first h wt e) as (i & p & Hfp & Hn & _).
      { rewrite Hps. discriminate. }
      rewrite Hfp in Hte. injection Hte as Hte.
      rewrite <- Hte. apply deref_target_ok; [exact HF|].
      apply nth_error_In in Hn. unfold valid_ids in Hv. rewrite Forall_forall in Hv.
      apply Hv. rewrite <- Hps. exact Hn.
Qed.

Lemma move_elevator_ok (nf : Z) (h : heap) (e : Elevator) :
  elevator_ok nf h e -> elevator_ok nf h (move_elevator e).
Proof.
  intros (Hv & Hc & Ht). unfold move_elevator, elevator_ok.
  destruct (Z.gtb_spec (current_floor e) (target_floor e)); simpl.
  - repeat split; auto; lia.
  - destruct (Z.ltb_spec (current_floor e) (target_floor e)); simpl;
      repeat split; auto; lia.
Qed.

Lemma generator_ok_grow (nf : Z) (h h' : heap) (g : ArrivalGenerator) :
  (length h <= length h')%nat -> generator_ok nf h g -> generator_ok nf h' g.
Proof.
  intros Hle. destruct g as [mf|mf data]; simpl; [auto|].
  intros Hg r ids Hf. eapply valid_ids_grow; [exact Hle | eapply Hg; eauto].
Qed.

Lemma elevator_ok_grow (nf : Z) (h h' : heap) (e : Elevator) :
  (length h <= length h')%nat -> elevator_ok nf h e -> elevator_ok nf h' e.
Proof.
  intros Hle (Hv & Hc & Ht). repeat split; auto; try lia.
  eapply valid_ids_grow; eauto.
Qed.

(** Every stage keeps the simulation inside the building. *)
Lemma exec_stage_in_building (nf : Z) (st : stage) (w w' : World) :
  in_building nf w -> exec_stage st w = Ok w' -> in_building nf w'.
Proof.
  destruct w as [h s], w' as [h' s']. unfold in_building. cbn [fst snd].
  intros (HF & Hg & Hes & Hw & Hk & Hnf) H.
  destruct st; cbn [exec_stage] in H.
  - (* Disembark *)
    rewrite handle_disembarking_spec in H. injection H as <- <-.
    cbn [arrival_generator elevators waiting num_floors].
    repeat split; auto.
    clear - Hes. induction Hes as [|e es He Hes IH]; simpl; constructor; [|exact IH].
    destruct He as (Hv & Hc & Ht). unfold elevator_ok. simpl.
    repeat split; auto; try lia.
    eapply valid_ids_incl; [|exact Hv]. intros p Hp. apply filter_In in Hp. apply Hp.
  - (* Arrivals *)
    pose proof (generate_arrivals_keys _ _ _ _ _ H) as Hkeys.
    unfold generate_arrivals in H.
    apply bind_ok in H. destruct H as ([[h1 g1] arr] & Hgen & H).
    apply bind_ok in H. destruct H as ([wt tp] & Hloop & H). injection H as <- <-.
    destruct (generate_in_building nf _ _ _ _ _ _ HF Hg Hgen) as (HF1 & Hg1 & Hle & Harr).
    cbn [arrival_generator elevators waiting num_floors] in *.
    split; [exact HF1|]. split; [exact Hg1|]. split; [|split; [|split]].
    + eapply Forall_impl; [|exact Hes]. intros e. apply elevator_ok_grow. exact Hle.
    + refine (for_each_inv
                (fun acc : Dict.t (list pid) * list pid =>
                   forall k, valid_ids h1 (find_list (fst acc) k))
                _ _ _ (waiting s, total_people s) (wt, tp) _ Hloop).
      * intros key acc acc' _ Hacc Hb.
        apply bind_ok in Hb. destruct Hb as (new & Hnew & Hb).
        apply bind_ok in Hb. destruct Hb as (l & Hl & Hb). injection Hb as <-.
        intros k. cbn [fst]. rewrite find_list_set.
        destruct (Z.eq_dec k key) as [->|_]; [|apply Hacc].
        apply Forall_app. split.
        -- specialize (Hacc key). unfold find_list in Hacc.
           rewrite (get_ok _ _ _ Hl) in Hacc. exact Hacc.
        -- specialize (Harr key). unfold find_list in Harr.
           rewrite (get_ok _ _ _ Hnew) in Harr. exact Harr.
      * intros k. cbn [fst]. eapply valid_ids_grow; [exact Hle | apply Hw].
    + congruence.
    + exact Hnf.
  - (* Board *)
    unfold handle_boarding in H.
    apply bind_ok in H. destruct H as ([es wt] & H1 & H). injection H as <- <-.
    cbn [arrival_generator elevators waiting num_floors].
    apply for_elevators_inv
      with (P := fun wt : Dict.t (list pid) =>
                   (forall k, valid_ids h (find_list wt k)) /\ Dict.keys wt = floors nf)
           (Q := fun e e' => elevator_ok nf h e -> elevator_ok nf h e')
      in H1.
    + destruct H1 as [HQ [Hw' Hk']].
      split; [exact HF|]. split; [exact Hg|]. split; [|auto].
      clear - HQ Hes. induction HQ as [|e e' es es' He HQ IH]; [constructor|].
      inversion Hes; subst. constructor; auto.
    + intros e wt0 e' wt0' _ [Hw0 Hk0] Hb.
      rewrite board_elevator_spec in Hb
        by (unfold Dict.wf; rewrite Hk0; apply sorted_NoDup, floors_sorted).
      destruct (Dict.find wt0 (current_floor e)) as [ws|] eqn:Hf.
      * injection Hb as <- <-.
        assert (Hws : valid_ids h ws).
        { specialize (Hw0 (current_floor e)). unfold find_list in Hw0.
          rewrite Hf in Hw0. exact Hw0. }
        split; [|split].
        -- intros (Hv & Hc & Ht). unfold elevator_ok. simpl.
           repeat split; auto; try lia.
           apply Forall_app. split; [exact Hv|].
           eapply valid_ids_incl; [|exact Hws].
           intros p Hp. eapply board_spec_incl. left; exact Hp.
        -- intros k. rewrite find_list_set.
           destruct (Z.eq_dec k (current_floor e)) as [_|_]; [|apply Hw0].
           eapply valid_ids_incl; [|exact Hws].
           intros p Hp. eapply board_spec_incl. right; exact Hp.
        -- rewrite keys_set_old; [exact Hk0|]. apply find_keys. eauto.
      * injection Hb as <- <-. auto.
    + auto.
  - (* Move *)
    unfold move_elevators, retarget in H.
    apply bind_ok in H. destruct H as ([h1 s1] & Hr & H).
    apply bind_ok in Hr. destruct Hr as (es1 & Hu & Hr).
    injection Hr as <- <-. injection H as <- <-.
    unfold with_elevators. cbn [arrival_generator elevators waiting num_floors].
    rewrite Hnf in Hu.
    pose proof (retarget_in_building nf _ h _ _ _ HF Hk Hes Hu) as Hes1.
    repeat split; auto.
    clear - Hes1. induction Hes1 as [|e es He Hes IH]; simpl; constructor; [|exact IH].
    apply move_elevator_ok. exact He.
  - (* Tick *)
    rewrite update_wait_times_spec in H. injection H as <- <-.
    assert (Hlen : (length h <= length (fold_left tick (riders_and_waiters s) h))%nat).
    { rewrite (proj1 (fold_tick (riders_and_waiters s) h O)). lia. }
    split; [apply fold_tick_targets; exact HF|].
    split; [eapply generator_ok_grow; eauto|].
    split; [|split; [|auto]].
    + eapply Forall_impl; [|exact Hes]. intros e. apply elevator_ok_grow. exact Hlen.
    + intros k. eapply valid_ids_grow; [exact Hlen | apply Hw].
Qed.

(** X16.  In a building with at least one floor, when everybody in the
    store wants to go to a floor of the building and the generator sends
    people only to such floors ([SingleArrivals] with
    [2 <= max_floor <= num_floors], or [FileArrivals] over people of the
    store), every state the simulation reaches from its constructor has
    every elevator's current and target floor between 1 and [num_floors],
    under either moving algorithm; and everybody created on the way wants
    to go to a floor of the building too. *)
Theorem elevators_stay_in_building (config : Config) (h0 : heap) (w : World) :
  1 <= cfg_num_floors config ->
  Forall (fun x => 1 <= target x <= cfg_num_floors config) h0 ->
  generator_ok (cfg_num_floors config) h0 (cfg_arrival_generator config) ->
  reachable (h0, new_Simulation config) w ->
  Forall (fun e => 1 <= current_floor e <= cfg_num_floors config
                   /\ 1 <= target_floor e <= cfg_num_floors config)
         (elevators (snd w))
  /\ Forall (fun x => 1 <= target x <= cfg_num_floors config) (fst w)
  /\ in_building (cfg_num_floors config) w.
Proof.
  intros Hnf HF Hg Hr.
  assert (Hin : in_building (cfg_num_floors config) w).
  { induction Hr as [|st w1 w2 Hr IH Hst].
    - unfold in_building. cbn [fst snd].
      assert (Eg : arrival_generator (new_Simulation config) = cfg_arrival_generator config)
        by reflexivity.
      assert (Ee : elevators (new_Simulation config)
                   = repeat (mkElevator (cfg_elevator_capacity config) 1 1 [])
                            (Z.to_nat (cfg_num_elevators config)))
        by (rewrite new_Simulation_eq; reflexivity).
      assert (Ew : waiting (new_Simulation config)
                   = map (fun f => (f, [])) (floors (cfg_num_floors config)))
        by (rewrite new_Simulation_eq; reflexivity).
      split; [exact HF|]. split; [rewrite Eg; exact Hg|]. split; [|split; [|split]].
      + rewrite Ee. apply Forall_forall. intros e He. apply repeat_spec in He. subst e.
        unfold elevator_ok. simpl. repeat split; try lia. constructor.
      + intros k. rewrite Ew. unfold find_list.
        assert (E : forall l : list Z,
                   match Dict.find (map (fun f => (f, @nil pid)) l) k with
                   | Some l0 => l0 | None => [] end = []).
        { induction l as [|a l IHl]; simpl; [reflexivity|].
          destruct (k =? a); [reflexivity | exact IHl]. }
        rewrite E. constructor.
      + apply new_Simulation_keys.
      + reflexivity.
    - eapply exec_stage_in_building; eauto. }
  split; [|split; [apply Hin | exact Hin]].
  destruct Hin as (_ & _ & Hes & _).
  eapply Forall_impl; [|exact Hes]. intros e (_ & Hc & Ht). split; assumption.
Qed.

Lemma elevators_stay_in_building_witness :
  let config := mkConfig 5 1 2 (FileArrivals 5 [(0, [0%nat; 1%nat])]) FurthestFloor in
  let h0 := [mkPerson 3 5 0; mkPerson 3 1 0] in
  1 <= cfg_num_floors config
  /\ Forall (fun x => 1 <= target x <= cfg_num_floors config) h0
  /\ generator_ok (cfg_num_floors config) h0 (cfg_arrival_generator config)
  /\ exists w,
       reachable (h0, new_Simulation config) w
       /\ elevators (snd w) = [mkElevator 2 4 5 [0%nat; 1%nat]]
       /\ Forall (fun e => 1 <= current_floor e <= cfg_num_floors config
                           /\ 1 <= target_floor e <= cfg_num_floors config)
                 (elevators (snd w)).
Proof.
  cbv zeta.
  assert (H1 : 1 <= cfg_num_floors
                      (mkConfig 5 1 2 (FileArrivals 5 [(0, [0%nat; 1%nat])]) FurthestFloor))
    by (simpl; lia).
  assert (H2 : Forall (fun x => 1 <= target x <= cfg_num_floors
                         (mkConfig 5 1 2 (FileArrivals 5 [(0, [0%nat; 1%nat])]) FurthestFloor))
                      [mkPerson 3 5 0; mkPerson 3 1 0]).
  { repeat constructor; simpl; lia. }
  assert (H3 : generator_ok
                 (cfg_num_floors
                    (mkConfig 5 1 2 (FileArrivals 5 [(0, [0%nat; 1%nat])]) FurthestFloor))
                 [mkPerson 3 5 0; mkPerson 3 1 0]
                 (cfg_arrival_generator
                    (mkConfig 5 1 2 (FileArrivals 5 [(0, [0%nat; 1%nat])]) FurthestFloor))).
  { simpl. intros r ids. destruct (r =? 0); [|discriminate].
    intros E. injection E as <-. repeat constructor. }
  split; [exact H1|]. split; [exact H2|]. split; [exact H3|].
  assert (Hr : reachable
                 ([mkPerson 3 5 0; mkPerson 3 1 0],
                  new_Simulation
                    (mkConfig 5 1 2 (FileArrivals 5 [(0, [0%nat; 1%nat])]) FurthestFloor))
                 ([mkPerson 3 5 2; mkPerson 3 1 2],
                  mkSimulation (FileArrivals 5 [(0, [0%nat; 1%nat]); (1, []); (2, [])])
                    [mkElevator 2 4 5 [0%nat; 1%nat]] FurthestFloor 5
                    [(1, []); (2, []); (3, []); (4, []); (5, [])]
                    [0%nat; 1%nat] [])).
  { apply (stages_reachable
             (round_stages 0 ++ round_stages 1 ++ [Disembark; Arrivals 2; Board; Move])
             _ _ _ (reach_init _)).
    vm_compute. reflexivity. }
  eexists. split; [exact Hr|]. split; [reflexivity|].
  exact (proj1 (elevators_stay_in_building _ _ _ H1 H2 H3 Hr)).
Defined.

(** ** Completed people are final *)

Lemma flat_map_find_list (d : Dict.t (list pid)) :
  Dict.wf d -> flat_map (find_list d) (Dict.keys d) = flat_map snd d.
Proof.
  unfold Dict.wf. induction d as [|[k v] d IH]; intros Hnd; simpl; [reflexivity|].
  inversion Hnd as [|? ? Hnin Hnd']; subst.
  unfold find_list at 1. simpl. rewrite Z.eqb_refl. f_equal.
  rewrite <- IH by exact Hnd'.
  rewrite !flat_map_concat_map. f_equal. apply map_ext_in.
  intros k' Hk'. unfold find_list. simpl.
  destruct (Z.eqb_spec k' k) as [->|_]; [contradiction | reflexivity].
Qed.

(** X17.  Once a person is in [reached_dest] they stay there, and as long
    as [total_people] lists nobody twice no later stage touches them: the
    waiting time a completed person has is the one the statistics will
    see.  (Stated for one stage from any state the simulation reaches; the
    person is an object of the store.) *)
Theorem completed_people_final (config : Config) (h0 : heap) (st : stage)
    (w w' : World) (p : pid) :
  reachable (h0, new_Simulation config) w ->
  exec_stage st w = Ok w' ->
  NoDup (total_people (snd w)) ->
  In p (reached_dest (snd w)) ->
  (p < length (fst w))%nat ->
  In p (reached_dest (snd w')) /\ deref (fst w') p = deref (fst w) p.
Proof.
  intros Hr Hst Hnd Hp Hlt.
  pose proof (reachable_people_perm config h0 w Hr) as Hperm.
  pose proof (reachable_keys config h0 w Hr) as Hkeys.
  assert (Hwf : Dict.wf (waiting (snd w))).
  { unfold Dict.wf. rewrite Hkeys. apply sorted_NoDup, floors_sorted. }
  split.
  - pose proof (exec_stage_people st w w' Hst) as Hps. unfold people_step in Hps.
    destruct st.
    + destruct Hps as [_ ->]. apply in_or_app. left; exact Hp.
    + destruct Hps as [_ ->]. exact Hp.
    + destruct Hps as [_ ->]. exact Hp.
    + destruct Hps as [_ ->]. exact Hp.
    + destruct Hps as [_ ->]. exact Hp.
  - destruct w as [h s], w' as [h' s']. cbn [fst snd] in *.
    destruct st; cbn [exec_stage] in Hst.
    + rewrite handle_disembarking_spec in Hst. injection Hst as <- <-. reflexivity.
    + unfold generate_arrivals in Hst.
      apply bind_ok in Hst. destruct Hst as ([[h1 g1] arr] & Hgen & Hst).
      apply bind_ok in Hst. destruct Hst as ([wt tp] & _ & Hst). injection Hst as <- <-.
      apply generate_heap in Hgen. destruct Hgen as (new & -> & _).
      unfold deref. apply app_nth1. exact Hlt.
    + unfold handle_boarding in Hst.
      apply bind_ok in Hst. destruct Hst as ([es wt] & _ & Hst).
      injection Hst as <- <-. reflexivity.
    + destruct (move_elevators_total h s) as (es & Hm).
      rewrite Hm in Hst. injection Hst as <- <-. reflexivity.
    + rewrite update_wait_times_spec in Hst. injection Hst as <- <-.
      assert (Hnot : ~ In p (riders_and_waiters s)).
      { assert (Hnd' : NoDup (people_in_system s)).
        { eapply Permutation_NoDup; [apply Permutation_sym; exact Hperm | exact Hnd]. }
        unfold people_in_system in Hnd'. unfold riders_and_waiters.
        rewrite (flat_map_find_list _ Hwf).
        rewrite app_assoc in Hnd'.
        intros Hin.
        assert (Hin' : In p (flat_map snd (waiting s) ++ flat_map passengers (elevators s))).
        { apply in_app_or in Hin. apply in_or_app. tauto. }
        clear Hin. revert Hin' Hp Hnd'.
        generalize (flat_map snd (waiting s) ++ flat_map passengers (elevators s)).
        intros l Hin Hp Hnd'. induction l as [|x l IH]; [contradiction|].
        simpl in Hnd'. inversion Hnd' as [|? ? Hx Hl]; subst.
        destruct Hin as [->|Hin]; [|auto].
        apply Hx. apply in_or_app. right; exact Hp. }
      destruct (fold_tick (riders_and_waiters s) h p) as (_ & H2 & H3 & H4).
      rewrite (count_occ_not_In Nat.eq_dec) in Hnot. rewrite Hnot in H4.
      destruct (deref (fold_left tick (riders_and_waiters s) h) p) as [a b c],
               (deref h p) as [a' b' c'].
      simpl in *. destruct (p <? length h)%nat; f_equal; lia.
Qed.

Lemma completed_people_final_witness :
  let w0 := ([], new_Simulation (mkConfig 6 2 2 (SingleArrivals 6) EndToEndLoop)) in
  exists w w',
    reachable w0 w
    /\ exec_stage Tick w = Ok w'
    /\ NoDup (total_people (snd w))
    /\ In 0%nat (reached_dest (snd w))
    /\ (0 < length (fst w))%nat
    /\ deref (fst w') 0%nat = mkPerson 1 2 1
    /\ deref (fst w') 0%nat = deref (fst w) 0%nat.
Proof.
  assert (Hr : reachable
                 ([], new_Simulation (mkConfig 6 2 2 (SingleArrivals 6) EndToEndLoop))
                 ([mkPerson 1 2 1; mkPerson 1 3 0],
                  mkSimulation (SingleArrivals 6)
                    [mkElevator 2 3 6 []; mkElevator 2 3 6 []] EndToEndLoop 6
                    [(1, [1%nat]); (2, []); (3, []); (4, []); (5, []); (6, [])]
                    [0%nat; 1%nat] [0%nat])).
  { apply (stages_reachable (round_stages 0 ++ [Disembark; Arrivals 1; Board; Move])
             _ _ _ (reach_init _)).
    vm_compute. reflexivity. }
  assert (Hnd : NoDup [0%nat; 1%nat]).
  { repeat constructor; simpl; intuition lia. }
  do 2 eexists. split; [exact Hr|]. split; [vm_compute; reflexivity|].
  split; [exact Hnd|]. split; [left; reflexivity|]. split; [simpl; lia|].
  split; [reflexivity|].
  refine (proj2 (completed_people_final _ _ Tick _ _ 0%nat Hr _ Hnd _ _)).
  - vm_compute. reflexivity.
  - left; reflexivity.
  - simpl; lia.
Defined.

(** ** A run over an arrivals file *)

Lemma generate_FileArrivals_eq (mf : Z) (data : Dict.t (list pid)) (h : heap) (i : Z) :
  generate (FileArrivals mf data) h i
  = Ok (h, FileArrivals mf (if Dict.mem data i then data else Dict.set data i []),
        fold_left (group_person h) (find_list data i) Dict.empty).
Proof. unfold generate. rewrite FileArrivals_generate_eq. reflexivity. Qed.

Lemma round_over_file (nf mf i : Z) (h : heap) (s : Simulation)
    (data : Dict.t (list pid)) :
  Dict.keys (waiting s) = floors nf ->
  arrival_generator s = FileArrivals mf data ->
  starts_in_building nf h data ->
  exists h' s' data',
    round i (h, s) = Ok (h', s')
    /\ Dict.keys (waiting s') = floors nf
    /\ arrival_generator s' = FileArrivals mf data'
    /\ starts_in_building nf h' data'.
Proof.
  intros Hk Hg Hst.
  assert (Hnd : NoDup (floors nf)) by apply sorted_NoDup, floors_sorted.
  unfold round, round_stages. cbn [for_each exec_stage].
  rewrite handle_disembarking_spec. cbn [bind].
  set (s1 := mkSimulation _ _ _ _ _ _ _).
  (* arrivals *)
  set (people := find_list data i).
  set (arr := fold_left (group_person h) people Dict.empty).
  set (data1 := if Dict.mem data i then data else Dict.set data i []).
  assert (Hgen : generate (arrival_generator s1) h i = Ok (h, FileArrivals mf data1, arr)).
  { unfold s1. cbn [arrival_generator]. rewrite Hg. apply generate_FileArrivals_eq. }
  assert (Hst1 : starts_in_building nf h data1).
  { unfold data1, Dict.mem. destruct (Dict.find data i) as [l|] eqn:Hi; [exact Hst|].
    intros r ids p. destruct (Z.eq_dec r i) as [->|Hne].
    - rewrite find_set_same. intros E. injection E as <-. contradiction.
    - rewrite find_set_other by exact Hne. apply Hst. }
  assert (Hpeople : forall p, In p people -> 1 <= start (deref h p) <= nf).
  { intros p Hp. unfold people, find_list in Hp.
    destruct (Dict.find data i) as [l|] eqn:Hi; [|contradiction].
    eapply Hst; eauto. }
  assert (Hkeys : forall k, In k (Dict.keys arr) -> In k (Dict.keys (waiting s1))).
  { intros k Hin. unfold s1. cbn [waiting]. rewrite Hk. apply floors_In.
    destruct (group_fold h people Dict.empty) as (_ & _ & Hkeys); [constructor|].
    apply Hkeys in Hin. destruct Hin as [[]|Hne].
    unfold group_of in Hne.
    destruct (filter (fun p => start (deref h p) =? k) people) as [|p l] eqn:Hf;
      [congruence|].
    assert (Hin : In p (filter (fun p => start (deref h p) =? k) people))
      by (rewrite Hf; left; reflexivity).
    apply filter_In in Hin. destruct Hin as [Hin Hs].
    apply Z.eqb_eq in Hs. rewrite <- Hs. apply Hpeople. exact Hin. }
  assert (Hwfarr : Dict.wf arr) by (eapply generate_wf; eauto).
  destruct (arrivals_loop_ok arr (Dict.keys arr) Hwfarr (fun k H => H)
              (waiting s1, total_people s1) Hkeys) as (wt & Hloop & Hkwt & _).
  assert (Ha : generate_arrivals i (h, s1)
               = Ok (h, mkSimulation (FileArrivals mf data1) (elevators s1)
                          (moving_algorithm s1) (num_floors s1) wt
                          (total_people s1 ++ flat_map (find_list arr) (Dict.keys arr))
                          (reached_dest s1))).
  { unfold generate_arrivals. rewrite Hgen. cbn [bind]. rewrite Hloop. reflexivity. }
  rewrite Ha. cbn [bind]. cbn [fst] in Hkwt.
  set (s2 := mkSimulation (FileArrivals mf data1) _ _ _ wt _ _).
  destruct (handle_boarding_total h s2) as (es3 & wt3 & Hb & Hk3).
  { unfold Dict.wf, s2. cbn [waiting]. rewrite Hkwt. unfold s1. cbn [waiting].
    rewrite Hk. exact Hnd. }
  rewrite Hb. cbn [bind].
  set (s3 := mkSimulation _ es3 _ _ wt3 _ _).
  destruct (move_elevators_total h s3) as (es4 & Hm).
  rewrite Hm. cbn [bind]. rewrite update_wait_times_spec.
  do 3 eexists. split; [reflexivity|].
  unfold with_elevators, s3, s2, s1. cbn [waiting arrival_generator].
  split; [|split; [reflexivity|]].
  - rewrite Hk3. unfold s2. cbn [waiting]. rewrite Hkwt. unfold s1. cbn [waiting].
    exact Hk.
  - intros r ids p Hf Hin.
    match goal with
    | |- context [deref (fold_left tick ?l h) p] =>
        destruct (fold_tick l h p) as (_ & -> & _)
    end.
    eapply Hst1; eauto.
Qed.

Lemma rounds_over_file (nf mf : Z) (l : list Z) :
  forall (h : heap) (s : Simulation) (data : Dict.t (list pid)),
    Dict.keys (waiting s) = floors nf ->
    arrival_generator s = FileArrivals mf data ->
    starts_in_building nf h data ->
    exists w', for_each l round (h, s) = Ok w'.
Proof.
  induction l as [|i l IH]; intros h s data Hk Hg Hst; cbn [for_each].
  - eexists. reflexivity.
  - destruct (round_over_file nf mf i h s data Hk Hg Hst)
      as (h1 & s1 & data1 & Hr & Hk1 & Hg1 & Hst1).
    rewrite Hr. cbn [bind]. eapply IH; eauto.
Qed.

(** X18.  With [FileArrivals] over a schedule in which every person starts
    on a floor of the building, every round of [run], asked for at least
    one round, completes under either moving algorithm: no stage of any
    round raises, wherever those people want to go and however many there
    are.  When the waiting times of the people who completed sum to less
    than 2^53 in absolute value, [run] returns statistics, with the number
    of rounds it was given. *)
Theorem run_over_file_returns (config : Config) (h0 : heap) (mf : Z)
    (data : Dict.t (list pid)) (num_rounds : Z) :
  cfg_arrival_generator config = FileArrivals mf data ->
  starts_in_building (cfg_num_floors config) h0 data ->
  1 <= num_rounds ->
  exists w,
    for_each (range num_rounds) round (h0, new_Simulation config) = Ok w
    /\ (Z.abs (PyList.sum (map (fun p => wait_time (deref (fst w) p))
                               (reached_dest (snd w)))) < 2 ^ 53 ->
        exists stats,
          run (h0, new_Simulation config) num_rounds = Ok (w, stats)
          /\ stat stats "num_rounds" = Some num_rounds).
Proof.
  intros Hg Hst _.
  destruct (rounds_over_file (cfg_num_floors config) mf (range num_rounds) h0
              (new_Simulation config) data) as ([h s] & Hr).
  - apply new_Simulation_keys.
  - exact Hg.
  - exact Hst.
  - exists (h, s). split; [exact Hr|]. intros _.
    destruct (calculate_stats_shape h s num_rounds) as (mx & av & Hs & _).
    unfold run. rewrite Hr. cbn [bind]. rewrite Hs. cbn [bind].
    eexists. split; reflexivity.
Qed.

Lemma run_over_file_returns_witness :
  let config := mkConfig 5 1 2 (FileArrivals 5 [(0, [0%nat; 1%nat])]) FurthestFloor in
  let h0 := [mkPerson 3 5 0; mkPerson 3 1 0] in
  cfg_arrival_generator config = FileArrivals 5 [(0, [0%nat; 1%nat])]
  /\ starts_in_building (cfg_num_floors config) h0 [(0, [0%nat; 1%nat])]
  /\ 1 <= 8
  /\ exists w, for_each (range 8) round (h0, new_Simulation config) = Ok w
               /\ total_people (snd w) = [0%nat; 1%nat].
Proof.
  cbv zeta.
  assert (Hst : starts_in_building
                  (cfg_num_floors
                     (mkConfig 5 1 2 (FileArrivals 5 [(0, [0%nat; 1%nat])]) FurthestFloor))
                  [mkPerson 3 5 0; mkPerson 3 1 0] [(0, [0%nat; 1%nat])]).
  { intros r ids p. simpl. destruct (r =? 0); [|discriminate].
    intros E. injection E as <-. intros [<-|[<-|[]]]; simpl; lia. }
  split; [reflexivity|]. split; [exact Hst|]. split; [lia|].
  destruct (run_over_file_returns
              (mkConfig 5 1 2 (FileArrivals 5 [(0, [0%nat; 1%nat])]) FurthestFloor)
              [mkPerson 3 5 0; mkPerson 3 1 0] 5 [(0, [0%nat; 1%nat])] 8 eq_refl Hst
              ltac:(lia)) as (w & Hr & _).
  exists w. split; [exact Hr|].
  vm_compute in Hr. injection Hr as <-. reflexivity.
Defined.
